(** * Flask/Playwright query service (app_v3.py, config_v3.py)

    A shallow embedding of the core of [app_v3.py]: the browser resource
    manager ([init_playwright], [close_playwright], [get_browser_context],
    [health_check]), the extraction pipeline of [query_data], the result
    cache of the [cache_result] decorator and the credential check of
    [api_query], followed by the properties established about them.

    Python values are modelled as the code has them: [str] is a sequence of
    Unicode code points, [float] is IEEE binary64 (Rocq's primitive floats),
    [int] is [Z], dictionaries are finite maps, exceptions are an explicit
    [Raise] outcome and the module-level globals are fields of explicit
    state records. *)

From Stdlib Require Import ZArith NArith List String Ascii Bool Lia.
From Stdlib Require Import Floats.
From Stdlib Require Import DecimalString.
From stdpp Require Import gmap list fin_maps.

#[local] Set Warnings "-inexact-float".
#[local] Open Scope Z_scope.

(* ===================================================================== *)
(** * Python built-ins used by the code                                   *)
(* ===================================================================== *)

(** ** Exceptions and fallible results *)

Inductive exn : Type :=
| ValueError              (* int() / float() on text that is not a number *)
| AttributeError          (* a method called on None, or .get on a non-dict *)
| IndexError              (* a list indexed past its end *)
| PlaywrightTimeoutError  (* a bounded wait of the browser ran out *)
| PlaywrightError.        (* any other failure of the automation library *)

Inductive result (A : Type) : Type :=
| Ok (a : A)
| Raise (e : exn).
Arguments Ok {A} a.
Arguments Raise {A} e.

(** [result] is a monad; stdpp's notation [x ← r; k] sequences two fallible
    steps and lets the first exception escape. *)
#[global] Instance result_ret : MRet result := fun A a => Ok a.
#[global] Instance result_bind : MBind result := fun A B k r =>
  match r with
  | Ok a => k a
  | Raise e => Raise e
  end.

(** Evaluating a list of fallible computations left to right, stopping at
    the first exception (a [for] loop that appends to a list). *)
Fixpoint for_each {A B : Type} (f : A -> result B) (l : list A) : result (list B) :=
  match l with
  | [] => Ok []
  | a :: l' =>
      match f a with
      | Raise e => Raise e
      | Ok b =>
          match for_each f l' with
          | Raise e => Raise e
          | Ok bs => Ok (b :: bs)
          end
      end
  end.

(** ** Strings *)

Module PyStr.

(** A Python [str]: the sequence of its Unicode code points. *)
Definition str : Type := list N.

(** An ASCII literal as a [str]. *)
Definition lit (s : string) : str := map N_of_ascii (list_ascii_of_string s).

Definition comma : N := 44.      (* ',' *)
Definition percent : N := 37.    (* '%' *)
Definition yen : N := 165.       (* the currency symbol U+00A5 *)
Definition underscore : N := 95.
Definition dot : N := 46.

(** [c.isspace()]: the code points [str.strip()] removes. *)
Definition isspace (c : N) : bool :=
  ((9 <=? c) && (c <=? 13) || (28 <=? c) && (c <=? 32)
   || (c =? 133) || (c =? 160) || (c =? 5760)
   || (8192 <=? c) && (c <=? 8202)
   || (c =? 8232) || (c =? 8233) || (c =? 8239) || (c =? 8287)
   || (c =? 12288))%N.

Fixpoint lstrip (s : str) : str :=
  match s with
  | c :: s' => if isspace c then lstrip s' else s
  | [] => []
  end.

(** [s.strip()] *)
Definition strip (s : str) : str := rev (lstrip (rev (lstrip s))).

(** [s.replace(old, new)] for a one-character [old], the only form the
    code uses ([','], ['¥'] and ['%'], each replaced by ['']). *)
Definition replace (old : N) (new : str) (s : str) : str :=
  flat_map (fun c => if (c =? old)%N then new else [c]) s.

(** Truth value of an [Optional[str]]: [None] and [''] are false. *)
Definition truthy (t : option str) : bool :=
  match t with
  | Some (_ :: _) => true
  | _ => false
  end.

(** [c.lower()] on ASCII letters (used for the [inf] / [nan] spellings). *)
Definition lower (c : N) : N :=
  if ((65 <=? c) && (c <=? 90))%N then (c + 32)%N else c.

Definition isdigit (c : N) : bool := ((48 <=? c) && (c <=? 57))%N.

Definition digit_value (c : N) : Z := Z.of_N c - 48.

End PyStr.
Import PyStr.

(** ** Numbers: [int()] and [float()] *)

Module PyNum.

(** [Py_UNICODE_TODECIMAL].  The decimal digits of Unicode (category Nd,
    here those of Unicode 14.0, the database of CPython 3.11) come in runs
    of ten code points, zero to nine; these are the first code points of
    the runs. *)
Definition decimal_runs : list N :=
  [48; 1632; 1776; 1984; 2406; 2534; 2662; 2790; 2918; 3046; 3174; 3302; 3430; 3558;
   3664; 3792; 3872; 4160; 4240; 6112; 6160; 6470; 6608; 6784; 6800; 6992; 7088; 7232;
   7248; 42528; 43216; 43264; 43472; 43504; 43600; 44016; 65296; 66720; 68912; 69734;
   69872; 69942; 70096; 70384; 70736; 70864; 71248; 71360; 71472; 71904; 72016; 72784;
   73040; 73120; 92768; 92864; 93008; 120782; 120792; 120802; 120812; 120822; 123200;
   123632; 125264; 130032]%N.

Definition todecimal (c : N) : option N :=
  match List.find (fun a => (a <=? c) && (c <? a + 10))%N decimal_runs with
  | Some a => Some (c - a)%N
  | None => None
  end.

(** What [int()] and [float()] first do with a [str]
    ([_PyUnicode_TransformDecimalAndSpaceToASCII]).  An ASCII string is
    taken as it is.  In any other string a code point below 127 is kept,
    white space becomes a space, a decimal digit becomes the ASCII digit of
    its value, and the text is cut at the first other code point, which is
    replaced by ['?']. *)
Fixpoint transform (s : str) : str :=
  match s with
  | c :: s' =>
      if (c <? 127)%N then c :: transform s'
      else if isspace c then 32%N :: transform s'
      else
        match todecimal c with
        | Some d => (48 + d)%N :: transform s'
        | None => [63%N]
        end
  | [] => []
  end.

Definition is_ascii (s : str) : bool := forallb (fun c => c <? 128)%N s.

Definition to_ascii (s : str) : str := if is_ascii s then s else transform s.

(** [Py_ISSPACE], the white space the parsers skip once the text is ASCII:
    the space and the code points 9 to 13, and not 28 to 31, which
    [str.strip()] removes. *)
Definition c_isspace (c : N) : bool := ((c =? 32) || (9 <=? c) && (c <=? 13))%N.

Fixpoint skip_spaces (s : str) : str :=
  match s with
  | c :: s' => if c_isspace c then skip_spaces s' else s
  | [] => []
  end.

(** The text without the white space at its two ends. *)
Definition trim (s : str) : str := rev (skip_spaces (rev (skip_spaces s))).

(** [sys.int_info.default_max_str_digits]: [int()] refuses a numeral of
    more digits. *)
Definition max_str_digits : nat := 4300.

(** A leading ['+'] or ['-']: whether the sign is negative, and the rest. *)
Definition read_sign (s : str) : bool * str :=
  match s with
  | c :: s' =>
      if (c =? 45)%N then (true, s')
      else if (c =? 43)%N then (false, s')
      else (false, s)
  | [] => (false, [])
  end.

(** The longest prefix of the form [digit (["_"] digit)*]: its digits and
    the rest of the text.  The text is ASCII by now: the other decimal
    digits have been replaced by [transform]. *)
Fixpoint read_digits (s : str) : list Z * str :=
  match s with
  | c :: s' =>
      if isdigit c then
        match s' with
        | u :: ((d :: _) as s'') =>
            if (u =? underscore)%N && isdigit d
            then let (ds, r) := read_digits s'' in (digit_value c :: ds, r)
            else let (ds, r) := read_digits s' in (digit_value c :: ds, r)
        | _ => let (ds, r) := read_digits s' in (digit_value c :: ds, r)
        end
      else ([], s)
  | [] => ([], [])
  end.

(** The characters of a run of digits. *)
Definition numeral_char (c : N) : Prop := isdigit c = true \/ c = underscore.

Definition decimal (ds : list Z) : Z := fold_left (fun acc d => 10 * acc + d) ds 0.

(** [int(s)]: surrounding whitespace, an optional sign, decimal digits,
    at most [max_str_digits] of them. *)
Definition int (s : str) : result Z :=
  let (neg, body) := read_sign (trim (to_ascii s)) in
  match read_digits body with
  | ((_ :: _) as ds, []) =>
      if (max_str_digits <? length ds)%nat then Raise ValueError
      else Ok (if neg then - decimal ds else decimal ds)
  | _ => Raise ValueError
  end.

(** The binary64 value nearest to [n / d] ([0 <= n], [0 < d]), ties to even.
    The quotient is taken in units of [2^-1076], two bits below the smallest
    subnormal, with one more sticky bit recording an inexact division. *)
Definition nearest_float (n d : Z) : float :=
  let scaled := n * 2 ^ 1076 in
  let q := scaled / d in
  let sticky := if scaled mod d =? 0 then 0 else 1 in
  SF2Prim (binary_normalize 53 1024 (2 * q + sticky) (-1077) false).

(** The value of the decimal literal [ip.fp e ex]. *)
Definition decimal_float (ip fp : list Z) (ex : Z) : float :=
  let m := decimal (ip ++ fp) in
  let e := ex - Z.of_nat (length fp) in
  if 0 <=? e then nearest_float (m * 10 ^ e) 1 else nearest_float m (10 ^ (- e)).

Definition signed (neg : bool) (f : float) : float :=
  if neg then PrimFloat.opp f else f.

Definition is_exponent_mark (c : N) : bool := ((c =? 101) || (c =? 69))%N.

(** [float(s)]: surrounding whitespace, an optional sign, then [inf],
    [infinity] or [nan] in any letter case, or a decimal literal with an
    optional fraction and exponent. *)
Definition float (s : str) : result PrimFloat.float :=
  let (neg, body) := read_sign (trim (to_ascii s)) in
  let word := map lower body in
  if bool_decide (word = lit "inf") || bool_decide (word = lit "infinity")
  then Ok (signed neg infinity)
  else if bool_decide (word = lit "nan") then Ok (signed neg nan)
  else
    let (ip, r1) := read_digits body in
    let (fp, r2) :=
      match r1 with
      | c :: r => if (c =? dot)%N then read_digits r else ([], r1)
      | [] => ([], r1)
      end in
    match ip ++ fp with
    | [] => Raise ValueError
    | _ :: _ =>
        match r2 with
        | [] => Ok (signed neg (decimal_float ip fp 0))
        | c :: r3 =>
            if is_exponent_mark c then
              let (eneg, r4) := read_sign r3 in
              match read_digits r4 with
              | ((_ :: _) as ed, []) =>
                  Ok (signed neg (decimal_float ip fp
                                    (if eneg then - decimal ed else decimal ed)))
              | _ => Raise ValueError
              end
            else Raise ValueError
        end
    end.

(** A Python number as the code produces them: the literal [0] of the
    defaults is an [int], parsed amounts are [float]s. *)
Inductive num : Type :=
| Int (z : Z)
| Float (f : PrimFloat.float).

End PyNum.

(* ===================================================================== *)
(** * config_v3.py                                                        *)
(* ===================================================================== *)

Module config.

(** The two credentials are read from the environment when the module is
    loaded ([os.environ.get] with a literal fallback) and never change
    afterwards: a configuration is any pair of them. *)
Record t : Type := {
  DEFAULT_AUTH_KEY : str;
  DEFAULT_APP_ID : str
}.

(** The configuration of a process started with neither variable set. *)
Definition fallback : t :=
  {| DEFAULT_AUTH_KEY := lit "your-auth-key"; DEFAULT_APP_ID := lit "your-app-id" |}.

Inductive coefficient : Type := default | high_value | low_value | special_case.

Definition PROFIT_COEFFICIENTS (k : coefficient) : float :=
  match k with
  | default => 1.0
  | high_value => 1.2
  | low_value => 0.8
  | special_case => 1.5
  end%float.

(** [CACHE_CONFIG['timeout']] is [PERFORMANCE['cache_timeout']] as it is
    when [CACHE_CONFIG] is built, before any per-environment override. *)
Definition CACHE_timeout : Z := 300.

End config.

(* ===================================================================== *)
(** * The browser resource manager                                        *)
(* ===================================================================== *)

Module Resource.

(** Playwright runtimes and browsers are objects of the automation library;
    the program holds references to them, modelled as handles. *)
Definition handle : Type := nat.

(** The module-level globals [playwright_instance], [browser_instance] and
    [browser_lock], with the part of the outside world they refer to:
    [connected] is the set of browsers whose [is_connected()] is true. *)
Record state : Type := {
  playwright_instance : option handle;
  browser_instance : option handle;
  browser_lock : bool;
  connected : gset handle;
  next_handle : handle
}.

Definition initial : state :=
  {| playwright_instance := None; browser_instance := None;
     browser_lock := false; connected := ∅; next_handle := 0%nat |}.

Definition set_playwright_instance (p : option handle) (s : state) : state :=
  {| playwright_instance := p; browser_instance := browser_instance s;
     browser_lock := browser_lock s; connected := connected s;
     next_handle := next_handle s |}.

Definition set_browser_instance (b : option handle) (s : state) : state :=
  {| playwright_instance := playwright_instance s; browser_instance := b;
     browser_lock := browser_lock s; connected := connected s;
     next_handle := next_handle s |}.

Definition set_browser_lock (l : bool) (s : state) : state :=
  {| playwright_instance := playwright_instance s;
     browser_instance := browser_instance s;
     browser_lock := l; connected := connected s;
     next_handle := next_handle s |}.

Definition set_connected (c : gset handle) (s : state) : state :=
  {| playwright_instance := playwright_instance s;
     browser_instance := browser_instance s;
     browser_lock := browser_lock s; connected := c;
     next_handle := next_handle s |}.

(** A new object of the library: its handle, and the state that knows it. *)
Definition fresh (s : state) : handle * state :=
  (next_handle s,
   {| playwright_instance := playwright_instance s;
      browser_instance := browser_instance s;
      browser_lock := browser_lock s; connected := connected s;
      next_handle := S (next_handle s) |}).

(** What the outside world decides during a call of the manager, for each
    call of the library: [None] for success, [Some e] when it raises [e]. *)
Record env : Type := {
  start_raises : option exn;    (* [sync_playwright().start()] *)
  launch_raises : option exn;   (* [browser_type.launch(...)] *)
  stop_raises : option exn;     (* [playwright_instance.stop()] in the handler *)
  closed_raises : option exn    (* [new_context] on a browser that is not connected *)
}.

(** An outside world in which every call of the library succeeds. *)
Definition healthy_env : env :=
  {| start_raises := None; launch_raises := None; stop_raises := None;
     closed_raises := None |}.

(** The same, except that the library refuses to create a context on a
    browser that is not connected. *)
Definition strict_env : env :=
  {| start_raises := None; launch_raises := None; stop_raises := None;
     closed_raises := Some PlaywrightError |}.

(** A call of the manager runs on the state and either returns (a value or
    an exception, and the new state) or never returns: [None] is a thread
    blocked for ever on a lock. *)
Definition M (A : Type) : Type := state -> option (result A * state).

(** [with browser_lock: body].  [threading.Lock] is not reentrant:
    acquiring it while it is held blocks until some other thread releases
    it.  The lock is released when the block is left, also by an
    exception. *)
Definition with_browser_lock {A : Type} (body : M A) : M A := fun s =>
  if browser_lock s then None
  else
    match body (set_browser_lock true s) with
    | Some (r, s') => Some (r, set_browser_lock false s')
    | None => None
    end.

(** [browser_instance.is_connected()] *)
Definition is_connected (s : state) (b : handle) : bool := bool_decide (b ∈ connected s).

Definition init_playwright (e : env) : M unit := fun s =>
  match playwright_instance s with
  | None =>
      match start_raises e with
      | Some ex =>
          (* sync_playwright().start() raised: nothing was assigned *)
          Some (Raise ex, s)
      | None =>
          let (p, s1) := fresh s in
          let s2 := set_playwright_instance (Some p) s1 in
          match launch_raises e with
          | Some ex =>
              (* except: playwright_instance.stop(); playwright_instance = None; raise *)
              match stop_raises e with
              | Some ex' => Some (Raise ex', s2)
              | None => Some (Raise ex, set_playwright_instance None s2)
              end
          | None =>
              let (b, s3) := fresh s2 in
              Some (Ok tt,
                    set_browser_instance (Some b)
                      (set_connected ({[b]} ∪ connected s3) s3))
          end
      end
  | Some _ => Some (Ok tt, s)
  end.

(** Here [close()] and [stop()] may raise as well; the exception is logged
    and the [finally] clause clears the global either way. *)
Definition close_playwright : M unit :=
  with_browser_lock (fun s =>
    let s1 :=
      match browser_instance s with
      | Some b => set_browser_instance None (set_connected (connected s ∖ {[b]}) s)
      | None => s
      end in
    let s2 :=
      match playwright_instance s1 with
      | Some _ => set_playwright_instance None s1
      | None => s1
      end in
    Some (Ok tt, s2)).

(** A browsing context remembers the browser it was created from. *)
Record context : Type := { ctx_browser : handle }.

(** [browser_instance.new_context(...)]; on [None] the attribute lookup
    raises.  On a browser that is not connected the outcome is the
    library's: it raises when [closed_raises] says so, and otherwise hands
    out a context of that browser. *)
Definition new_context (e : env) (s : state) : result context :=
  match browser_instance s with
  | Some b =>
      if is_connected s b then Ok {| ctx_browser := b |}
      else
        match closed_raises e with
        | Some ex => Raise ex
        | None => Ok {| ctx_browser := b |}
        end
  | None => Raise AttributeError
  end.

Definition needs_init (s : state) : bool :=
  match browser_instance s with
  | None => true
  | Some b => negb (is_connected s b)
  end.

Definition get_browser_context (e : env) : M context :=
  with_browser_lock (fun s =>
    if needs_init s then
      match init_playwright e s with
      | Some (Ok _, s') => Some (new_context e s', s')
      | Some (Raise ex, s') => Some (Raise ex, s')
      | None => None
      end
    else Some (new_context e s, s)).

(** ** The health endpoint *)

Inductive component : Type :=
| ok
| error
| recovered
| failed (e : exn).

(** ['ok' if browser_instance and browser_instance.is_connected() else 'error'] *)
Definition playwright_component (s : state) : component :=
  match browser_instance s with
  | Some b => if is_connected s b then ok else error
  | None => error
  end.

Record health_status : Type := {
  status_healthy : bool;           (* status == 'healthy' (else 'degraded') *)
  playwright : component
}.

Definition health_check (e : env) : M (health_status * Z) := fun s =>
  match playwright_component s with
  | error =>
      match with_browser_lock
              (fun s1 =>
                 match close_playwright s1 with
                 | Some (Ok _, s2) => init_playwright e s2
                 | Some (Raise ex, s2) => Some (Raise ex, s2)
                 | None => None
                 end) s with
      | Some (Ok _, s') =>
          Some (Ok ({| status_healthy := true; playwright := recovered |}, 200), s')
      | Some (Raise ex, s') =>
          Some (Ok ({| status_healthy := false; playwright := failed ex |}, 500), s')
      | None => None
      end
  | c => Some (Ok ({| status_healthy := true; playwright := c |}, 200), s)
  end.

(** The browser process dies or is closed from outside: nothing in the
    program changes, [is_connected()] becomes false. *)
Definition disconnect (b : handle) (s : state) : state :=
  set_connected (connected s ∖ {[b]}) s.

(** The states the program can be in between two calls. *)
Inductive reachable : state -> Prop :=
| reach_initial : reachable initial
| reach_init e s r s' :
    reachable s -> init_playwright e s = Some (r, s') -> reachable s'
| reach_close s r s' :
    reachable s -> close_playwright s = Some (r, s') -> reachable s'
| reach_context e s r s' :
    reachable s -> get_browser_context e s = Some (r, s') -> reachable s'
| reach_health e s r s' :
    reachable s -> health_check e s = Some (r, s') -> reachable s'
| reach_disconnect b s :
    reachable s -> reachable (disconnect b s).

(** A browser is only ever held together with the runtime that launched
    it, and between two calls the lock is free. *)
Definition paired (s : state) : Prop :=
  is_Some (browser_instance s) -> is_Some (playwright_instance s).

Definition settled (s : state) : Prop :=
  browser_lock s = false /\ paired s.

(** A browser resource that reports disconnected: the singleton exists and
    [is_connected()] is false. *)
Definition disconnected (s : state) : Prop :=
  exists b, browser_instance s = Some b /\ is_connected s b = false.

End Resource.

(* ===================================================================== *)
(** * The query pipeline: [query_data]                                    *)
(* ===================================================================== *)

Module Pipeline.

(** What the remote page shows once the results region has appeared: the
    [text_content] of the four aggregate elements ([None] when the library
    returns [None]) and, for every [tr] of the results table, the
    [text_content] of its [td] cells. *)
Record page : Type := {
  total_count_text : option str;
  total_amount_text : option str;
  average_amount_text : option str;
  success_rate_text : option str;
  rows : list (list (option str))
}.

(** The remote site: for the four form values, the page it ends up
    showing, or the exception of a navigation, fill, click or wait step. *)
Definition site : Type := str -> str -> str -> str -> result page.

Record total_stats : Type := {
  total_count : Z;
  total_amount : PyNum.num;
  average_amount : PyNum.num;
  success_rate : PyNum.num
}.

(** One entry of [results]; [profit] is absent until the last loop of
    [query_data] adds the key. *)
Record record : Type := {
  id : str;
  date : str;
  amount : float;
  status : str;
  details : str;
  profit : option float
}.

Record query_info : Type := {
  project_id : str;
  uk_code : str;
  start_date : str;
  end_date : str;
  timestamp : str
}.

(** The dictionary [query_data] returns (its constant entry
    ['status': 'success'] is left out). *)
Record QueryResult : Type := {
  data : list record;
  stats : total_stats;
  info : query_info
}.

(** [then_(text) if text else else_] *)
Definition if_text {A : Type} (text : option str) (then_ : str -> A) (else_ : A) : A :=
  match text with
  | Some s => if truthy (Some s) then then_ s else else_
  | None => else_
  end.

(** [int(text.strip().replace(',', '')) if text else 0] *)
Definition parse_total_count (text : option str) : result Z :=
  if_text text (fun s => PyNum.int (replace comma [] (strip s))) (Ok 0).

(** [float(text.strip().replace(',', '').replace('¥', '')) if text else 0] *)
Definition parse_amount (text : option str) : result PyNum.num :=
  if_text text
    (fun s => f ← PyNum.float (replace yen [] (replace comma [] (strip s)));
              Ok (PyNum.Float f))
    (Ok (PyNum.Int 0)).

(** [float(text.strip().replace('%', '')) / 100 if text else 0] *)
Definition parse_success_rate (text : option str) : result PyNum.num :=
  if_text text
    (fun s => f ← PyNum.float (replace percent [] (strip s));
              Ok (PyNum.Float (f / 100)%float))
    (Ok (PyNum.Int 0)).

(** The dictionary display of [total_stats]: its four values are evaluated
    in order and the first exception escapes. *)
Definition parse_stats (pg : page) : result total_stats :=
  tc ← parse_total_count (total_count_text pg);
  ta ← parse_amount (total_amount_text pg);
  aa ← parse_amount (average_amount_text pg);
  sr ← parse_success_rate (success_rate_text pg);
  Ok {| total_count := tc; total_amount := ta; average_amount := aa; success_rate := sr |}.

(** [cells[i].text_content()] *)
Definition cell_text (cells : list (option str)) (i : nat) : result (option str) :=
  match cells !! i with
  | Some t => Ok t
  | None => Raise IndexError
  end.

(** [cells[i].text_content().strip()] *)
Definition cell_strip (cells : list (option str)) (i : nat) : result str :=
  t ← cell_text cells i;
  match t with
  | Some s => Ok (strip s)
  | None => Raise AttributeError
  end.

(** The dictionary built from one row (source lines 250-256). *)
Definition row_record (cells : list (option str)) : result record :=
  i ← cell_strip cells 0;
  d ← cell_strip cells 1;
  a_text ← cell_strip cells 2;
  a ← PyNum.float (replace yen [] (replace comma [] a_text));
  s ← cell_strip cells 3;
  de ← cell_strip cells 4;
  Ok {| id := i; date := d; amount := a; status := s; details := de; profit := None |}.

(** The loop over the rows (source lines 247-257). *)
Fixpoint extract_rows (rows : list (list (option str))) : result (list record) :=
  match rows with
  | [] => Ok []
  | cells :: rest =>
      if (5 <=? length cells)%nat then
        r ← row_record cells;
        rs ← extract_rows rest;
        Ok (r :: rs)
      else extract_rows rest
  end.

(** The profit of one record (source lines 270-275). *)
Definition profit_of (a : float) : float :=
  if (10000 <? a)%float then (a * config.PROFIT_COEFFICIENTS config.high_value)%float
  else if (a <? 1000)%float then (a * config.PROFIT_COEFFICIENTS config.low_value)%float
  else (a * config.PROFIT_COEFFICIENTS config.default)%float.

Definition apply_profit (r : record) : record :=
  {| id := id r; date := date r; amount := amount r; status := status r;
     details := details r; profit := Some (profit_of (amount r)) |}.

(** Everything [query_data] does with the page once it is shown. *)
Definition extract (pg : page) : result (total_stats * list record) :=
  st ← parse_stats pg;
  rs ← extract_rows (rows pg);
  Ok (st, rs).

(** What a field of the stats is, given the text of its element: the
    default when the text is missing or empty, else what the coercion of
    the text returns. *)
Definition field_is {A : Type} (text : option str) (coerce : str -> result A)
    (zero : A) (v : A) : Prop :=
  (truthy text = false -> v = zero) /\
  (forall s, text = Some s -> truthy text = true -> coerce s = Ok v).

(** The three coercions of [parse_stats], as the code strips the text. *)
Definition coerce_count (s : str) : result Z :=
  PyNum.int (replace comma [] (strip s)).

Definition coerce_amount (s : str) : result PyNum.num :=
  f ← PyNum.float (replace yen [] (replace comma [] (strip s))); Ok (PyNum.Float f).

Definition coerce_rate (s : str) : result PyNum.num :=
  f ← PyNum.float (replace percent [] (strip s)); Ok (PyNum.Float (f / 100)%float).

(** Some text of the page is there and is refused by its coercion: one of
    the four aggregate texts, or the amount cell of a row of five cells or
    more. *)
Definition coercion_fails (pg : page) : Prop :=
  (exists s, total_count_text pg = Some s /\ s <> [] /\
     PyNum.int (replace comma [] (strip s)) = Raise ValueError) \/
  (exists s, total_amount_text pg = Some s /\ s <> [] /\
     PyNum.float (replace yen [] (replace comma [] (strip s))) = Raise ValueError) \/
  (exists s, average_amount_text pg = Some s /\ s <> [] /\
     PyNum.float (replace yen [] (replace comma [] (strip s))) = Raise ValueError) \/
  (exists s, success_rate_text pg = Some s /\ s <> [] /\
     PyNum.float (replace percent [] (strip s)) = Raise ValueError) \/
  (exists cells a, cells ∈ rows pg /\ (5 <= length cells)%nat /\
     cells !! 2%nat = Some (Some a) /\
     PyNum.float (replace yen [] (replace comma [] (strip a))) = Raise ValueError).

(** [query_data(project_id, uk_code, start_date, end_date)], undecorated:
    obtain a context, drive the remote form, extract, derive the profits.
    Every exception escapes ([except Exception: ...; raise]); [now] is the
    text of [datetime.now().isoformat()]. *)
Definition query_data (e : Resource.env) (remote : site) (now : str)
    (project_id uk_code start_date end_date : str) : Resource.M QueryResult := fun s =>
  match Resource.get_browser_context e s with
  | None => None
  | Some (Raise ex, s') => Some (Raise ex, s')
  | Some (Ok _, s') =>
      Some (pg ← remote project_id uk_code start_date end_date;
            '(st, results) ← extract pg;
            Ok {| data := map apply_profit results;
                  stats := st;
                  info := {| project_id := project_id; uk_code := uk_code;
                             start_date := start_date; end_date := end_date;
                             timestamp := now |} |},
            s')
  end.

End Pipeline.

(* ===================================================================== *)
(** * The result cache: the [cache_result] decorator                      *)
(* ===================================================================== *)

Module Cache.

Section Wrapper.

(** The type of the cached values, and the state the decorated function
    runs on (for [query_data], [Pipeline.QueryResult] and
    [Resource.state]). *)
Context {V S : Type}.

(** [query_cache]: cache key -> (result, timestamp).  Readings of
    [time.time()] are exact numbers of clock ticks. *)
#[local] Abbreviation table := (gmap str (V * Z)).

(** The guard of the first critical section (source lines 135-139): the
    cached result when the key is present and younger than [timeout]. *)
Definition fresh_entry (timeout : Z) (cache_key : str) (now : Z) (query_cache : table)
    : option V :=
  match query_cache !! cache_key with
  | Some (result, timestamp) =>
      if bool_decide (now - timestamp < timeout) then Some result else None
  | None => None
  end.

(** [current_time - t > timeout], the test that selects [expired_keys]. *)
Definition expired (timeout current_time : Z) (entry : str * (V * Z)) : Prop :=
  current_time - entry.2.2 > timeout.

#[global] Instance expired_dec timeout current_time entry :
  Decision (expired timeout current_time entry).
Proof. unfold expired. apply _. Defined.

(** The purge loop (source lines 149-152): every expired key is deleted. *)
Definition purge (timeout current_time : Z) (query_cache : table) : table :=
  filter (fun entry => ¬ expired timeout current_time entry) query_cache.

(** The second critical section (source lines 146-152): the store, then
    the purge. *)
Definition store (timeout : Z) (cache_key : str) (result : V) (t_store current_time : Z)
    (query_cache : table) : table :=
  purge timeout current_time (<[cache_key := (result, t_store)]> query_cache).

(** The three readings of the clock one call may take, in program order:
    in the guard (taken only when the key is present), for the stored
    timestamp, and for the purge. *)
Record clock : Type := { t_check : Z; t_store : Z; t_purge : Z }.

(** The decorator's [wrapper] from the point where [cache_key] is known
    (the key is the text [f"{func.__name__}:{str(args)}:{str(kwargs)}"]).
    With one caller at a time [cache_lock] is always free; the interleaving
    of two callers is the subject of [Concurrent] below.  [None]: the
    function never returns. *)
Definition wrapper (timeout : Z) (func : S -> option (result V * S)) (cache_key : str)
    (clk : clock) (query_cache : table) (s : S)
    : option (result V * table * S) :=
  match fresh_entry timeout cache_key (t_check clk) query_cache with
  | Some result => Some (Ok result, query_cache, s)
  | None =>
      match func s with
      | None => None
      | Some (Raise ex, s') => Some (Raise ex, query_cache, s')
      | Some (Ok result, s') =>
          Some (Ok result,
                store timeout cache_key result (t_store clk) (t_purge clk) query_cache,
                s')
      end
  end.

(** A fetch function instrumented with a call counter: it returns [v]
    and counts the call. *)
Definition counting (v : V) (calls : nat) : option (result V * nat) :=
  Some (Ok v, Datatypes.S calls).

End Wrapper.

(** [query_data] as decorated by [@cache_result(timeout=...)]. *)
Definition query_data (e : Resource.env) (remote : Pipeline.site) (now : str)
    (project_id uk_code start_date end_date : str) (cache_key : str) (clk : clock)
    (query_cache : gmap str (Pipeline.QueryResult * Z)) (s : Resource.state)
    : option (result Pipeline.QueryResult * gmap str (Pipeline.QueryResult * Z) * Resource.state) :=
  wrapper config.CACHE_timeout
    (Pipeline.query_data e remote now project_id uk_code start_date end_date)
    cache_key clk query_cache s.

End Cache.

(* ===================================================================== *)
(** * Two callers of the cached function at once                          *)
(* ===================================================================== *)

Module Concurrent.

(** The two request threads. *)
Inductive tid : Type := A | B.

#[global] Instance tid_eq_dec : EqDecision tid.
Proof. solve_decision. Defined.

Section Threads.

Context {V : Type}.

(** Where a caller is inside [wrapper]. *)
Inductive pc : Type :=
| Start                  (* about to enter the first [with cache_lock] *)
| Checking               (* holds the lock, about to run the guard *)
| Hit (v : V)            (* has returned the cached result *)
| Missed                 (* has left the first block, about to call [func] *)
| Computed (v : V)       (* [func] has returned, about to enter the second block *)
| Storing (v : V)        (* holds the lock, about to store *)
| Purging (v : V)        (* holds the lock, has stored, about to purge *)
| Returned (v : V)       (* has returned the computed result *)
| Failed (e : exn).      (* [func] has raised, the exception has escaped *)

(** The shared globals [query_cache] and [cache_lock], the clock, the
    number of calls of [func] so far and the two callers. *)
Record config : Type := {
  query_cache : gmap str (V * Z);
  cache_lock : option tid;
  now : Z;
  fetches : nat;
  pc_a : pc;
  pc_b : pc
}.

Definition pc_of (t : tid) (c : config) : pc :=
  match t with A => pc_a c | B => pc_b c end.

Definition set_pc (t : tid) (p : pc) (c : config) : config :=
  let 'Build_config m l n f pa pb := c in
  match t with
  | A => Build_config m l n f p pb
  | B => Build_config m l n f pa p
  end.

Definition set_lock (l : option tid) (c : config) : config :=
  let 'Build_config m _ n f pa pb := c in Build_config m l n f pa pb.

Definition set_cache (m : gmap str (V * Z)) (c : config) : config :=
  let 'Build_config _ l n f pa pb := c in Build_config m l n f pa pb.

Definition count_fetch (c : config) : config :=
  let 'Build_config m l n f pa pb := c in Build_config m l n (S f) pa pb.

Definition advance (d : N) (c : config) : config :=
  let 'Build_config m l n f pa pb := c in Build_config m l (n + Z.of_N d) f pa pb.

(** Both callers were given the same arguments, hence the same key; the
    fetch function is a stub whose n-th call has a fixed outcome. *)
Variable timeout : Z.
Variable cache_key : str.
Variable func : nat -> result V.

(** One step of caller [t]; [None] when [t] cannot move (it waits for the
    lock, or it has finished). *)
Definition step (t : tid) (c : config) : option config :=
  match pc_of t c with
  | Start =>
      match cache_lock c with
      | None => Some (set_pc t Checking (set_lock (Some t) c))
      | Some _ => None
      end
  | Checking =>
      match Cache.fresh_entry timeout cache_key (now c) (query_cache c) with
      | Some v => Some (set_pc t (Hit v) (set_lock None c))
      | None => Some (set_pc t Missed (set_lock None c))
      end
  | Missed =>
      match func (fetches c) with
      | Ok v => Some (set_pc t (Computed v) (count_fetch c))
      | Raise e => Some (set_pc t (Failed e) (count_fetch c))
      end
  | Computed v =>
      match cache_lock c with
      | None => Some (set_pc t (Storing v) (set_lock (Some t) c))
      | Some _ => None
      end
  | Storing v =>
      Some (set_pc t (Purging v)
              (set_cache (<[cache_key := (v, now c)]> (query_cache c)) c))
  | Purging v =>
      Some (set_pc t (Returned v)
              (set_lock None
                 (set_cache (Cache.purge timeout (now c) (query_cache c)) c)))
  | Hit _ | Returned _ | Failed _ => None
  end.

(** What the scheduler and the clock do next. *)
Inductive event : Type :=
| Run (t : tid)
| Tick (d : N).

Fixpoint exec (es : list event) (c : config) : option config :=
  match es with
  | [] => Some c
  | Run t :: es' =>
      match step t c with
      | Some c' => exec es' c'
      | None => None
      end
  | Tick d :: es' => exec es' (advance d c)
  end.

(** Both calls are made, neither has started. *)
Definition start (m : gmap str (V * Z)) (t0 : Z) : config :=
  {| query_cache := m; cache_lock := None; now := t0; fetches := 0%nat;
     pc_a := Start; pc_b := Start |}.

Definition finished (p : pc) : bool :=
  match p with
  | Hit _ | Returned _ | Failed _ => true
  | _ => false
  end.

(** The caller saw no valid entry in its guard. *)
Definition missed (p : pc) : bool :=
  match p with
  | Missed | Computed _ | Storing _ | Purging _ | Returned _ | Failed _ => true
  | _ => false
  end.

(** The caller has called [func]. *)
Definition fetched (p : pc) : nat :=
  match p with
  | Computed _ | Storing _ | Purging _ | Returned _ | Failed _ => 1
  | _ => 0
  end.

(** What a caller that has finished has returned or raised. *)
Definition outcome (p : pc) : option (result V) :=
  match p with
  | Hit v | Returned v => Some (Ok v)
  | Failed e => Some (Raise e)
  | _ => None
  end.

(** Both callers run their guard before either goes on. *)
Definition overlap : list event := [Run A; Run A; Run B; Run B].

(** The steps a caller that missed has left: the call of [func] and, when
    it returns, the second critical section. *)
Definition finish_call (t : tid) (outcome : result V) : list event :=
  match outcome with
  | Ok _ => [Run t; Run t; Run t; Run t]
  | Raise _ => [Run t]
  end.

(** The counter of fetches follows the callers: it is the number of
    callers that have gone past the call of [func]. *)
Definition fetches_accounted (c : config) : Prop :=
  fetches c = (fetched (pc_a c) + fetched (pc_b c))%nat.

Definition both_missed (c : config) : Prop :=
  missed (pc_a c) = true /\ missed (pc_b c) = true.

End Threads.

End Concurrent.

(* ===================================================================== *)
(** * The query endpoint: [validate_api_key] and [api_query]              *)
(* ===================================================================== *)

Module Api.

#[local] Set Warnings "-register-all".

(** A value of a decoded JSON document ([request.get_json()]). *)
Inductive pyval : Type :=
| VNone
| VBool (b : bool)
| VInt (z : Z)
| VFloat (f : float)
| VStr (s : str)
| VList (l : list pyval)
| VDict (d : gmap str pyval).

(** Truth value ([not data], [all([...])]). *)
Definition truth (v : pyval) : bool :=
  match v with
  | VNone => false
  | VBool b => b
  | VInt z => negb (z =? 0)
  | VFloat f => negb (f =? 0)%float
  | VStr s => truthy (Some s)
  | VList l => negb (bool_decide (length l = 0%nat))
  | VDict d => negb (bool_decide (size d = 0%nat))
  end.

(** [v == s] for a string [s]: only an equal string is equal to it. *)
Definition eq_str (v : pyval) (s : str) : bool :=
  match v with
  | VStr s' => bool_decide (s' = s)
  | _ => false
  end.

(** [data.get(key, default)] *)
Definition get (data : gmap str pyval) (key : str) (default : pyval) : pyval :=
  match data !! key with
  | Some v => v
  | None => default
  end.

Definition validate_api_key (cfg : config.t) (auth_key app_id : pyval) : bool :=
  eq_str auth_key (config.DEFAULT_AUTH_KEY cfg) && eq_str app_id (config.DEFAULT_APP_ID cfg).

Inductive response : Type :=
| invalid_request
| missing_parameters
| unauthorized
| success (r : Pipeline.QueryResult)
| query_failed (e : exn)
| timeout (e : exn)
| server_error (e : exn).

Definition status_code (r : response) : Z :=
  match r with
  | invalid_request | missing_parameters => 400
  | unauthorized => 401
  | success _ => 200
  | timeout _ => 408
  | query_failed _ | server_error _ => 500
  end.

(** The body of [api_query]; [query] is the decorated [query_data] as the
    handler sees it, the outcome of a call with the four values. *)
Definition api_query (cfg : config.t)
    (query : pyval -> pyval -> pyval -> pyval -> result Pipeline.QueryResult)
    (data : pyval) : result response :=
  if negb (truth data) then Ok invalid_request
  else
    match data with
    | VDict d =>
        let project_id := get d (lit "project_id") VNone in
        let uk_code := get d (lit "uk_code") VNone in
        let start_date := get d (lit "start_date") VNone in
        let end_date := get d (lit "end_date") VNone in
        let auth_key := get d (lit "auth_key") (VStr (config.DEFAULT_AUTH_KEY cfg)) in
        let app_id := get d (lit "app_id") (VStr (config.DEFAULT_APP_ID cfg)) in
        if negb (forallb truth [project_id; uk_code; start_date; end_date])
        then Ok missing_parameters
        else if negb (validate_api_key cfg auth_key app_id) then Ok unauthorized
        else
          match query project_id uk_code start_date end_date with
          | Ok r => Ok (success r)
          | Raise e => Ok (query_failed e)
          end
    | _ => Raise AttributeError
    end.

(** The [error_handler] decorator around it. *)
Definition error_handler (r : result response) : response :=
  match r with
  | Ok resp => resp
  | Raise PlaywrightTimeoutError => timeout PlaywrightTimeoutError
  | Raise e => server_error e
  end.

End Api.

(* ===================================================================== *)
(** * The aggregate rule in the words of the specification                *)
(* ===================================================================== *)

Module Claimed.

(** "Stripping thousands separators and currency symbols": one rule for
    every numeric text, to be compared with what [Pipeline.parse_stats]
    does field by field. *)
Definition strip_separators (s : str) : str :=
  replace yen [] (replace comma [] (strip s)).

(** "Coerce to numeric types; a missing/empty field yields a zero/default
    value": the count as an integer, the other three as decimals. *)
Definition parse_count (text : option str) : result Z :=
  Pipeline.if_text text (fun s => PyNum.int (strip_separators s)) (Ok 0).

Definition parse_decimal (text : option str) : result PyNum.num :=
  Pipeline.if_text text
    (fun s => f ← PyNum.float (strip_separators s); Ok (PyNum.Float f))
    (Ok (PyNum.Int 0)).

(** "Not numeric after stripping commas and the currency symbol". *)
Definition not_numeric (s : str) : Prop :=
  PyNum.float (strip_separators s) = Raise ValueError.

End Claimed.

(* ===================================================================== *)
(** * Concrete pages, states and caches                                   *)
(* ===================================================================== *)

Module Scenario.

Definition cells (texts : list string) : list (option str) :=
  map (fun t => Some (lit t)) texts.

(** The remote page of the end-to-end scenario: records of 12000 and 300,
    between them a ragged row of four cells, and a sixth cell on the last
    row. *)
Definition page_ok : Pipeline.page :=
  {| Pipeline.total_count_text := Some (lit "2");
     Pipeline.total_amount_text := Some (yen :: lit "12,300.00");
     Pipeline.average_amount_text := Some (yen :: lit " 6,150.00");
     Pipeline.success_rate_text := Some (lit "50%");
     Pipeline.rows :=
       [ cells ["R1"; "2024-01-05"; "12,000"; "paid"; "first"];
         cells ["R2"; "2024-01-06"; "77"; "void"];
         cells ["R3"; "2024-01-07"; " 300 "; "paid"; "third"; "extra"] ] |}%string.

Definition with_total_count (t : option str) (pg : Pipeline.page) : Pipeline.page :=
  {| Pipeline.total_count_text := t;
     Pipeline.total_amount_text := Pipeline.total_amount_text pg;
     Pipeline.average_amount_text := Pipeline.average_amount_text pg;
     Pipeline.success_rate_text := Pipeline.success_rate_text pg;
     Pipeline.rows := Pipeline.rows pg |}.

Definition with_success_rate (t : option str) (pg : Pipeline.page) : Pipeline.page :=
  {| Pipeline.total_count_text := Pipeline.total_count_text pg;
     Pipeline.total_amount_text := Pipeline.total_amount_text pg;
     Pipeline.average_amount_text := Pipeline.average_amount_text pg;
     Pipeline.success_rate_text := t;
     Pipeline.rows := Pipeline.rows pg |}.

Definition with_rows (r : list (list (option str))) (pg : Pipeline.page) : Pipeline.page :=
  {| Pipeline.total_count_text := Pipeline.total_count_text pg;
     Pipeline.total_amount_text := Pipeline.total_amount_text pg;
     Pipeline.average_amount_text := Pipeline.average_amount_text pg;
     Pipeline.success_rate_text := Pipeline.success_rate_text pg;
     Pipeline.rows := r |}.

(** The count written with a currency symbol. *)
Definition page_currency_count : Pipeline.page :=
  with_total_count (Some (yen :: lit "5")) page_ok.

(** The rate written with a thousands separator. *)
Definition page_comma_rate : Pipeline.page :=
  with_success_rate (Some (lit "1,000")) page_ok.

(** A negative count and a rate above one hundred percent. *)
Definition page_out_of_range : Pipeline.page :=
  with_total_count (Some (lit "-5")) (with_success_rate (Some (lit "150%")) page_ok).

(** No aggregate text at all: two elements without text, two empty. *)
Definition page_no_aggregates : Pipeline.page :=
  {| Pipeline.total_count_text := None;
     Pipeline.total_amount_text := Some [];
     Pipeline.average_amount_text := None;
     Pipeline.success_rate_text := Some [];
     Pipeline.rows := Pipeline.rows page_ok |}.

(** A row of five cells whose amount is not a number. *)
Definition page_bad_amount : Pipeline.page :=
  with_rows [ cells ["R1"; "2024-01-05"; "n/a"; "paid"; "first"] ]%string page_ok.

Definition site_of (pg : Pipeline.page) : Pipeline.site := fun _ _ _ _ => Ok pg.

(** [query_data("P1", "UK9", "2024-01-01", "2024-01-31")] in a process
    that has not yet started a browser, against a site showing [pg]. *)
Definition run (pg : Pipeline.page) : option (result Pipeline.QueryResult * Resource.state) :=
  Pipeline.query_data Resource.healthy_env (site_of pg) (lit "2024-02-01T09:00:00")
    (lit "P1") (lit "UK9") (lit "2024-01-01") (lit "2024-01-31") Resource.initial.

(** The state after a successful [init_playwright] (runtime 0, browser 1),
    and the same after the browser has gone away. *)
Definition launched : Resource.state :=
  match Resource.init_playwright Resource.healthy_env Resource.initial with
  | Some (_, s) => s
  | None => Resource.initial
  end.

Definition crashed : Resource.state := Resource.disconnect 1%nat launched.

(** A cache of two entries, stored at times 1000 and 0, under the keys
    of two different queries (keys are shortened to the project id). *)
Definition k1 : str := lit "P1".
Definition k2 : str := lit "P2".

Definition two_entries : gmap str (nat * Z) :=
  <[k1 := (11%nat, 1000)]> (<[k2 := (22%nat, 0)]> ∅).

Definition one_entry : gmap str (nat * Z) := <[k2 := (22%nat, 0)]> ∅.

Definition clock_at (t : Z) : Cache.clock :=
  {| Cache.t_check := t; Cache.t_store := t; Cache.t_purge := t |}.

End Scenario.

(* ===================================================================== *)
(** * Further code of app_v3.py                                           *)
(* ===================================================================== *)

(** ** Successive calls of a decorated function by one caller *)

Module Calls.

Section Calls.

Context {V S : Type}.

(** One call of [wrapper] after the other, each with its own readings of
    the clock, on the cache and the state the previous one left. *)
Fixpoint repeat_calls (timeout : Z) (func : S -> option (result V * S)) (cache_key : str)
    (clks : list Cache.clock) (query_cache : gmap str (V * Z)) (s : S)
    : option (list (result V) * gmap str (V * Z) * S) :=
  match clks with
  | [] => Some ([], query_cache, s)
  | clk :: rest =>
      match Cache.wrapper timeout func cache_key clk query_cache s with
      | None => None
      | Some (r, cache', s') =>
          match repeat_calls timeout func cache_key rest cache' s' with
          | None => None
          | Some (rs, cache'', s'') => Some (r :: rs, cache'', s'')
          end
      end
  end.

End Calls.

End Calls.

(** ** The lock of the cache *)

Module Locking.

Section Locking.

Context {V : Type}.

(** The caller is inside a [with cache_lock] block. *)
Definition critical (p : Concurrent.pc (V:=V)) : bool :=
  match p with
  | Concurrent.Checking | Concurrent.Storing _ | Concurrent.Purging _ => true
  | _ => false
  end.

(** [cache_lock] is held by a caller exactly while that caller is inside
    one of its two blocks, and by nobody otherwise. *)
Definition lock_matches (c : Concurrent.config (V:=V)) : Prop :=
  match Concurrent.cache_lock c with
  | None =>
      critical (Concurrent.pc_a c) = false /\ critical (Concurrent.pc_b c) = false
  | Some Concurrent.A =>
      critical (Concurrent.pc_a c) = true /\ critical (Concurrent.pc_b c) = false
  | Some Concurrent.B =>
      critical (Concurrent.pc_a c) = false /\ critical (Concurrent.pc_b c) = true
  end.

(** An upper bound on the steps a caller has left. *)
Definition steps_left (p : Concurrent.pc (V:=V)) : nat :=
  match p with
  | Concurrent.Start => 6
  | Concurrent.Checking => 5
  | Concurrent.Missed => 4
  | Concurrent.Computed _ => 3
  | Concurrent.Storing _ => 2
  | Concurrent.Purging _ => 1
  | Concurrent.Hit _ | Concurrent.Returned _ | Concurrent.Failed _ => 0
  end.

(** The number of steps taken by the callers in a run. *)
Fixpoint runs (es : list Concurrent.event) : nat :=
  match es with
  | [] => 0
  | Concurrent.Run _ :: es' => S (runs es')
  | Concurrent.Tick _ :: es' => runs es'
  end.

End Locking.

End Locking.

(** ** Who gets through to the query *)

Module Gate.

(** The request passes the three checks of [api_query]: a non-empty
    object, four truthy values, and credentials (given or defaulted) that
    [validate_api_key] accepts. *)
Definition admitted (cfg : config.t) (data : Api.pyval) : bool :=
  match data with
  | Api.VDict d =>
      Api.truth data
      && forallb Api.truth
           [Api.get d (lit "project_id") Api.VNone; Api.get d (lit "uk_code") Api.VNone;
            Api.get d (lit "start_date") Api.VNone; Api.get d (lit "end_date") Api.VNone]
      && Api.validate_api_key cfg
           (Api.get d (lit "auth_key") (Api.VStr (config.DEFAULT_AUTH_KEY cfg)))
           (Api.get d (lit "app_id") (Api.VStr (config.DEFAULT_APP_ID cfg)))
  | _ => false
  end.

(** The response carries the outcome of a call of the query. *)
Definition from_query (r : Api.response) : bool :=
  match r with
  | Api.success _ | Api.query_failed _ => true
  | _ => false
  end.

End Gate.

(** ** The main block *)

Module Main.

(** [int(os.environ.get('PORT', 5000))] *)
Definition port (environ : gmap str str) : result Z :=
  match environ !! lit "PORT" with
  | Some text => PyNum.int text
  | None => Ok 5000
  end.

(** The block under [if __name__ == '__main__'] (source lines 414-430):
    [init_playwright()], then [app.run(...)] on the port read from the
    environment; an exception of either is logged; [cleanup()] runs in the
    [finally] clause.  [serve] is the server loop: what the requests it
    handles until it stops do to the globals. *)
Definition main (e : Resource.env) (environ : gmap str str)
    (serve : Z -> Resource.M unit) : Resource.M unit := fun s =>
  match Resource.init_playwright e s with
  | None => None
  | Some (Raise _, s1) => Resource.close_playwright s1
  | Some (Ok _, s1) =>
      match port environ with
      | Raise _ => Resource.close_playwright s1
      | Ok p =>
          match serve p s1 with
          | None => None
          | Some (_, s2) => Resource.close_playwright s2
          end
      end
  end.

End Main.

(* ===================================================================== *)
(** * config_v3.py when it is imported                                    *)
(* ===================================================================== *)

Module ConfigLoad.

(** The values of the configuration dictionaries. *)
Inductive cval : Type :=
| CInt (z : Z)
| CBool (b : bool)
| CStr (s : str)
| CNone
| CViewport (width height : Z).

#[global] Instance cval_eq_dec : EqDecision cval.
Proof. solve_decision. Defined.

#[global] Instance cval_inhabited : Inhabited cval := populate CNone.

(** [d[k] = v] for each item in turn (a loop of assignments, or a
    dictionary display evaluated left to right). *)
Definition assign_all (items : list (str * cval)) (d : gmap str cval) : gmap str cval :=
  foldl (fun acc kv => <[kv.1 := kv.2]> acc) d items.

Definition display (items : list (str * cval)) : gmap str cval := assign_all items ∅.

(** What the module reads from the machine and the environment while it is
    imported: [multiprocessing.cpu_count()], [get_system_memory_gb()], the
    variable [FLASK_ENV] and the text of [TEMP_DIR / 'downloads']. *)
Record machine : Type := {
  cpu_count : Z;
  memory_gb : float;
  FLASK_ENV : option str;
  downloads_path : str
}.

Definition IS_LOW_SPEC (m : machine) : bool :=
  (cpu_count m <=? 1) || (memory_gb m <? 4)%float.

(** The dictionaries as they are first built (source lines 120-155 and
    274-280).  [d !!! k] is [d[k]]; the keys read are keys of the display
    they are read from. *)
Definition PERFORMANCE_0 (m : machine) : gmap str cval :=
  display
    [(lit "max_workers", CInt (if IS_LOW_SPEC m then 1 else Z.min 4 (cpu_count m)));
     (lit "request_timeout", CInt 60);
     (lit "cache_timeout", CInt 300);
     (lit "max_retries", CInt 3);
     (lit "connection_pool_size", CInt (if IS_LOW_SPEC m then 10 else 20));
     (lit "low_spec_mode", CBool (IS_LOW_SPEC m))].

Definition user_agent : str :=
  lit "Mozilla/5.0 (Windows NT 10.0; Win64; x64) AppleWebKit/537.36 (KHTML, like Gecko) Chrome/91.0.4472.124 Safari/537.36".

Definition BROWSER_CONFIG_0 (m : machine) : gmap str cval :=
  display
    [(lit "browser_type", CStr (lit "chromium"));
     (lit "headless", CBool true);
     (lit "slow_mo", CInt (if IS_LOW_SPEC m then 50 else 0));
     (lit "timeout", CInt 30000);
     (lit "viewport", CViewport 1280 720);
     (lit "ignore_https_errors", CBool true);
     (lit "java_script_enabled", CBool true);
     (lit "user_agent", CStr user_agent)].

Definition PLAYWRIGHT_CONFIG_0 (m : machine) : gmap str cval :=
  let b := BROWSER_CONFIG_0 m in
  display
    [(lit "browser_type", b !!! lit "browser_type");
     (lit "headless", b !!! lit "headless");
     (lit "slow_mo", b !!! lit "slow_mo");
     (lit "timeout", b !!! lit "timeout");
     (lit "viewport", b !!! lit "viewport");
     (lit "ignore_https_errors", b !!! lit "ignore_https_errors");
     (lit "java_script_enabled", b !!! lit "java_script_enabled");
     (lit "user_agent", b !!! lit "user_agent");
     (lit "downloads_path", CStr (downloads_path m));
     (lit "proxy", CNone)].

Definition CACHE_CONFIG (m : machine) : gmap str cval :=
  display
    [(lit "type", CStr (lit "simple"));
     (lit "timeout", PERFORMANCE_0 m !!! lit "cache_timeout");
     (lit "threshold", CInt 500);
     (lit "key_prefix", CStr (lit "flask_cache_"));
     (lit "redis_url", CStr (lit "redis://localhost:6379/0"))].

(** One entry of [ENV_CONFIGS]. *)
Record env_config : Type := {
  DEBUG : bool;
  TESTING : bool;
  BROWSER_overrides : list (str * cval);
  PERFORMANCE_overrides : list (str * cval);
  LOGGING_LEVEL : str
}.

Definition development : env_config :=
  {| DEBUG := true; TESTING := false;
     BROWSER_overrides := [(lit "headless", CBool false); (lit "slow_mo", CInt 100)];
     PERFORMANCE_overrides := [(lit "max_workers", CInt 1); (lit "cache_timeout", CInt 60)];
     LOGGING_LEVEL := lit "DEBUG" |}.

Definition testing : env_config :=
  {| DEBUG := false; TESTING := true;
     BROWSER_overrides := [(lit "headless", CBool true); (lit "slow_mo", CInt 0)];
     PERFORMANCE_overrides := [(lit "max_workers", CInt 1); (lit "cache_timeout", CInt 0)];
     LOGGING_LEVEL := lit "INFO" |}.

Definition production (m : machine) : env_config :=
  {| DEBUG := false; TESTING := false;
     BROWSER_overrides := [(lit "headless", CBool true); (lit "slow_mo", CInt 0)];
     PERFORMANCE_overrides :=
       [(lit "max_workers", PERFORMANCE_0 m !!! lit "max_workers");
        (lit "cache_timeout", PERFORMANCE_0 m !!! lit "cache_timeout")];
     LOGGING_LEVEL := lit "WARNING" |}.

Definition ENV_CONFIGS (m : machine) : gmap str env_config :=
  <[lit "production" := production m]>
    (<[lit "testing" := testing]> (<[lit "development" := development]> ∅)).

(** [os.environ.get('FLASK_ENV', 'production')] *)
Definition ENV (m : machine) : str :=
  match FLASK_ENV m with
  | Some name => name
  | None => lit "production"
  end.

(** [ENV_CONFIGS.get(ENV, ENV_CONFIGS['production'])] *)
Definition CURRENT_ENV_CONFIG (m : machine) : env_config :=
  match ENV_CONFIGS m !! ENV m with
  | Some c => c
  | None => production m
  end.

(** The dictionaries once the module is imported: outside production the
    overrides of the current environment are written into them (source
    lines 330-338). *)
Definition overridden (m : machine) : bool := negb (bool_decide (ENV m = lit "production")).

Definition BROWSER_CONFIG (m : machine) : gmap str cval :=
  if overridden m
  then assign_all (BROWSER_overrides (CURRENT_ENV_CONFIG m)) (BROWSER_CONFIG_0 m)
  else BROWSER_CONFIG_0 m.

Definition PLAYWRIGHT_CONFIG (m : machine) : gmap str cval :=
  if overridden m
  then assign_all (BROWSER_overrides (CURRENT_ENV_CONFIG m)) (PLAYWRIGHT_CONFIG_0 m)
  else PLAYWRIGHT_CONFIG_0 m.

Definition PERFORMANCE (m : machine) : gmap str cval :=
  if overridden m
  then assign_all (PERFORMANCE_overrides (CURRENT_ENV_CONFIG m)) (PERFORMANCE_0 m)
  else PERFORMANCE_0 m.

End ConfigLoad.

(* ===================================================================== *)
(** * start_app_v3.py                                                     *)
(* ===================================================================== *)

Module Launcher.

(** [str(n)] for an integer. *)
Definition str_of_int (n : Z) : str := lit (DecimalString.NilZero.string_of_int (Z.to_int n)).

Definition DEFAULT_PORT : Z := 5000.
Definition DEFAULT_HOST : str := lit "0.0.0.0".

(** The entries of [system_info] that [set_environment_variables] reads. *)
Record system_info : Type := {
  cpu_count : Z;
  available_memory_gb : float;
  is_docker : bool
}.

(** The number of workers (source lines 104-114). *)
Definition workers (HAS_PSUTIL : bool) (info : system_info) : Z :=
  let w :=
    if cpu_count info <=? 1 then 1
    else if cpu_count info <=? 4 then cpu_count info
    else cpu_count info * 2 in
  if HAS_PSUTIL && (available_memory_gb info <? 2.0)%float then Z.min w 2 else w.

Definition low_memory (HAS_PSUTIL : bool) (info : system_info) : bool :=
  HAS_PSUTIL && (available_memory_gb info <? 1.5)%float.

Definition assign_all (items : list (str * str)) (d : gmap str str) : gmap str str :=
  foldl (fun acc kv => <[kv.1 := kv.2]> acc) d items.

(** [set_environment_variables(system_info)]; [environ] is [os.environ],
    which is only asked whether it has ['ENVIRONMENT']. *)
Definition set_environment_variables (HAS_PSUTIL : bool) (environ : gmap str str)
    (info : system_info) : gmap str str :=
  let env_vars :=
    assign_all
      [(lit "GUNICORN_WORKERS", str_of_int (workers HAS_PSUTIL info));
       (lit "GUNICORN_THREADS", str_of_int 2);
       (lit "GUNICORN_TIMEOUT", str_of_int 120)] ∅ in
  let env_vars :=
    if low_memory HAS_PSUTIL info then
      assign_all
        [(lit "PLAYWRIGHT_HEADLESS", lit "true");
         (lit "CHROME_DISABLE_GPU", lit "true");
         (lit "CHROME_DISABLE_EXTENSIONS", lit "true");
         (lit "CHROME_NO_SANDBOX", lit "true");
         (lit "CHROME_DISABLE_DEV_SHM", lit "true");
         (lit "LOW_MEMORY_MODE", lit "true")] env_vars
    else env_vars in
  let env_vars :=
    if HAS_PSUTIL && (4.0 <? available_memory_gb info)%float then
      assign_all [(lit "CACHE_SIZE", lit "1000"); (lit "CACHE_TIMEOUT", lit "3600")] env_vars
    else
      assign_all [(lit "CACHE_SIZE", lit "100"); (lit "CACHE_TIMEOUT", lit "1800")] env_vars in
  let env_vars :=
    assign_all
      [(lit "LOG_LEVEL", lit "INFO");
       (lit "PORT", str_of_int DEFAULT_PORT);
       (lit "HOST", DEFAULT_HOST)] env_vars in
  match environ !! lit "ENVIRONMENT" with
  | Some _ => env_vars
  | None =>
      <[lit "ENVIRONMENT" := if is_docker info then lit "production" else lit "development"]>
        env_vars
  end.

(** [os.environ.update(env_vars)] *)
Definition update (env_vars environ : gmap str str) : gmap str str := env_vars ∪ environ.

(** [os.environ.get(key, default)] *)
Definition get (environ : gmap str str) (key : str) (default : str) : str :=
  match environ !! key with
  | Some v => v
  | None => default
  end.

(** The command [start_app] builds from the updated environment (source
    lines 182-199); [has_gunicorn] says whether [import gunicorn] succeeds. *)
Definition command (has_gunicorn : bool) (executable app_path : str)
    (environ : gmap str str) : list str :=
  if bool_decide (environ !! lit "ENVIRONMENT" = Some (lit "production")) && has_gunicorn
  then
    [executable; lit "-m"; lit "gunicorn";
     lit "--workers=" ++ get environ (lit "GUNICORN_WORKERS") (lit "1");
     lit "--threads=" ++ get environ (lit "GUNICORN_THREADS") (lit "2");
     lit "--timeout=" ++ get environ (lit "GUNICORN_TIMEOUT") (lit "120");
     lit "--bind=" ++ get environ (lit "HOST") DEFAULT_HOST ++ lit ":"
       ++ get environ (lit "PORT") (str_of_int DEFAULT_PORT);
     lit "app_v3:app"]
  else [executable; app_path].

(** How [start_app] goes on once the environment is updated: it leaves
    with [sys.exit(1)] when the application script does not exist, and
    otherwise starts the command with [subprocess.Popen]. *)
Inductive started : Type :=
| Exit (code : Z)
| Popen (cmd : list str).

(** [start_app(env_vars)] up to the start of the process: the environment
    it leaves in [os.environ] and how it goes on.  [app_exists] is
    [app_path.exists()]. *)
Definition start_app (app_exists has_gunicorn : bool) (executable app_path : str)
    (env_vars environ : gmap str str) : gmap str str * started :=
  let environ' := update env_vars environ in
  (environ',
   if negb app_exists then Exit 1
   else Popen (command has_gunicorn executable app_path environ')).

(** [main]: the variables computed from [info] are handed to [start_app],
    which writes them over those of the caller. *)
Definition launch (HAS_PSUTIL app_exists has_gunicorn : bool) (executable app_path : str)
    (environ : gmap str str) (info : system_info) : gmap str str * started :=
  start_app app_exists has_gunicorn executable app_path
    (set_environment_variables HAS_PSUTIL environ info) environ.

End Launcher.

(* ===================================================================== *)
(** * Properties                                                          *)
(* ===================================================================== *)

(** ** General facts about [result] and the manager *)

Lemma for_each_length {A B : Type} (f : A -> result B) (l : list A) (bs : list B) :
  for_each f l = Ok bs -> length bs = length l.
Proof.
  revert bs. induction l as [|a l IH]; simpl; intros bs H.
  - injection H as <-. reflexivity.
  - destruct (f a) as [b|e]; [|discriminate].
    destruct (for_each f l) as [bs'|e]; [|discriminate].
    injection H as <-. simpl. f_equal. apply IH. reflexivity.
Qed.

(** With the lock free, obtaining a context always returns. *)
Lemma get_browser_context_returns (e : Resource.env) (s : Resource.state) :
  Resource.browser_lock s = false ->
  exists r s', Resource.get_browser_context e s = Some (r, s').
Proof.
  intros Hl. unfold Resource.get_browser_context, Resource.with_browser_lock.
  rewrite Hl. destruct (Resource.needs_init _); [|eauto].
  unfold Resource.init_playwright.
  destruct (Resource.playwright_instance _); [eauto|].
  destruct (Resource.start_raises e); [eauto|]. simpl.
  destruct (Resource.launch_raises e); [destruct (Resource.stop_raises e)|]; eauto.
Qed.

(** What a returned [query_data] has done: the context was obtained, the
    remote page was shown, and the result is assembled from its extract. *)
Lemma query_data_Ok e remote now p u sd ed s qr s' :
  Pipeline.query_data e remote now p u sd ed s = Some (Ok qr, s') ->
  exists pg st rs,
    remote p u sd ed = Ok pg /\ Pipeline.extract pg = Ok (st, rs) /\
    Pipeline.data qr = map Pipeline.apply_profit rs /\ Pipeline.stats qr = st.
Proof.
  unfold Pipeline.query_data. intros H.
  destruct (Resource.get_browser_context e s) as [[[c|ex] s1]|]; try discriminate.
  destruct (remote p u sd ed) as [pg|ex]; [|discriminate]. simpl in H.
  destruct (Pipeline.extract pg) as [[st rs]|ex] eqn:Hx; [|discriminate]. simpl in H.
  injection H as <- <-. exists pg, st, rs. auto.
Qed.

(** When the extraction raises, so does the whole call. *)
Lemma query_data_extract_raises e remote now p u sd ed s pg ex :
  Resource.browser_lock s = false ->
  remote p u sd ed = Ok pg ->
  Pipeline.extract pg = Raise ex ->
  exists ex' s', Pipeline.query_data e remote now p u sd ed s = Some (Raise ex', s').
Proof.
  intros Hl Hpg Hex. unfold Pipeline.query_data.
  destruct (get_browser_context_returns e s Hl) as (r & s' & ->).
  destruct r as [c|ex0]; [|eauto].
  rewrite Hpg. simpl. rewrite Hex. simpl. eauto.
Qed.

(** ** Profit derivation *)

(** No amount is in the low and in the high tier at once. *)
Lemma tiers_exclusive (a : float) :
  (a <? 1000)%float = true -> (10000 <? a)%float = false.
Proof.
  rewrite !ltb_spec.
  replace (Prim2SF 1000) with (S754_finite false 8796093022208000 (-43)) by reflexivity.
  replace (Prim2SF 10000) with (S754_finite false 5497558138880000 (-39)) by reflexivity.
  unfold SFltb, SFcompare.
  destruct (Prim2SF a) as [sg | sg | | sg m ex];
    try destruct sg; try discriminate; try reflexivity.
  destruct (Z.compare_spec ex (-43)); destruct (Z.compare_spec (-39) ex);
    try lia; try discriminate; reflexivity.
Qed.

(** C2. Every record of a result of [query_data] carries a profit, and it
    follows the three tiers with strict thresholds: the amount times 1.2
    above 10000, times 0.8 below 1000, times 1.0 otherwise; in particular
    an amount of exactly 10000 or exactly 1000 takes the factor 1.0. *)
Theorem profit_three_tier e remote now p u sd ed s qr s' r :
  Pipeline.query_data e remote now p u sd ed s = Some (Ok qr, s') ->
  r ∈ Pipeline.data qr ->
  let a := Pipeline.amount r in
  ((10000 <? a)%float = true -> Pipeline.profit r = Some (a * 1.2)%float) /\
  ((a <? 1000)%float = true -> Pipeline.profit r = Some (a * 0.8)%float) /\
  ((10000 <? a)%float = false -> (a <? 1000)%float = false ->
     Pipeline.profit r = Some (a * 1.0)%float) /\
  (a = 10000%float \/ a = 1000%float -> Pipeline.profit r = Some (a * 1.0)%float).
Proof.
  intros Hq Hr a.
  destruct (query_data_Ok _ _ _ _ _ _ _ _ _ _ Hq) as (pg & st & rs & _ & _ & Hd & _).
  rewrite Hd in Hr. apply list_elem_of_fmap in Hr as (r0 & -> & _).
  subst a. simpl. unfold Pipeline.profit_of.
  repeat split.
  - intros ->. reflexivity.
  - intros Hlow. rewrite (tiers_exclusive _ Hlow), Hlow. reflexivity.
  - intros -> ->. reflexivity.
  - intros [->| ->]; reflexivity.
Qed.

(** ** Ragged rows *)

Lemma extract_rows_cons (cells : list (option str)) (rest : list (list (option str))) :
  Pipeline.extract_rows (cells :: rest) =
  if (5 <=? length cells)%nat
  then (r ← Pipeline.row_record cells; rs ← Pipeline.extract_rows rest; Ok (r :: rs))
  else Pipeline.extract_rows rest.
Proof. reflexivity. Qed.

Lemma extract_rows_filter (rows : list (list (option str))) :
  Pipeline.extract_rows rows =
  for_each Pipeline.row_record (filter (fun cells => (5 <= length cells)%nat) rows).
Proof.
  induction rows as [|cells rest IH]; [reflexivity|].
  rewrite extract_rows_cons, filter_cons.
  destruct (decide (5 <= length cells)%nat) as [Hge|Hlt].
  - apply Nat.leb_le in Hge. rewrite Hge. cbn [for_each].
    destruct (Pipeline.row_record cells) as [r|ex]; [|reflexivity].
    cbn. rewrite IH.
    destruct (for_each _ _); reflexivity.
  - apply Nat.leb_nle in Hlt. rewrite Hlt. exact IH.
Qed.

Lemma row_record_take (cells : list (option str)) :
  (5 <= length cells)%nat ->
  Pipeline.row_record cells = Pipeline.row_record (take 5 cells).
Proof.
  intros _. unfold Pipeline.row_record, Pipeline.cell_strip, Pipeline.cell_text.
  rewrite !lookup_take_lt by lia. reflexivity.
Qed.

Lemma row_record_fields (cells : list (option str)) (r : Pipeline.record) :
  Pipeline.row_record cells = Ok r ->
  exists c0 c1 c2 c3 c4,
    take 5 cells = [Some c0; Some c1; Some c2; Some c3; Some c4] /\
    Pipeline.id r = strip c0 /\ Pipeline.date r = strip c1 /\
    PyNum.float (replace yen [] (replace comma [] (strip c2))) = Ok (Pipeline.amount r) /\
    Pipeline.status r = strip c3 /\ Pipeline.details r = strip c4 /\
    Pipeline.profit r = None.
Proof.
  unfold Pipeline.row_record, Pipeline.cell_strip, Pipeline.cell_text.
  destruct cells as [|[c0|] [|[c1|] [|[c2|] cells]]]; try (cbn; discriminate).
  cbn. destruct (PyNum.float _) as [a|ex] eqn:Ha; [|cbn; discriminate].
  destruct cells as [|[c3|] [|[c4|] extra]]; try (cbn; discriminate).
  cbn. intros [= <-]. exists c0, c1, c2, c3, c4. cbn. auto 10.
Qed.

Lemma for_each_lookup {A B : Type} (f : A -> result B) (l : list A) (bs : list B)
    (i : nat) (a : A) :
  for_each f l = Ok bs -> l !! i = Some a ->
  exists b, bs !! i = Some b /\ f a = Ok b.
Proof.
  revert bs i. induction l as [|x l IH]; intros bs i H Hi; [discriminate|].
  simpl in H. destruct (f x) as [b|ex] eqn:Hx; [|discriminate].
  destruct (for_each f l) as [bs'|ex]; [|discriminate].
  injection H as <-. destruct i as [|i].
  - injection Hi as <-. eauto.
  - simpl in Hi. destruct (IH bs' i eq_refl Hi) as (b' & ? & ?). eauto.
Qed.

(** C6. The records of a result come from the rows of the page with five
    cells or more, one record per such row and in their order: a shorter
    row contributes nothing, and the record of a kept row is built from its
    first five cells (id, date, amount, status, details) whatever follows
    them. *)
Theorem ragged_rows e remote now p u sd ed s qr s' :
  Pipeline.query_data e remote now p u sd ed s = Some (Ok qr, s') ->
  exists pg rs,
    let kept := filter (fun cells => (5 <= length cells)%nat) (Pipeline.rows pg) in
    remote p u sd ed = Ok pg /\
    Pipeline.data qr = map Pipeline.apply_profit rs /\
    length (Pipeline.data qr) = length kept /\
    (forall cells rest, (length cells < 5)%nat ->
       Pipeline.extract_rows (cells :: rest) = Pipeline.extract_rows rest) /\
    (forall i cells, kept !! i = Some cells ->
       exists r c0 c1 c2 c3 c4,
         rs !! i = Some r /\
         Pipeline.row_record (take 5 cells) = Ok r /\
         take 5 cells = [Some c0; Some c1; Some c2; Some c3; Some c4] /\
         Pipeline.id r = strip c0 /\ Pipeline.date r = strip c1 /\
         PyNum.float (replace yen [] (replace comma [] (strip c2))) = Ok (Pipeline.amount r) /\
         Pipeline.status r = strip c3 /\ Pipeline.details r = strip c4).
Proof.
  intros Hq.
  destruct (query_data_Ok _ _ _ _ _ _ _ _ _ _ Hq) as (pg & st & rs & Hpg & Hx & Hd & _).
  exists pg, rs. cbv zeta.
  unfold Pipeline.extract in Hx.
  destruct (Pipeline.parse_stats pg) as [st'|ex]; [|discriminate]. simpl in Hx.
  destruct (Pipeline.extract_rows (Pipeline.rows pg)) as [rs'|ex] eqn:Hrows; [|discriminate].
  simpl in Hx. injection Hx as _ ->.
  rewrite extract_rows_filter in Hrows.
  repeat split; try assumption.
  - rewrite Hd, length_map. eapply for_each_length, Hrows.
  - intros cells rest Hlt. rewrite extract_rows_cons.
    replace (5 <=? length cells)%nat with false; [reflexivity|].
    symmetry. apply Nat.leb_nle. lia.
  - intros i cells Hi.
    destruct (for_each_lookup _ _ _ _ _ Hrows Hi) as (r & Hr & Hrec).
    assert (Hlen : (5 <= length cells)%nat).
    { apply list_elem_of_lookup_2 in Hi. apply list_elem_of_filter in Hi. tauto. }
    destruct (row_record_fields _ _ Hrec) as (c0 & c1 & c2 & c3 & c4 & ? & ? & ? & ? & ? & ? & _).
    exists r, c0, c1, c2, c3, c4. rewrite <- row_record_take by assumption. auto 10.
Qed.

(** ** Default credentials *)

(** C9. A request body that carries neither [auth_key] nor [app_id] is
    given the configured defaults and [validate_api_key] accepts them, so
    the request passes the authentication step of the handler: when its
    four parameters are truthy the query function is called with them and
    the response is the outcome of that call (the result with status 200,
    or "query_failed" with status 500), and in no case is the answer
    "unauthorized" (status 401). *)
Theorem default_credentials_pass (cfg : config.t) (d : gmap str Api.pyval)
    (query : Api.pyval -> Api.pyval -> Api.pyval -> Api.pyval -> result Pipeline.QueryResult) :
  d !! lit "auth_key" = None ->
  d !! lit "app_id" = None ->
  let auth_key := Api.get d (lit "auth_key") (Api.VStr (config.DEFAULT_AUTH_KEY cfg)) in
  let app_id := Api.get d (lit "app_id") (Api.VStr (config.DEFAULT_APP_ID cfg)) in
  let project_id := Api.get d (lit "project_id") Api.VNone in
  let uk_code := Api.get d (lit "uk_code") Api.VNone in
  let start_date := Api.get d (lit "start_date") Api.VNone in
  let end_date := Api.get d (lit "end_date") Api.VNone in
  auth_key = Api.VStr (config.DEFAULT_AUTH_KEY cfg) /\
  app_id = Api.VStr (config.DEFAULT_APP_ID cfg) /\
  Api.validate_api_key cfg auth_key app_id = true /\
  (forallb Api.truth [project_id; uk_code; start_date; end_date] = true ->
   Api.api_query cfg query (Api.VDict d)
   = Ok (match query project_id uk_code start_date end_date with
         | Ok r => Api.success r
         | Raise e => Api.query_failed e
         end) /\
   Api.status_code (Api.error_handler (Api.api_query cfg query (Api.VDict d)))
   = match query project_id uk_code start_date end_date with
     | Ok _ => 200
     | Raise _ => 500
     end) /\
  Api.error_handler (Api.api_query cfg query (Api.VDict d)) <> Api.unauthorized /\
  Api.status_code (Api.error_handler (Api.api_query cfg query (Api.VDict d))) <> 401.
Proof.
  intros Hk Hi auth_key app_id project_id uk_code start_date end_date.
  subst auth_key app_id project_id uk_code start_date end_date.
  assert (Hka : Api.get d (lit "auth_key") (Api.VStr (config.DEFAULT_AUTH_KEY cfg))
                = Api.VStr (config.DEFAULT_AUTH_KEY cfg))
    by (unfold Api.get; rewrite Hk; reflexivity).
  assert (Hia : Api.get d (lit "app_id") (Api.VStr (config.DEFAULT_APP_ID cfg))
                = Api.VStr (config.DEFAULT_APP_ID cfg))
    by (unfold Api.get; rewrite Hi; reflexivity).
  rewrite Hka, Hia.
  assert (Hv : Api.validate_api_key cfg (Api.VStr (config.DEFAULT_AUTH_KEY cfg))
                 (Api.VStr (config.DEFAULT_APP_ID cfg)) = true).
  { unfold Api.validate_api_key, Api.eq_str. rewrite !bool_decide_eq_true_2; reflexivity. }
  assert (Hresp : Api.error_handler (Api.api_query cfg query (Api.VDict d))
                  <> Api.unauthorized).
  { unfold Api.api_query.
    destruct (negb (Api.truth (Api.VDict d))); [discriminate|].
    destruct (negb (forallb _ _)); [discriminate|].
    rewrite Hka, Hia, Hv. simpl.
    destruct (query _ _ _ _); discriminate. }
  assert (Hrun : forallb Api.truth
                   [Api.get d (lit "project_id") Api.VNone; Api.get d (lit "uk_code") Api.VNone;
                    Api.get d (lit "start_date") Api.VNone;
                    Api.get d (lit "end_date") Api.VNone] = true ->
                 Api.api_query cfg query (Api.VDict d)
                 = Ok (match query (Api.get d (lit "project_id") Api.VNone)
                               (Api.get d (lit "uk_code") Api.VNone)
                               (Api.get d (lit "start_date") Api.VNone)
                               (Api.get d (lit "end_date") Api.VNone) with
                       | Ok r => Api.success r
                       | Raise e => Api.query_failed e
                       end)).
  { intros Hall.
    assert (Hbody : Api.truth (Api.VDict d) = true).
    { simpl. apply negb_true_iff, bool_decide_eq_false_2. intros Hsize.
      apply map_size_empty_iff in Hsize. subst d.
      cbn [forallb] in Hall. apply andb_true_iff in Hall as [Hp _].
      unfold Api.get in Hp. rewrite lookup_empty in Hp. discriminate. }
    unfold Api.api_query. rewrite Hbody, Hall, Hka, Hia, Hv. simpl.
    destruct (query _ _ _ _); reflexivity. }
  split; [reflexivity|]. split; [reflexivity|]. split; [exact Hv|].
  split; [|split; [exact Hresp|]].
  - intros Hall. split; [exact (Hrun Hall)|].
    rewrite (Hrun Hall). destruct (query _ _ _ _); reflexivity.
  - destruct (Api.error_handler _); simpl; congruence.
Qed.

(** ** The result cache, one caller at a time *)

Section CacheFacts.

Context {V S : Type}.
Implicit Types (query_cache : gmap str (V * Z)) (func : S -> option (result V * S)).

Lemma fresh_entry_Some timeout key now query_cache v :
  Cache.fresh_entry timeout key now query_cache = Some v <->
  exists T, query_cache !! key = Some (v, T) /\ now - T < timeout.
Proof.
  unfold Cache.fresh_entry.
  destruct (query_cache !! key) as [[v0 T]|]; [|split; [discriminate|intros (? & ? & _); discriminate]].
  case_bool_decide as Hage; split.
  - intros [= <-]. eauto.
  - intros (T' & [= <- <-] & _). reflexivity.
  - discriminate.
  - intros (T' & [= <- <-] & ?). contradiction.
Qed.

Lemma fresh_entry_None timeout key now query_cache :
  Cache.fresh_entry timeout key now query_cache = None <->
  query_cache !! key = None \/
  exists v T, query_cache !! key = Some (v, T) /\ now - T >= timeout.
Proof.
  unfold Cache.fresh_entry.
  destruct (query_cache !! key) as [[v0 T]|]; [|split; auto].
  case_bool_decide as Hage; split.
  - discriminate.
  - intros [|(v & T' & [= <- <-] & ?)]; [discriminate|lia].
  - intros _. right. exists v0, T. split; [reflexivity|lia].
  - reflexivity.
Qed.

Lemma purge_lookup timeout current_time query_cache k v T :
  Cache.purge timeout current_time query_cache !! k = Some (v, T) <->
  query_cache !! k = Some (v, T) /\ current_time - T <= timeout.
Proof.
  unfold Cache.purge. rewrite map_lookup_filter_Some.
  unfold Cache.expired. simpl. split; intros [? ?]; split; auto; lia.
Qed.

(** C3. A call that finds an entry for its key stored at time [T] with
    [now - T < timeout] returns the cached result and does not call the
    function: whatever the function is, its state is untouched, the cache is
    unchanged and a call counter stays where it was.  A call that finds no
    entry, or one with [now - T >= timeout], calls the function once,
    stores its result under the key with the time read at the store, and
    returns that result; the stored entry is the one in the cache when the
    call returns (the purge that follows keeps it, the clock having moved by
    no more than the timeout since the store). *)
Theorem getOrCompute_hit_and_miss timeout func key (clk : Cache.clock) query_cache (s : S) :
  (forall v T,
     query_cache !! key = Some (v, T) -> Cache.t_check clk - T < timeout ->
     Cache.wrapper timeout func key clk query_cache s = Some (Ok v, query_cache, s) /\
     forall v' (calls : nat),
       Cache.wrapper timeout (Cache.counting v') key clk query_cache calls
       = Some (Ok v, query_cache, calls)) /\
  (forall v,
     query_cache !! key = None \/
     (exists v0 T, query_cache !! key = Some (v0, T) /\ Cache.t_check clk - T >= timeout) ->
     (forall s',
        func s = Some (Ok v, s') ->
        exists cache',
          Cache.wrapper timeout func key clk query_cache s = Some (Ok v, cache', s') /\
          cache' = Cache.purge timeout (Cache.t_purge clk)
                     (<[key := (v, Cache.t_store clk)]> query_cache) /\
          (Cache.t_purge clk - Cache.t_store clk <= timeout ->
           cache' !! key = Some (v, Cache.t_store clk))) /\
     forall calls : nat,
       exists cache',
         Cache.wrapper timeout (Cache.counting v) key clk query_cache calls
         = Some (Ok v, cache', Datatypes.S calls)).
Proof.
  split.
  - intros v T Hk Hage.
    assert (Hf : Cache.fresh_entry timeout key (Cache.t_check clk) query_cache = Some v)
      by (apply fresh_entry_Some; eauto).
    split; [|intros v' calls]; unfold Cache.wrapper; rewrite Hf; reflexivity.
  - intros v Hmiss. apply fresh_entry_None in Hmiss. split.
    + intros s' Hfunc. unfold Cache.wrapper. rewrite Hmiss, Hfunc.
      eexists. split; [reflexivity|]. split; [reflexivity|].
      intros Hclk. unfold Cache.store. apply purge_lookup.
      split; [apply lookup_insert_eq|assumption].
    + intros calls. unfold Cache.wrapper, Cache.counting. rewrite Hmiss. eauto.
Qed.

(** C4 (as amended). An entry is served exactly when [now - timestamp <
    timeout].  Nothing is purged by a call that is served from the cache,
    nor by one whose function raises: the cache is then left as it was.
    The purge runs after a store, with the clock read at that moment: it
    leaves no entry older than the timeout, and keeps every entry younger
    than the timeout. *)
Theorem purge_only_after_store timeout func key (clk : Cache.clock) query_cache (s : S)
    (r : result V) cache' (s' : S) :
  Cache.wrapper timeout func key clk query_cache s = Some (r, cache', s') ->
  (forall v, Cache.fresh_entry timeout key (Cache.t_check clk) query_cache = Some v <->
             exists T, query_cache !! key = Some (v, T) /\ Cache.t_check clk - T < timeout) /\
  (is_Some (Cache.fresh_entry timeout key (Cache.t_check clk) query_cache) ->
     cache' = query_cache) /\
  (forall ex, r = Raise ex -> cache' = query_cache) /\
  (Cache.fresh_entry timeout key (Cache.t_check clk) query_cache = None ->
   forall v, r = Ok v ->
     cache' = Cache.store timeout key v (Cache.t_store clk) (Cache.t_purge clk) query_cache /\
     (forall k v0 T, cache' !! k = Some (v0, T) -> Cache.t_purge clk - T <= timeout) /\
     (forall k v0 T, k <> key -> query_cache !! k = Some (v0, T) ->
        Cache.t_purge clk - T < timeout -> cache' !! k = Some (v0, T))).
Proof.
  intros Hw. split; [intros v; apply fresh_entry_Some|].
  unfold Cache.wrapper in Hw.
  destruct (Cache.fresh_entry timeout key (Cache.t_check clk) query_cache) as [v|] eqn:Hf.
  - injection Hw as <- <- <-. repeat split; auto; try discriminate.
  - destruct (func s) as [[[v|ex] s1]|]; try discriminate; injection Hw as <- <- <-.
    + split; [intros [? [=]]|]. split; [discriminate|].
      intros _ v0 [= <-]. split; [reflexivity|]. unfold Cache.store. split.
      * intros k v0 T Hk. apply purge_lookup in Hk. tauto.
      * intros k v0 T Hne Hk Hage. apply purge_lookup.
        rewrite lookup_insert_ne by congruence. split; [assumption|lia].
    + split; [intros [? [=]]|]. split; [reflexivity|]. discriminate.
Qed.

End CacheFacts.

(** ** The result cache, two callers at once *)

Section ConcurrentFacts.

Context {V : Type}.
Variables (timeout : Z) (cache_key : str) (func : nat -> result V).

#[local] Abbreviation step := (Concurrent.step (V:=V) timeout cache_key func).
#[local] Abbreviation exec := (Concurrent.exec (V:=V) timeout cache_key func).

Lemma step_accounted t c c' :
  step t c = Some c' -> Concurrent.fetches_accounted c -> Concurrent.fetches_accounted c'.
Proof.
  unfold Concurrent.step, Concurrent.fetches_accounted.
  destruct t, c as [m l n f pa pb]; simpl; intros H Hacc.
  all: repeat match type of H with
       | context [match ?x with _ => _ end] => destruct x; simpl in H
       end; try discriminate; injection H as <-; simpl in *; lia.
Qed.

Lemma step_both_missed t c c' :
  step t c = Some c' -> Concurrent.both_missed c -> Concurrent.both_missed c'.
Proof.
  unfold Concurrent.step, Concurrent.both_missed.
  destruct t, c as [m l n f pa pb]; simpl; intros H [Ha Hb].
  all: repeat match type of H with
       | context [match ?x with _ => _ end] => destruct x; simpl in H
       end; try discriminate; injection H as <-; simpl in *; auto.
Qed.

Lemma exec_accounted es c fin :
  exec es c = Some fin ->
  Concurrent.fetches_accounted c -> Concurrent.fetches_accounted fin.
Proof.
  revert c. induction es as [|[t|d] es IH]; simpl; intros c H Hacc.
  - injection H as <-. assumption.
  - destruct (step t c) as [c'|] eqn:Hs; [|discriminate].
    eauto using step_accounted.
  - apply (IH _ H); destruct c; assumption.
Qed.

Lemma exec_both_missed es c fin :
  exec es c = Some fin ->
  Concurrent.both_missed c -> Concurrent.both_missed fin.
Proof.
  revert c. induction es as [|[t|d] es IH]; simpl; intros c H Hm.
  - injection H as <-. assumption.
  - destruct (step t c) as [c'|] eqn:Hs; [|discriminate].
    eauto using step_both_missed.
  - apply (IH _ H); destruct c; assumption.
Qed.

(** Once both calls are over, two misses are two fetches. *)
Lemma two_misses_two_fetches (fin : Concurrent.config (V:=V)) :
  Concurrent.fetches_accounted fin ->
  Concurrent.missed (Concurrent.pc_a fin) = true ->
  Concurrent.missed (Concurrent.pc_b fin) = true ->
  Concurrent.finished (Concurrent.pc_a fin) = true ->
  Concurrent.finished (Concurrent.pc_b fin) = true ->
  Concurrent.fetches fin = 2%nat.
Proof.
  unfold Concurrent.fetches_accounted. intros -> Ha Hb Hfa Hfb.
  destruct (Concurrent.pc_a fin), (Concurrent.pc_b fin); try discriminate; reflexivity.
Qed.

Lemma exec_app es1 es2 c :
  exec (es1 ++ es2) c = exec es1 c ≫= exec es2.
Proof.
  revert c. induction es1 as [|[t|d] es1 IH]; simpl; intros c; [reflexivity| |apply IH].
  destruct (step t c); [apply IH|reflexivity].
Qed.

(** A caller left alone does what [Cache.wrapper] does: run to its end
    with the clock standing still, caller [A] leaves the outcome, the cache
    and the call count of the wrapper around the same stub. *)
Lemma lone_caller_is_wrapper (m : gmap str (V * Z)) (t0 : Z) :
  exists es fin,
    exec es (Concurrent.start m t0) = Some fin /\
    Concurrent.pc_b fin = Concurrent.Start /\
    exists r,
      Concurrent.outcome (Concurrent.pc_a fin) = Some r /\
      Cache.wrapper timeout (fun calls => Some (func calls, S calls)) cache_key
        {| Cache.t_check := t0; Cache.t_store := t0; Cache.t_purge := t0 |} m 0%nat
      = Some (r, Concurrent.query_cache fin, Concurrent.fetches fin).
Proof.
  unfold Cache.wrapper, Cache.store. cbn [Cache.t_check Cache.t_store Cache.t_purge].
  destruct (Cache.fresh_entry timeout cache_key t0 m) as [v|] eqn:Hf.
  - exists [Concurrent.Run Concurrent.A; Concurrent.Run Concurrent.A]. eexists.
    cbn -[Cache.fresh_entry]. rewrite Hf. cbn. eauto.
  - destruct (func 0) as [v|ex] eqn:H0.
    + exists ([Concurrent.Run Concurrent.A; Concurrent.Run Concurrent.A]
              ++ Concurrent.finish_call Concurrent.A (func 0)). eexists.
      rewrite H0.
      cbn -[Cache.fresh_entry Cache.purge insert]. rewrite Hf.
      cbn -[Cache.purge insert]. rewrite H0. cbn -[Cache.purge insert]. eauto.
    + exists ([Concurrent.Run Concurrent.A; Concurrent.Run Concurrent.A]
              ++ Concurrent.finish_call Concurrent.A (func 0)). eexists.
      rewrite H0.
      cbn -[Cache.fresh_entry]. rewrite Hf. cbn. rewrite H0. cbn. eauto.
Qed.

(** C5. Two calls with the same key are made while the cache holds no valid
    entry for it.  In every interleaving the number of fetches is the
    number of callers that have gone past their call of the function: a
    fetch is never shared, and when both callers have seen a miss it is 2,
    not 1, once both calls are over.  Both do see a miss as soon as both run
    their guard before either goes on, which the lock allows: after the two
    guards both callers have missed, the lock is free and nothing has been
    fetched yet; and such a run can always be continued until both calls
    are over. *)
Theorem concurrent_misses_both_fetch (m : gmap str (V * Z)) (t0 : Z) :
  Cache.fresh_entry timeout cache_key t0 m = None ->
  (forall es fin,
     exec es (Concurrent.start m t0) = Some fin ->
     Concurrent.fetches fin
     = (Concurrent.fetched (Concurrent.pc_a fin) + Concurrent.fetched (Concurrent.pc_b fin))%nat /\
     (Concurrent.missed (Concurrent.pc_a fin) = true ->
      Concurrent.missed (Concurrent.pc_b fin) = true ->
      Concurrent.finished (Concurrent.pc_a fin) = true ->
      Concurrent.finished (Concurrent.pc_b fin) = true ->
      Concurrent.fetches fin = 2%nat)) /\
  exec Concurrent.overlap (Concurrent.start m t0)
  = Some {| Concurrent.query_cache := m; Concurrent.cache_lock := None;
            Concurrent.now := t0; Concurrent.fetches := 0;
            Concurrent.pc_a := Concurrent.Missed; Concurrent.pc_b := Concurrent.Missed |} /\
  (forall rest fin,
     exec (Concurrent.overlap ++ rest) (Concurrent.start m t0) = Some fin ->
     Concurrent.missed (Concurrent.pc_a fin) = true /\
     Concurrent.missed (Concurrent.pc_b fin) = true /\
     (Concurrent.finished (Concurrent.pc_a fin) = true ->
      Concurrent.finished (Concurrent.pc_b fin) = true ->
      Concurrent.fetches fin = 2%nat)) /\
  (exists rest fin,
     exec (Concurrent.overlap ++ rest) (Concurrent.start m t0) = Some fin /\
     Concurrent.finished (Concurrent.pc_a fin) = true /\
     Concurrent.finished (Concurrent.pc_b fin) = true).
Proof.
  intros Hmiss.
  assert (Hacc : forall es fin, exec es (Concurrent.start m t0) = Some fin ->
                   Concurrent.fetches_accounted fin).
  { intros es fin Hrun. apply (exec_accounted _ _ _ Hrun). reflexivity. }
  assert (Hov : exec Concurrent.overlap (Concurrent.start m t0)
                = Some {| Concurrent.query_cache := m; Concurrent.cache_lock := None;
                          Concurrent.now := t0; Concurrent.fetches := 0;
                          Concurrent.pc_a := Concurrent.Missed;
                          Concurrent.pc_b := Concurrent.Missed |}).
  { unfold Concurrent.overlap, Concurrent.start. cbn -[Cache.fresh_entry].
    rewrite Hmiss. cbn -[Cache.fresh_entry]. rewrite Hmiss. reflexivity. }
  split; [|split; [exact Hov|split]].
  - intros es fin Hrun. split; [exact (Hacc es fin Hrun)|].
    apply two_misses_two_fetches, (Hacc es fin Hrun).
  - intros rest fin Hrun. pose proof (Hacc _ _ Hrun) as Hfin.
    rewrite exec_app, Hov in Hrun. cbn [mbind option_bind] in Hrun.
    destruct (exec_both_missed _ _ _ Hrun) as [Ha Hb]; [split; reflexivity|].
    repeat split; try assumption. apply two_misses_two_fetches; assumption.
  - exists (Concurrent.finish_call Concurrent.A (func 0)
            ++ Concurrent.finish_call Concurrent.B (func 1)).
    rewrite exec_app, Hov. cbn [mbind option_bind].
    destruct (func 0) as [va|ea] eqn:H0; destruct (func 1) as [vb|eb] eqn:H1;
      eexists; cbn -[Cache.purge insert]; rewrite ?H0; cbn -[Cache.purge insert];
      rewrite ?H1; cbn -[Cache.purge insert]; auto.
Qed.

End ConcurrentFacts.

(** ** The browser resource after a disconnect *)

Lemma init_playwright_paired e s r s' :
  Resource.init_playwright e s = Some (r, s') ->
  Resource.paired s -> Resource.paired s' /\ Resource.browser_lock s' = Resource.browser_lock s.
Proof.
  unfold Resource.init_playwright, Resource.paired.
  destruct s as [p b l c n]; simpl. intros H Hb.
  destruct p as [p|]; [injection H as <- <-; auto|].
  destruct (Resource.start_raises e); [injection H as <- <-; auto|].
  simpl in H. destruct (Resource.launch_raises e);
    [destruct (Resource.stop_raises e)|]; injection H as <- <-; simpl.
  - split; [|reflexivity]. eauto.
  - split; [|reflexivity]. intros Hs. apply Hb in Hs. destruct Hs; discriminate.
  - split; [|reflexivity]. eauto.
Qed.

Lemma init_playwright_settled e s r s' :
  Resource.init_playwright e s = Some (r, s') -> Resource.settled s -> Resource.settled s'.
Proof.
  intros H [Hl Hp]. destruct (init_playwright_paired _ _ _ _ H Hp) as [Hp' Hl'].
  split; [congruence|assumption].
Qed.

Lemma close_playwright_settled s r s' :
  Resource.close_playwright s = Some (r, s') -> Resource.settled s -> Resource.settled s'.
Proof.
  unfold Resource.close_playwright, Resource.with_browser_lock, Resource.settled, Resource.paired.
  destruct s as [p b l c n]; simpl. intros H [-> Hb].
  destruct b, p; injection H as <- <-; simpl; split; auto; intros [? [=]].
Qed.

Lemma get_browser_context_settled e s r s' :
  Resource.get_browser_context e s = Some (r, s') -> Resource.settled s -> Resource.settled s'.
Proof.
  unfold Resource.get_browser_context, Resource.with_browser_lock.
  intros H [Hl Hb]. rewrite Hl in H.
  assert (Hb0 : Resource.paired (Resource.set_browser_lock true s)) by (destruct s; exact Hb).
  destruct (Resource.needs_init _).
  - destruct (Resource.init_playwright e _) as [[[u|ex] s1]|] eqn:Hi; try discriminate;
      injection H as <- <-;
      destruct (init_playwright_paired _ _ _ _ Hi Hb0) as [Hb1 _];
      destruct s1; split; [reflexivity|exact Hb1|reflexivity|exact Hb1].
  - injection H as <- <-. destruct s; split; [reflexivity|exact Hb].
Qed.

(** The recovery branch of the health endpoint takes [browser_lock] and
    then calls [close_playwright], which takes it again. *)
Lemma health_check_error_blocks e s :
  Resource.playwright_component s = Resource.error ->
  Resource.health_check e s = None.
Proof.
  intros Hc. unfold Resource.health_check. rewrite Hc.
  unfold Resource.with_browser_lock.
  destruct (Resource.browser_lock s); reflexivity.
Qed.

Lemma health_check_settled e s r s' :
  Resource.health_check e s = Some (r, s') -> Resource.settled s -> Resource.settled s'.
Proof.
  intros H Hs.
  destruct (Resource.playwright_component s) eqn:Hc;
    try (unfold Resource.health_check in H; rewrite Hc in H; injection H as <- <-; exact Hs).
  rewrite (health_check_error_blocks e s Hc) in H. discriminate.
Qed.

Lemma reachable_settled s : Resource.reachable s -> Resource.settled s.
Proof.
  induction 1 as [|e s r s' _ IH H|s r s' _ IH H|e s r s' _ IH H|e s r s' _ IH H|b s _ IH].
  - split; [reflexivity|]. intros [? [=]].
  - eapply init_playwright_settled; eassumption.
  - eapply close_playwright_settled; eassumption.
  - eapply get_browser_context_settled; eassumption.
  - eapply health_check_settled; eassumption.
  - destruct s. exact IH.
Qed.

(** C1 (what the code does instead). In every state the program can reach
    in which the browser exists and reports disconnected, the runtime is
    still held, so [init_playwright] does nothing: whatever the outside
    world would answer to a launch, [get_browser_context] leaves the state
    as it was and asks the disconnected browser for a context, so that a
    context it returns is one of that browser; the health endpoint still
    sees the component in error, and its recovery never returns. *)
Theorem get_browser_context_no_relaunch (e : Resource.env) (s : Resource.state) :
  Resource.reachable s ->
  Resource.disconnected s ->
  exists b,
    Resource.browser_instance s = Some b /\
    Resource.is_connected s b = false /\
    Resource.get_browser_context e s = Some (Resource.new_context e s, s) /\
    (forall c, Resource.new_context e s = Ok c -> Resource.ctx_browser c = b) /\
    Resource.playwright_component s = Resource.error /\
    Resource.health_check e s = None.
Proof.
  intros Hr (b & Hb & Hc). exists b.
  destruct (reachable_settled s Hr) as [Hl Hp].
  destruct (Hp (ex_intro _ b Hb)) as [p Hpw].
  assert (Herr : Resource.playwright_component s = Resource.error).
  { unfold Resource.playwright_component. rewrite Hb, Hc. reflexivity. }
  repeat split; auto using health_check_error_blocks.
  - unfold Resource.get_browser_context, Resource.with_browser_lock.
    rewrite Hl. unfold Resource.needs_init, Resource.init_playwright, Resource.new_context.
    destruct s as [pw bi l c n]. simpl in *. subst. unfold Resource.is_connected in *.
    simpl in *. rewrite Hc. reflexivity.
  - unfold Resource.new_context. rewrite Hb, Hc.
    destruct (Resource.closed_raises e); [discriminate|]. intros c [= <-]. reflexivity.
Qed.

(** ** What [int()] accepts *)

Lemma lstrip_spec (s : str) :
  exists l, s = l ++ lstrip s /\ Forall (fun c => isspace c = true) l.
Proof.
  induction s as [|c s (l & Hs & Hl)]; [exists []; auto|].
  simpl. destruct (isspace c) eqn:Hc.
  - exists (c :: l). split; [simpl; congruence|auto].
  - exists []. auto.
Qed.

Lemma strip_spec (s : str) :
  exists l r, s = l ++ strip s ++ r /\
    Forall (fun c => isspace c = true) l /\ Forall (fun c => isspace c = true) r.
Proof.
  destruct (lstrip_spec s) as (l & Hs & Hl).
  destruct (lstrip_spec (rev (lstrip s))) as (r & Hr & Hrs).
  exists l, (rev r). unfold strip. repeat split; [|assumption|by apply Forall_rev].
  rewrite <- rev_app_distr, <- Hr, rev_involutive. exact Hs.
Qed.

Lemma elem_of_strip (c : N) (s : str) : c ∈ strip s -> c ∈ s.
Proof.
  intros H. destruct (strip_spec s) as (l & r & Hs & _). rewrite Hs.
  rewrite !elem_of_app. auto.
Qed.

Lemma elem_of_replace_nil (c old : N) (s : str) : c ∈ replace old [] s -> c ∈ s.
Proof.
  unfold replace. induction s as [|x s IH]; simpl; [auto|].
  destruct (x =? old)%N; simpl; [right; auto|].
  intros [->|H]%elem_of_cons; [left|right; auto].
Qed.

Lemma replace_absent (old : N) (s : str) : old ∉ s -> replace old [] s = s.
Proof.
  unfold replace. induction s as [|x s IH]; simpl; [reflexivity|].
  intros H. apply not_elem_of_cons in H as [Hne Hs].
  destruct (N.eqb_spec x old); [congruence|]. simpl. f_equal. auto.
Qed.

Lemma skip_spaces_spec (s : str) :
  exists l, s = l ++ PyNum.skip_spaces s /\ Forall (fun c => PyNum.c_isspace c = true) l.
Proof.
  induction s as [|c s (l & Hs & Hl)]; [exists []; auto|].
  simpl. destruct (PyNum.c_isspace c) eqn:Hc.
  - exists (c :: l). split; [simpl; congruence|auto].
  - exists []. auto.
Qed.

Lemma trim_spec (s : str) :
  exists l r, s = l ++ PyNum.trim s ++ r /\
    Forall (fun c => PyNum.c_isspace c = true) l /\
    Forall (fun c => PyNum.c_isspace c = true) r.
Proof.
  destruct (skip_spaces_spec s) as (l & Hs & Hl).
  destruct (skip_spaces_spec (rev (PyNum.skip_spaces s))) as (r & Hr & Hrs).
  exists l, (rev r). unfold PyNum.trim. repeat split; [|assumption|by apply Forall_rev].
  rewrite <- rev_app_distr, <- Hr, rev_involutive. exact Hs.
Qed.

Lemma elem_of_trim (c : N) (s : str) : c ∈ PyNum.trim s -> c ∈ s.
Proof.
  intros H. destruct (trim_spec s) as (l & r & Hs & _). rewrite Hs.
  rewrite !elem_of_app. auto.
Qed.

Lemma todecimal_lt (c d : N) : PyNum.todecimal c = Some d -> (d < 10)%N.
Proof.
  unfold PyNum.todecimal.
  destruct (List.find _ PyNum.decimal_runs) as [a|] eqn:Hfind; [|discriminate].
  intros [= <-]. apply List.find_some in Hfind as [_ Hrun].
  apply andb_true_iff in Hrun as [Hle Hlt].
  apply N.leb_le in Hle. apply N.ltb_lt in Hlt. lia.
Qed.

(** What the transformation leaves or puts in a text. *)
Lemma elem_of_transform (c : N) (s : str) :
  c ∈ PyNum.transform s -> c ∈ s \/ c = 32%N \/ isdigit c = true \/ c = 63%N.
Proof.
  induction s as [|x s IH]; simpl; [auto|].
  assert (Hrest : c ∈ PyNum.transform s ->
                  c ∈ x :: s \/ c = 32%N \/ isdigit c = true \/ c = 63%N).
  { intros [H|H]%IH; [left; right; exact H|auto]. }
  destruct (x <? 127)%N.
  { intros [->|H]%elem_of_cons; [left; left|auto]. }
  destruct (isspace x).
  { intros [->|H]%elem_of_cons; auto. }
  destruct (PyNum.todecimal x) as [d|] eqn:Hd.
  - intros [->|H]%elem_of_cons; [|auto].
    right. right. left. apply todecimal_lt in Hd.
    unfold isdigit. apply andb_true_iff. split; apply N.leb_le; lia.
  - intros [->|H]%elem_of_cons; [auto|inversion H].
Qed.

Lemma elem_of_to_ascii (c : N) (s : str) :
  c ∈ PyNum.to_ascii s -> c ∈ s \/ c = 32%N \/ isdigit c = true \/ c = 63%N.
Proof.
  unfold PyNum.to_ascii. destruct (PyNum.is_ascii s); [auto|apply elem_of_transform].
Qed.

(** A code point that is neither ASCII nor white space nor a decimal digit
    leaves a ['?'] in the transformed text. *)
Lemma to_ascii_cut (c : N) (s : str) :
  c ∈ s -> (128 <= c)%N -> isspace c = false -> PyNum.todecimal c = None ->
  63%N ∈ PyNum.to_ascii s.
Proof.
  intros Hin Hc Hsp Hd. unfold PyNum.to_ascii.
  assert (Hascii : PyNum.is_ascii s = false).
  { unfold PyNum.is_ascii. induction s as [|x s IH]; [inversion Hin|]. simpl.
    apply elem_of_cons in Hin as [<-|Hin].
    - destruct (N.ltb_spec c 128); [lia|reflexivity].
    - rewrite (IH Hin). apply andb_false_r. }
  rewrite Hascii. clear Hascii.
  induction s as [|x s IH]; [inversion Hin|]. simpl.
  destruct (x <? 127)%N eqn:Hx.
  { apply elem_of_cons in Hin as [<-|Hin]; [apply N.ltb_lt in Hx; lia|].
    right. exact (IH Hin). }
  destruct (isspace x) eqn:Hxs.
  { apply elem_of_cons in Hin as [<-|Hin]; [congruence|]. right. exact (IH Hin). }
  destruct (PyNum.todecimal x) eqn:Hxd; [|left].
  apply elem_of_cons in Hin as [<-|Hin]; [congruence|]. right. exact (IH Hin).
Qed.

(** [int()] and [float()] read the decimal digits of every script (here
    Arabic-Indic and full-width ones); they do not skip the separators
    U+001C to U+001F, which [str.strip()] removes; and [int()] refuses a
    numeral of more than 4300 digits. *)
Lemma int_float_beyond_ascii :
  PyNum.int [1635; 1636]%N = Ok 34 /\
  PyNum.int [65304; 65296; 65304; 65296]%N = Ok 8080 /\
  PyNum.float [65297; 65298; 46; 65301]%N = Ok 12.5%float /\
  PyNum.int [31; 55]%N = Raise ValueError /\
  PyNum.float [31; 55]%N = Raise ValueError /\
  Pipeline.parse_total_count (Some [44; 31; 55]%N) = Raise ValueError /\
  PyNum.int (repeat 49%N 4300) <> Raise ValueError /\
  PyNum.int (repeat 49%N 4301) = Raise ValueError.
Proof.
  repeat split; try (vm_compute; reflexivity). vm_compute. discriminate.
Qed.

(** The digits read are decimal digits, what is consumed is made of
    digits and underscores, and it starts with a digit when there is one. *)
Lemma read_digits_spec (n : nat) (s : str) (ds : list Z) (r : str) :
  (length s <= n)%nat ->
  PyNum.read_digits s = (ds, r) ->
  Forall (fun d => 0 <= d) ds /\
  (exists pre, s = pre ++ r /\ Forall PyNum.numeral_char pre) /\
  (ds <> [] -> exists c s', s = c :: s' /\ isdigit c = true).
Proof.
  revert s ds r. induction n as [|n IH]; intros s ds r Hn H.
  - destruct s; [|simpl in Hn; lia]. injection H as <- <-.
    repeat split; [constructor|exists []; auto|congruence].
  - destruct s as [|c s']; [injection H as <- <-;
      repeat split; [constructor|exists []; auto|congruence]|].
    simpl in Hn. cbn [PyNum.read_digits] in H.
    destruct (isdigit c) eqn:Hc;
      [|injection H as <- <-; repeat split; [constructor|exists []; auto|congruence]].
    assert (Hd : 0 <= digit_value c).
    { unfold isdigit, digit_value in *. apply andb_true_iff in Hc as [H1 _].
      apply N.leb_le in H1. lia. }
    assert (Hstep : forall t, (length t <= n)%nat ->
              forall pre0, s' = pre0 ++ t -> Forall PyNum.numeral_char pre0 ->
              (let (ds0, r0) := PyNum.read_digits t in (digit_value c :: ds0, r0)) = (ds, r) ->
              Forall (fun d => 0 <= d) ds /\
              (exists pre, c :: s' = pre ++ r /\ Forall PyNum.numeral_char pre) /\
              (ds <> [] -> exists c0 s0, c :: s' = c0 :: s0 /\ isdigit c0 = true)).
    { intros t Ht pre0 Hpre0 Hnum Ht2.
      destruct (PyNum.read_digits t) as [ds0 r0] eqn:Hrd. injection Ht2 as <- <-.
      destruct (IH t ds0 r0 Ht Hrd) as (Hds & (pre & -> & Hpre) & _).
      repeat split; [constructor; assumption| |eauto].
      exists (c :: pre0 ++ pre). split; [simpl; rewrite Hpre0, app_assoc; reflexivity|].
      constructor; [left; assumption|]. apply Forall_app; auto. }
    destruct s' as [|u [|d s'']].
    + apply (Hstep [] ltac:(simpl; lia) [] eq_refl ltac:(constructor) H).
    + apply (Hstep [u] ltac:(simpl in *; lia) [] eq_refl ltac:(constructor) H).
    + destruct ((u =? underscore)%N && isdigit d) eqn:Hu.
      * apply andb_true_iff in Hu as [Hu _]. apply N.eqb_eq in Hu. subst u.
        apply (Hstep (d :: s'') ltac:(simpl in *; lia) [underscore] eq_refl); [|exact H].
        constructor; [right; reflexivity|constructor].
      * apply (Hstep (u :: d :: s'') ltac:(simpl in *; lia) [] eq_refl ltac:(constructor) H).
Qed.

Lemma decimal_nonneg (ds : list Z) : Forall (fun d => 0 <= d) ds -> 0 <= PyNum.decimal ds.
Proof.
  unfold PyNum.decimal.
  assert (H : forall acc, 0 <= acc -> Forall (fun d => 0 <= d) ds ->
                0 <= fold_left (fun a d => 10 * a + d) ds acc).
  { induction ds as [|d ds IH]; simpl; intros acc Hacc Hds; [assumption|].
    inversion Hds; subst. apply IH; [lia|assumption]. }
  apply H. lia.
Qed.

Lemma int_Ok_inv (x : str) (z : Z) :
  PyNum.int x = Ok z ->
  exists neg body ds,
    PyNum.read_sign (PyNum.trim (PyNum.to_ascii x)) = (neg, body) /\
    PyNum.read_digits body = (ds, []) /\ ds <> [] /\
    z = if neg then - PyNum.decimal ds else PyNum.decimal ds.
Proof.
  unfold PyNum.int.
  destruct (PyNum.read_sign (PyNum.trim (PyNum.to_ascii x))) as [neg body] eqn:Hs.
  destruct (PyNum.read_digits body) as [[|d ds] [|c r]] eqn:Hrd; try discriminate.
  destruct (PyNum.max_str_digits <? _)%nat; [discriminate|].
  intros [= <-]. exists neg, body, (d :: ds). auto.
Qed.

Lemma read_sign_inv (s : str) (neg : bool) (body : str) :
  PyNum.read_sign s = (neg, body) ->
  (s = body /\ neg = false) \/
  (s = 45%N :: body /\ neg = true) \/ (s = 43%N :: body /\ neg = false).
Proof.
  destruct s as [|c s]; simpl; [intros [= <- <-]; auto|].
  destruct (N.eqb_spec c 45); [intros [= <- <-]; subst; auto|].
  destruct (N.eqb_spec c 43); intros [= <- <-]; subst; auto.
Qed.

(** An integer numeral without a minus sign is not negative. *)
Lemma int_nonneg (x : str) (z : Z) : PyNum.int x = Ok z -> 45%N ∉ x -> 0 <= z.
Proof.
  intros (neg & body & ds & Hsign & Hrd & _ & ->)%int_Ok_inv Hminus.
  destruct (read_digits_spec _ _ _ _ (le_n _) Hrd) as (Hds & _ & _).
  destruct (read_sign_inv _ _ _ Hsign) as [[_ ->]|[[Hs ->]|[_ ->]]];
    try (apply decimal_nonneg; assumption).
  exfalso.
  assert (Hin : 45%N ∈ PyNum.to_ascii x) by (apply elem_of_trim; rewrite Hs; left).
  destruct (elem_of_to_ascii _ _ Hin) as [H|[H|[H|H]]]; [exact (Hminus H)| | |];
    discriminate.
Qed.

(** The currency symbol occurs in no integer numeral. *)
Lemma int_no_yen (x : str) (z : Z) : PyNum.int x = Ok z -> yen ∉ x.
Proof.
  intros (neg & body & ds & Hsign & Hrd & _ & _)%int_Ok_inv Hyen.
  assert (Hcut : 63%N ∈ PyNum.to_ascii x).
  { apply (to_ascii_cut yen); [exact Hyen|vm_compute; discriminate|reflexivity|reflexivity]. }
  destruct (read_digits_spec _ _ _ _ (le_n _) Hrd) as (_ & (pre & Hpre & Hnum) & _).
  rewrite app_nil_r in Hpre. subst pre.
  assert (Hbody : 63%N ∉ body).
  { intros Hin. rewrite Forall_forall in Hnum. destruct (Hnum _ Hin); discriminate. }
  assert (Htrim : 63%N ∉ PyNum.trim (PyNum.to_ascii x)).
  { destruct (read_sign_inv _ _ _ Hsign) as [[-> _]|[[-> _]|[-> _]]]; [assumption| |];
      intros [?|?]%elem_of_cons; try discriminate; contradiction. }
  destruct (trim_spec (PyNum.to_ascii x)) as (l & r & Hx & Hl & Hr).
  rewrite Hx, !elem_of_app in Hcut. rewrite Forall_forall in Hl, Hr.
  destruct Hcut as [Hin|[Hin|Hin]]; [apply Hl in Hin|contradiction|apply Hr in Hin];
    discriminate.
Qed.

(** What is numeric for [int()] is numeric for [float()]. *)
Lemma int_float (x : str) (z : Z) : PyNum.int x = Ok z -> exists f, PyNum.float x = Ok f.
Proof.
  intros (neg & body & ds & Hsign & Hrd & Hne & _)%int_Ok_inv.
  destruct (read_digits_spec _ _ _ _ (le_n _) Hrd) as (_ & _ & Hfirst).
  destruct (Hfirst Hne) as (c & s' & -> & Hc).
  assert (Hlow : lower c = c /\ (c <= 57)%N).
  { unfold isdigit, lower in *. apply andb_true_iff in Hc as [H1 H2].
    apply N.leb_le in H1, H2. split; [|assumption].
    destruct (N.leb_spec 65 c); [lia|reflexivity]. }
  destruct Hlow as [Hlow Hle].
  unfold PyNum.float. rewrite Hsign. cbn [map]. rewrite Hlow.
  rewrite !bool_decide_eq_false_2; cycle 1.
  { intros [= -> _]. vm_compute in Hle. congruence. }
  { intros [= -> _]. vm_compute in Hle. congruence. }
  { intros [= -> _]. vm_compute in Hle. congruence. }
  cbn [orb]. rewrite Hrd. rewrite app_nil_r.
  destruct ds as [|d ds]; [congruence|]. eauto.
Qed.

(** ** Aggregate statistics *)

Lemma if_text_nonempty {A : Type} (s : str) (then_ : str -> A) (else_ : A) :
  s <> [] -> Pipeline.if_text (Some s) then_ else_ = then_ s.
Proof. destruct s; [congruence|reflexivity]. Qed.

Lemma if_text_falsy {A : Type} (text : option str) (then_ : str -> A) (else_ : A) :
  truthy text = false -> Pipeline.if_text text then_ else_ = else_.
Proof. destruct text as [[|c s]|]; [reflexivity|discriminate|reflexivity]. Qed.

Lemma truthy_nonempty (text : option str) :
  truthy text = true <-> exists s, text = Some s /\ s <> [].
Proof.
  destruct text as [[|c s]|]; simpl; split; try discriminate; eauto.
  - intros (s & [= <-] & H). congruence.
  - intros (s & [=] & _).
Qed.

Lemma if_text_field_is {A : Type} (text : option str) (coerce : str -> result A)
    (zero v : A) :
  Pipeline.if_text text coerce (Ok zero) = Ok v ->
  Pipeline.field_is text coerce zero v.
Proof.
  intros H. split.
  - intros Hf. rewrite if_text_falsy in H by assumption. congruence.
  - intros s -> Ht. apply truthy_nonempty in Ht as (s' & [= <-] & Hne).
    rewrite if_text_nonempty in H by assumption. exact H.
Qed.

Lemma parse_stats_Ok (pg : Pipeline.page) (st : Pipeline.total_stats) :
  Pipeline.parse_stats pg = Ok st ->
  Pipeline.parse_total_count (Pipeline.total_count_text pg) = Ok (Pipeline.total_count st) /\
  Pipeline.parse_amount (Pipeline.total_amount_text pg) = Ok (Pipeline.total_amount st) /\
  Pipeline.parse_amount (Pipeline.average_amount_text pg) = Ok (Pipeline.average_amount st) /\
  Pipeline.parse_success_rate (Pipeline.success_rate_text pg) = Ok (Pipeline.success_rate st).
Proof.
  unfold Pipeline.parse_stats.
  destruct (Pipeline.parse_total_count _) as [tc|?]; [|discriminate].
  destruct (Pipeline.parse_amount (Pipeline.total_amount_text pg)) as [ta|?]; [|discriminate].
  destruct (Pipeline.parse_amount (Pipeline.average_amount_text pg)) as [aa|?]; [|discriminate].
  destruct (Pipeline.parse_success_rate _) as [sr|?]; [|discriminate].
  intros [= <-]. auto.
Qed.

(** When [parse_stats] raises, a text that is there was refused. *)
Lemma parse_stats_Raise (pg : Pipeline.page) (ex : exn) :
  Pipeline.parse_stats pg = Raise ex ->
  exists s, s <> [] /\
    ((Pipeline.total_count_text pg = Some s /\ Pipeline.coerce_count s = Raise ex) \/
     (Pipeline.total_amount_text pg = Some s /\ Pipeline.coerce_amount s = Raise ex) \/
     (Pipeline.average_amount_text pg = Some s /\ Pipeline.coerce_amount s = Raise ex) \/
     (Pipeline.success_rate_text pg = Some s /\ Pipeline.coerce_rate s = Raise ex)).
Proof.
  assert (Hfield : forall A text (coerce : str -> result A) zero,
            Pipeline.if_text text coerce (Ok zero) = Raise ex ->
            exists s, s <> [] /\ text = Some s /\ coerce s = Raise ex).
  { intros A [[|c s]|] coerce zero H; try discriminate. exists (c :: s). auto. }
  unfold Pipeline.parse_stats. intros H.
  destruct (Pipeline.parse_total_count _) as [tc|e1] eqn:H1; cbn in H;
    [|injection H as ->; apply Hfield in H1 as (s & ? & ? & ?); exists s; auto].
  destruct (Pipeline.parse_amount (Pipeline.total_amount_text pg)) as [ta|e2] eqn:H2; cbn in H;
    [|injection H as ->; apply Hfield in H2 as (s & ? & ? & ?); exists s; auto].
  destruct (Pipeline.parse_amount (Pipeline.average_amount_text pg)) as [aa|e3] eqn:H3; cbn in H;
    [|injection H as ->; apply Hfield in H3 as (s & ? & ? & ?); exists s; auto 6].
  destruct (Pipeline.parse_success_rate _) as [sr|e4] eqn:H4; cbn in H;
    [discriminate|injection H as ->; apply Hfield in H4 as (s & ? & ? & ?); exists s; auto 7].
Qed.

Lemma query_data_stats e remote now p u sd ed s qr s' :
  Pipeline.query_data e remote now p u sd ed s = Some (Ok qr, s') ->
  exists pg, remote p u sd ed = Ok pg /\ Pipeline.parse_stats pg = Ok (Pipeline.stats qr).
Proof.
  intros Hq.
  destruct (query_data_Ok _ _ _ _ _ _ _ _ _ _ Hq) as (pg & st & rs & Hpg & Hx & _ & Hst).
  exists pg. split; [assumption|]. unfold Pipeline.extract in Hx.
  destruct (Pipeline.parse_stats pg) as [st'|?]; [|discriminate]. simpl in Hx.
  destruct (Pipeline.extract_rows _); [|discriminate]. simpl in Hx. congruence.
Qed.

(** C7 (as amended). In the stats of a result each aggregate is the default
    0 when the text of its element is missing or empty, and otherwise the
    coercion of the text, stripped of surrounding whitespace and then: of
    commas only for [total_count] (read by [int]); of commas and of the
    currency symbol for [total_amount] and [average_amount] (read by
    [float]); of the percent sign only for [success_rate] (read by [float]
    and divided by 100).  A missing or empty text never fails the call:
    when the aggregates cannot be parsed, a text that is there was refused
    by its coercion. *)
Theorem aggregate_fields_parsing e remote now p u sd ed s qr s' :
  Pipeline.query_data e remote now p u sd ed s = Some (Ok qr, s') ->
  exists pg,
    remote p u sd ed = Ok pg /\
    Pipeline.field_is (Pipeline.total_count_text pg)
      (fun t => PyNum.int (replace comma [] (strip t)))
      0 (Pipeline.total_count (Pipeline.stats qr)) /\
    Pipeline.field_is (Pipeline.total_amount_text pg)
      (fun t => f ← PyNum.float (replace yen [] (replace comma [] (strip t)));
                Ok (PyNum.Float f))
      (PyNum.Int 0) (Pipeline.total_amount (Pipeline.stats qr)) /\
    Pipeline.field_is (Pipeline.average_amount_text pg)
      (fun t => f ← PyNum.float (replace yen [] (replace comma [] (strip t)));
                Ok (PyNum.Float f))
      (PyNum.Int 0) (Pipeline.average_amount (Pipeline.stats qr)) /\
    Pipeline.field_is (Pipeline.success_rate_text pg)
      (fun t => f ← PyNum.float (replace percent [] (strip t));
                Ok (PyNum.Float (f / 100)%float))
      (PyNum.Int 0) (Pipeline.success_rate (Pipeline.stats qr)) /\
    (forall pg' ex,
       Pipeline.parse_stats pg' = Raise ex ->
       exists t, t <> [] /\
         ((Pipeline.total_count_text pg' = Some t /\ Pipeline.coerce_count t = Raise ex) \/
          (Pipeline.total_amount_text pg' = Some t /\ Pipeline.coerce_amount t = Raise ex) \/
          (Pipeline.average_amount_text pg' = Some t /\ Pipeline.coerce_amount t = Raise ex) \/
          (Pipeline.success_rate_text pg' = Some t /\ Pipeline.coerce_rate t = Raise ex))).
Proof.
  intros Hq. destruct (query_data_stats _ _ _ _ _ _ _ _ _ _ Hq) as (pg & Hpg & Hst).
  apply parse_stats_Ok in Hst as (Htc & Hta & Haa & Hsr).
  exists pg. split; [assumption|].
  repeat split; try (apply if_text_field_is; assumption);
    try (apply (if_text_field_is _ _ _ _ Htc)); try (apply (if_text_field_is _ _ _ _ Hta));
    try (apply (if_text_field_is _ _ _ _ Haa)); try (apply (if_text_field_is _ _ _ _ Hsr)).
  apply parse_stats_Raise.
Qed.

(** C8 (as amended). [stats.total_count] is an integer: 0 when the text of
    the count is missing or empty, otherwise the integer the text denotes
    once commas are removed, hence not negative as long as the text holds
    no minus sign.  [stats.success_rate] is 0 when its text is missing or
    empty, otherwise the number in the text, percent sign removed, divided
    by 100.  Neither is compared with a bound. *)
Theorem stats_bounds_unchecked e remote now p u sd ed s qr s' :
  Pipeline.query_data e remote now p u sd ed s = Some (Ok qr, s') ->
  exists pg,
    remote p u sd ed = Ok pg /\
    Pipeline.field_is (Pipeline.total_count_text pg)
      (fun t => PyNum.int (replace comma [] (strip t)))
      0 (Pipeline.total_count (Pipeline.stats qr)) /\
    ((forall t, Pipeline.total_count_text pg = Some t -> 45%N ∉ t) ->
     0 <= Pipeline.total_count (Pipeline.stats qr)) /\
    Pipeline.field_is (Pipeline.success_rate_text pg)
      (fun t => f ← PyNum.float (replace percent [] (strip t));
                Ok (PyNum.Float (f / 100)%float))
      (PyNum.Int 0) (Pipeline.success_rate (Pipeline.stats qr)).
Proof.
  intros Hq. destruct (query_data_stats _ _ _ _ _ _ _ _ _ _ Hq) as (pg & Hpg & Hst).
  apply parse_stats_Ok in Hst as (Htc & _ & _ & Hsr).
  exists pg. split; [assumption|].
  pose proof (if_text_field_is _ _ _ _ Htc) as [Hzero Hcount].
  split; [split; assumption|]. split; [|exact (if_text_field_is _ _ _ _ Hsr)].
  intros Hminus.
  destruct (truthy (Pipeline.total_count_text pg)) eqn:Ht; [|rewrite Hzero; [lia|reflexivity]].
  destruct (Pipeline.total_count_text pg) as [t|] eqn:Htext; [|discriminate].
  eapply int_nonneg; [exact (Hcount t eq_refl eq_refl)|].
  intros Hin%elem_of_replace_nil%elem_of_strip. exact (Hminus t eq_refl Hin).
Qed.

(** ** Coercion failures *)

Lemma int_Raise (x : str) (ex : exn) : PyNum.int x = Raise ex -> ex = ValueError.
Proof.
  unfold PyNum.int. destruct (PyNum.read_sign _) as [neg body].
  destruct (PyNum.read_digits body) as [[|d ds] [|c r]]; try congruence.
  destruct (PyNum.max_str_digits <? _)%nat; congruence.
Qed.

(** Text that [float()] refuses once commas and the currency symbol are
    removed is refused by [int()] once commas are removed. *)
Lemma not_numeric_count (t : str) :
  Claimed.not_numeric t -> PyNum.int (replace comma [] (strip t)) = Raise ValueError.
Proof.
  unfold Claimed.not_numeric, Claimed.strip_separators. intros Hnot.
  destruct (PyNum.int (replace comma [] (strip t))) as [z|ex] eqn:Hint.
  - rewrite (replace_absent yen) in Hnot by (eapply int_no_yen; eassumption).
    destruct (int_float _ _ Hint) as [f Hf]. congruence.
  - f_equal. eapply int_Raise; eassumption.
Qed.

Lemma for_each_Raise {A B : Type} (f : A -> result B) (l : list A) (a : A) (ex : exn) :
  a ∈ l -> f a = Raise ex -> exists ex', for_each f l = Raise ex'.
Proof.
  induction l as [|x l IH]; intros Hin Hf; [inversion Hin|].
  simpl. destruct (f x) as [b|e] eqn:Hx; [|eauto].
  apply elem_of_cons in Hin as [->|Hin]; [congruence|].
  destruct (IH Hin Hf) as [ex' ->]. eauto.
Qed.

Lemma row_record_bad_amount (cells : list (option str)) (a : str) (ex : exn) :
  cells !! 2%nat = Some (Some a) ->
  PyNum.float (replace yen [] (replace comma [] (strip a))) = Raise ex ->
  exists ex', Pipeline.row_record cells = Raise ex'.
Proof.
  intros Hc Ha.
  assert (H2 : Pipeline.cell_strip cells 2 = Ok (strip a)).
  { unfold Pipeline.cell_strip, Pipeline.cell_text. rewrite Hc. reflexivity. }
  unfold Pipeline.row_record.
  destruct (Pipeline.cell_strip cells 0) as [i|?]; [|cbn; eauto].
  destruct (Pipeline.cell_strip cells 1) as [d|?]; [|cbn; eauto].
  rewrite H2. cbn. rewrite Ha. cbn. eauto.
Qed.

Lemma parse_amount_refused (text : option str) (t : str) :
  text = Some t -> t <> [] ->
  PyNum.float (replace yen [] (replace comma [] (strip t))) = Raise ValueError ->
  Pipeline.parse_amount text = Raise ValueError.
Proof.
  intros -> Hne Hc. unfold Pipeline.parse_amount.
  rewrite if_text_nonempty by assumption. rewrite Hc. reflexivity.
Qed.

Lemma coercion_fails_extract (pg : Pipeline.page) :
  Pipeline.coercion_fails pg -> exists ex, Pipeline.extract pg = Raise ex.
Proof.
  unfold Pipeline.extract, Pipeline.parse_stats.
  intros [(t & Ht & Hne & Hc)|[(t & Ht & Hne & Hc)|[(t & Ht & Hne & Hc)|
          [(t & Ht & Hne & Hc)|(cells & a & Hin & Hlen & Ha & Hc)]]]].
  - unfold Pipeline.parse_total_count. rewrite Ht, if_text_nonempty by assumption.
    rewrite Hc. cbn. eauto.
  - rewrite (parse_amount_refused _ t Ht Hne Hc).
    destruct (Pipeline.parse_total_count _); cbn; eauto.
  - rewrite (parse_amount_refused (Pipeline.average_amount_text pg) t Ht Hne Hc).
    destruct (Pipeline.parse_total_count _); [|cbn; eauto].
    destruct (Pipeline.parse_amount _); cbn; eauto.
  - assert (Hsr : Pipeline.parse_success_rate (Pipeline.success_rate_text pg)
                  = Raise ValueError).
    { unfold Pipeline.parse_success_rate. rewrite Ht, if_text_nonempty by assumption.
      rewrite Hc. reflexivity. }
    rewrite Hsr.
    destruct (Pipeline.parse_total_count _); [|cbn; eauto].
    destruct (Pipeline.parse_amount (Pipeline.total_amount_text pg)); [|cbn; eauto].
    destruct (Pipeline.parse_amount _); cbn; eauto.
  - destruct (row_record_bad_amount _ _ _ Ha Hc) as [ex1 Hrow].
    assert (Hrows : exists ex2, Pipeline.extract_rows (Pipeline.rows pg) = Raise ex2).
    { rewrite extract_rows_filter. eapply for_each_Raise; [|exact Hrow].
      apply list_elem_of_filter. auto. }
    destruct Hrows as [ex2 ->].
    destruct (Pipeline.parse_total_count _); [|cbn; eauto].
    destruct (Pipeline.parse_amount (Pipeline.total_amount_text pg)); [|cbn; eauto].
    destruct (Pipeline.parse_amount (Pipeline.average_amount_text pg)); [|cbn; eauto].
    destruct (Pipeline.parse_success_rate _); cbn; eauto.
Qed.

(** C10 (as amended). The default of 0 is for missing and empty text only.
    When the text of [total_count], [total_amount] or [average_amount] is
    there and is not numeric once commas and the currency symbol are
    removed, when the text of [success_rate] is there and is not numeric
    once the percent sign is removed, or when a row of five cells or more
    has an amount cell that is not numeric once commas and the currency
    symbol are removed, the coercion raises and the exception leaves
    [query_data]: the call returns no result, and the decorated function
    raises too and stores nothing.  Once a browsing context has been
    obtained, the exception that leaves is the one the extraction raised.
    [int()] and [float()] are those of CPython: they also read the decimal
    digits of other scripts, so that text written with them is numeric. *)
Theorem coercion_failure_propagates e remote now p u sd ed s pg :
  Resource.browser_lock s = false ->
  remote p u sd ed = Ok pg ->
  Pipeline.coercion_fails pg ->
  (exists ex s', Pipeline.query_data e remote now p u sd ed s = Some (Raise ex, s')) /\
  (forall ctx s',
     Resource.get_browser_context e s = Some (Ok ctx, s') ->
     exists ex,
       Pipeline.extract pg = Raise ex /\
       Pipeline.query_data e remote now p u sd ed s = Some (Raise ex, s')) /\
  (forall key clk (query_cache : gmap str (Pipeline.QueryResult * Z)),
     Cache.fresh_entry config.CACHE_timeout key (Cache.t_check clk) query_cache = None ->
     exists ex s',
       Cache.query_data e remote now p u sd ed key clk query_cache s
       = Some (Raise ex, query_cache, s')) /\
  (forall t, Claimed.not_numeric t ->
     PyNum.int (replace comma [] (strip t)) = Raise ValueError /\
     PyNum.float (replace yen [] (replace comma [] (strip t))) = Raise ValueError).
Proof.
  intros Hl Hpg Hfail.
  destruct (coercion_fails_extract pg Hfail) as [ex0 Hx].
  destruct (query_data_extract_raises e remote now p u sd ed s pg ex0 Hl Hpg Hx)
    as (ex & s' & Hq).
  split; [eauto|]. split; [|split].
  - intros ctx s1 Hctx. exists ex0. split; [exact Hx|].
    unfold Pipeline.query_data. rewrite Hctx, Hpg. simpl. rewrite Hx. reflexivity.
  - intros key clk query_cache Hmiss. exists ex, s'.
    unfold Cache.query_data, Cache.wrapper. rewrite Hmiss, Hq. reflexivity.
  - intros t Hnot. split; [apply not_numeric_count; assumption|exact Hnot].
Qed.

(* ===================================================================== *)
(** * The properties at concrete inputs                                   *)
(* ===================================================================== *)

(** The end-to-end scenario: the record of 12000 earns 12000 x 1.2. *)
Lemma profit_three_tier_witness :
  exists qr s' r,
    Scenario.run Scenario.page_ok = Some (Ok qr, s') /\
    r ∈ Pipeline.data qr /\
    Pipeline.amount r = 12000%float /\
    Pipeline.profit r = Some (12000 * 1.2)%float.
Proof.
  destruct (Scenario.run Scenario.page_ok) as [[[qr|ex] s']|] eqn:Hrun;
    try (vm_compute in Hrun; discriminate).
  destruct (Pipeline.data qr) as [|r rs] eqn:Hdata;
    [vm_compute in Hrun; injection Hrun as <- _; discriminate|].
  assert (Hr : r ∈ Pipeline.data qr) by (rewrite Hdata; left).
  assert (Ha : Pipeline.amount r = 12000%float).
  { vm_compute in Hrun. injection Hrun as <- _. injection Hdata as <- _. reflexivity. }
  exists qr, s', r. split; [reflexivity|]. split; [exact Hr|]. split; [exact Ha|].
  destruct (profit_three_tier _ _ _ _ _ _ _ _ _ _ r Hrun Hr) as (Hhigh & _).
  rewrite Ha in Hhigh. apply Hhigh. reflexivity.
Defined.

(** Of the three rows of the scenario the one of four cells is dropped,
    and the sixth cell of the last row is ignored. *)
Lemma ragged_rows_witness :
  exists qr s',
    Scenario.run Scenario.page_ok = Some (Ok qr, s') /\
    length (Pipeline.rows Scenario.page_ok) = 3%nat /\
    length (Pipeline.data qr) = 2%nat.
Proof.
  destruct (Scenario.run Scenario.page_ok) as [[[qr|ex] s']|] eqn:Hrun;
    try (vm_compute in Hrun; discriminate).
  exists qr, s'. split; [reflexivity|]. split; [reflexivity|].
  destruct (ragged_rows _ _ _ _ _ _ _ _ _ _ Hrun) as (pg & rs & Hpg & _ & Hlen & _).
  injection Hpg as <-. rewrite Hlen. reflexivity.
Defined.

(** A body with the four query values and no credentials. *)
Lemma default_credentials_pass_witness :
  let d : gmap str Api.pyval :=
    <[lit "project_id" := Api.VStr (lit "P1")]>
      (<[lit "uk_code" := Api.VStr (lit "UK9")]>
         (<[lit "start_date" := Api.VStr (lit "2024-01-01")]>
            (<[lit "end_date" := Api.VStr (lit "2024-01-31")]> ∅))) in
  let found : Pipeline.QueryResult :=
    {| Pipeline.data := [];
       Pipeline.stats :=
         {| Pipeline.total_count := 0; Pipeline.total_amount := PyNum.Int 0;
            Pipeline.average_amount := PyNum.Int 0; Pipeline.success_rate := PyNum.Int 0 |};
       Pipeline.info :=
         {| Pipeline.project_id := lit "P1"; Pipeline.uk_code := lit "UK9";
            Pipeline.start_date := lit "2024-01-01"; Pipeline.end_date := lit "2024-01-31";
            Pipeline.timestamp := lit "2024-02-01T09:00:00" |} |} in
  let query : Api.pyval -> Api.pyval -> Api.pyval -> Api.pyval -> result Pipeline.QueryResult :=
    fun p _ _ _ => if Api.eq_str p (lit "P1") then Ok found else Raise PlaywrightTimeoutError in
  Api.validate_api_key config.fallback
    (Api.get d (lit "auth_key") (Api.VStr (config.DEFAULT_AUTH_KEY config.fallback)))
    (Api.get d (lit "app_id") (Api.VStr (config.DEFAULT_APP_ID config.fallback))) = true /\
  Api.api_query config.fallback query (Api.VDict d) = Ok (Api.success found) /\
  Api.status_code (Api.error_handler (Api.api_query config.fallback query (Api.VDict d)))
  = 200.
Proof.
  intros d found query.
  destruct (default_credentials_pass config.fallback d query) as (_ & _ & Hv & Hrun & _);
    [vm_compute; reflexivity|vm_compute; reflexivity|].
  split; [exact Hv|].
  destruct Hrun as [Hresp Hcode]; [vm_compute; reflexivity|].
  split; [rewrite Hresp|rewrite Hcode]; vm_compute; reflexivity.
Defined.

(** Expiry: an entry stored at 1000 with a timeout of 300 is served at
    1299 and recomputed at 1300. *)
Lemma getOrCompute_hit_and_miss_witness :
  Cache.wrapper 300 (Cache.counting 33%nat) Scenario.k1 (Scenario.clock_at 1299)
    Scenario.two_entries 0%nat
  = Some (Ok 11%nat, Scenario.two_entries, 0%nat) /\
  exists cache',
    Cache.wrapper 300 (Cache.counting 33%nat) Scenario.k1 (Scenario.clock_at 1300)
      Scenario.two_entries 0%nat
    = Some (Ok 33%nat, cache', 1%nat) /\
    cache' !! Scenario.k1 = Some (33%nat, 1300).
Proof.
  split.
  - destruct (getOrCompute_hit_and_miss 300 (Cache.counting 33%nat) Scenario.k1
                (Scenario.clock_at 1299) Scenario.two_entries 0%nat) as [Hhit _].
    apply (Hhit 11%nat 1000); [vm_compute; reflexivity|simpl; lia].
  - destruct (getOrCompute_hit_and_miss 300 (Cache.counting 33%nat) Scenario.k1
                (Scenario.clock_at 1300) Scenario.two_entries 0%nat) as [_ Hmiss].
    destruct (Hmiss 33%nat) as [Hstore _].
    { right. exists 11%nat, 1000. split; [vm_compute; reflexivity|simpl; lia]. }
    destruct (Hstore 1%nat eq_refl) as (cache' & Hw & _ & Hkept).
    exists cache'. split; [exact Hw|]. apply Hkept. simpl. lia.
Defined.

(** C4, the claim as it stands fails.  With a timeout of 300: a call served
    from the cache at time 1001 leaves in place an entry stored at time 0;
    and a store at time 300 leaves in place an entry stored at time 0,
    whose age is not below the timeout. *)
Lemma stale_entries_counterexample :
  (Cache.wrapper 300 (Cache.counting 33%nat) Scenario.k1 (Scenario.clock_at 1001)
     Scenario.two_entries 0%nat
   = Some (Ok 11%nat, Scenario.two_entries, 0%nat) /\
   Scenario.two_entries !! Scenario.k2 = Some (22%nat, 0) /\
   ~ (1001 - 0 < 300)) /\
  (exists cache',
     Cache.wrapper 300 (Cache.counting 33%nat) Scenario.k1 (Scenario.clock_at 300)
       Scenario.one_entry 0%nat
     = Some (Ok 33%nat, cache', 1%nat) /\
     cache' !! Scenario.k2 = Some (22%nat, 0) /\
     ~ (300 - 0 < 300)).
Proof.
  split.
  - split; [vm_compute; reflexivity|]. split; [vm_compute; reflexivity|lia].
  - eexists. split; [reflexivity|]. split; [vm_compute; reflexivity|lia].
Qed.

Lemma purge_only_after_store_witness :
  let cache' := Cache.store 300 Scenario.k1 33%nat 1301 1301 Scenario.two_entries in
  Cache.wrapper 300 (Cache.counting 33%nat) Scenario.k1 (Scenario.clock_at 1301)
    Scenario.two_entries 0%nat
  = Some (Ok 33%nat, cache', 1%nat) /\
  cache' !! Scenario.k2 = None /\
  forall k v T, cache' !! k = Some (v, T) -> 1301 - T <= 300.
Proof.
  intros cache'.
  assert (Hw : Cache.wrapper 300 (Cache.counting 33%nat) Scenario.k1 (Scenario.clock_at 1301)
                 Scenario.two_entries 0%nat
               = Some (Ok 33%nat, cache', 1%nat)) by (vm_compute; reflexivity).
  split; [exact Hw|]. split; [vm_compute; reflexivity|].
  destruct (purge_only_after_store _ _ _ _ _ _ _ _ _ Hw) as (_ & _ & _ & Hstore).
  destruct (Hstore ltac:(vm_compute; reflexivity) 33%nat eq_refl) as (_ & Hold & _).
  exact Hold.
Defined.

(** Two callers of the same key over an expired entry, each fetch
    returning its rank: both fetch. *)
Lemma concurrent_misses_both_fetch_witness :
  let func : nat -> result nat := fun n => Ok n in
  let run :=
    Concurrent.exec 300 Scenario.k2 func
      (Concurrent.overlap
       ++ Concurrent.finish_call Concurrent.A (func 0%nat)
       ++ Concurrent.finish_call Concurrent.B (func 1%nat))
      (Concurrent.start Scenario.one_entry 300) in
  Cache.fresh_entry 300 Scenario.k2 300 Scenario.one_entry = None /\
  Concurrent.fetches <$> run = Some 2%nat /\
  Concurrent.pc_a <$> run = Some (Concurrent.Returned 0%nat) /\
  Concurrent.pc_b <$> run = Some (Concurrent.Returned 1%nat).
Proof.
  intros func run.
  assert (Hmiss : Cache.fresh_entry 300 Scenario.k2 300 Scenario.one_entry = None)
    by (vm_compute; reflexivity).
  split; [exact Hmiss|].
  destruct (concurrent_misses_both_fetch 300 Scenario.k2 func Scenario.one_entry 300 Hmiss)
    as (_ & _ & Hall & _).
  destruct run as [fin|] eqn:Hrun; [|vm_compute in Hrun; discriminate].
  assert (Ha : Concurrent.pc_a fin = Concurrent.Returned 0%nat)
    by (vm_compute in Hrun; injection Hrun as <-; reflexivity).
  assert (Hb : Concurrent.pc_b fin = Concurrent.Returned 1%nat)
    by (vm_compute in Hrun; injection Hrun as <-; reflexivity).
  destruct (Hall _ fin Hrun) as (_ & _ & Htwo).
  simpl. rewrite Ha, Hb, Htwo; [auto|rewrite Ha; reflexivity|rewrite Hb; reflexivity].
Defined.

(** C1 at the failing state: the runtime 0 has launched the browser 1, and
    the browser has gone away.  The next [get_browser_context], with an
    outside world ready to launch, changes nothing: it hands out a context
    of the browser 1, or raises if the library refuses one on a closed
    browser; the health endpoint then never answers. *)
Lemma get_browser_context_no_relaunch_witness :
  Resource.reachable Scenario.crashed /\
  Resource.disconnected Scenario.crashed /\
  Resource.get_browser_context Resource.healthy_env Scenario.crashed
  = Some (Ok {| Resource.ctx_browser := 1%nat |}, Scenario.crashed) /\
  Resource.get_browser_context Resource.strict_env Scenario.crashed
  = Some (Raise PlaywrightError, Scenario.crashed) /\
  Resource.is_connected Scenario.crashed 1%nat = false /\
  Resource.health_check Resource.healthy_env Scenario.crashed = None.
Proof.
  assert (Hreach : Resource.reachable Scenario.crashed).
  { apply Resource.reach_disconnect.
    apply (Resource.reach_init Resource.healthy_env Resource.initial (Ok tt));
      [apply Resource.reach_initial|vm_compute; reflexivity]. }
  assert (Hdisc : Resource.disconnected Scenario.crashed).
  { exists 1%nat. split; vm_compute; reflexivity. }
  destruct (get_browser_context_no_relaunch Resource.healthy_env Scenario.crashed Hreach Hdisc)
    as (b & Hb & Hc & Hctx & _ & _ & Hhealth).
  destruct (get_browser_context_no_relaunch Resource.strict_env Scenario.crashed Hreach Hdisc)
    as (_ & _ & _ & Hstrict & _).
  assert (Hb1 : b = 1%nat) by (vm_compute in Hb; congruence).
  subst b. repeat split; auto.
Defined.

(** A page without aggregate texts: the four stats are 0 and the call
    returns. *)
Lemma aggregate_fields_parsing_witness :
  exists qr s',
    Scenario.run Scenario.page_no_aggregates = Some (Ok qr, s') /\
    Pipeline.stats qr
    = {| Pipeline.total_count := 0; Pipeline.total_amount := PyNum.Int 0;
         Pipeline.average_amount := PyNum.Int 0; Pipeline.success_rate := PyNum.Int 0 |}.
Proof.
  destruct (Scenario.run Scenario.page_no_aggregates) as [[[qr|ex] s']|] eqn:Hrun;
    try (vm_compute in Hrun; discriminate).
  exists qr, s'. split; [reflexivity|].
  destruct (aggregate_fields_parsing _ _ _ _ _ _ _ _ _ _ Hrun)
    as (pg & Hpg & [Htc _] & [Hta _] & [Haa _] & [Hsr _] & _).
  injection Hpg as <-.
  destruct (Pipeline.stats qr) as [tc ta aa sr]. simpl in *.
  rewrite Htc, Hta, Haa, Hsr; reflexivity.
Defined.

(** C7, the claim as it stands fails.  The count ["¥5"] is numeric once
    the currency symbol is removed, and the rate ["1,000"] once the comma
    is: the code removes neither, the coercion raises and the call fails. *)
Lemma aggregate_stripping_counterexample :
  Claimed.parse_count (Some (yen :: lit "5")) = Ok 5 /\
  Pipeline.parse_total_count (Some (yen :: lit "5")) = Raise ValueError /\
  (exists s', Scenario.run Scenario.page_currency_count = Some (Raise ValueError, s')) /\
  Claimed.parse_decimal (Some (lit "1,000")) = Ok (PyNum.Float 1000) /\
  Pipeline.parse_success_rate (Some (lit "1,000")) = Raise ValueError /\
  (exists s', Scenario.run Scenario.page_comma_rate = Some (Raise ValueError, s')).
Proof.
  repeat split; try (vm_compute; reflexivity); eexists; vm_compute; reflexivity.
Qed.

(** The scenario page: a count of 2 and a rate of 50%. *)
Lemma stats_bounds_unchecked_witness :
  exists qr s',
    Scenario.run Scenario.page_ok = Some (Ok qr, s') /\
    0 <= Pipeline.total_count (Pipeline.stats qr) /\
    PyNum.int (lit "2") = Ok (Pipeline.total_count (Pipeline.stats qr)).
Proof.
  destruct (Scenario.run Scenario.page_ok) as [[[qr|ex] s']|] eqn:Hrun;
    try (vm_compute in Hrun; discriminate).
  exists qr, s'. split; [reflexivity|].
  destruct (stats_bounds_unchecked _ _ _ _ _ _ _ _ _ _ Hrun)
    as (pg & Hpg & [_ Hcount] & Hsign & _).
  injection Hpg as <-. split.
  - apply Hsign. intros t [= <-]. vm_compute. intros Hin.
    repeat (apply elem_of_cons in Hin as [Hin|Hin]; [discriminate|]).
    inversion Hin.
  - apply (Hcount (lit "2")); reflexivity.
Defined.

(** C8, the claim as it stands fails.  A page showing the count ["-5"] and
    the rate ["150%"] yields a result whose [total_count] is negative and
    whose [success_rate] is above 1. *)
Lemma stats_bounds_counterexample :
  exists qr s',
    Scenario.run Scenario.page_out_of_range = Some (Ok qr, s') /\
    Pipeline.total_count (Pipeline.stats qr) = -5 /\
    -5 < 0 /\
    Pipeline.success_rate (Pipeline.stats qr) = PyNum.Float 1.5 /\
    (1 <? 1.5)%float = true.
Proof.
  eexists _, _. split; [vm_compute; reflexivity|].
  repeat split.
Qed.

(** A row of five cells whose amount reads ["n/a"]. *)
Lemma coercion_failure_propagates_witness :
  Pipeline.coercion_fails Scenario.page_bad_amount /\
  exists ex s', Scenario.run Scenario.page_bad_amount = Some (Raise ex, s').
Proof.
  assert (Hfail : Pipeline.coercion_fails Scenario.page_bad_amount).
  { do 4 right. eexists _, (lit "n/a").
    split; [left|]. split; [simpl; lia|]. split; vm_compute; reflexivity. }
  split; [exact Hfail|].
  apply (coercion_failure_propagates Resource.healthy_env
           (Scenario.site_of Scenario.page_bad_amount) (lit "2024-02-01T09:00:00")
           (lit "P1") (lit "UK9") (lit "2024-01-01") (lit "2024-01-31")
           Resource.initial Scenario.page_bad_amount eq_refl eq_refl Hfail).
Defined.

(** C10, the claim as it stands fails.  The rate ["50%"] is there and is
    not numeric once commas and the currency symbol are removed; yet no
    exception is raised: the call returns, with a success rate of 0.5. *)
Lemma percent_text_counterexample :
  Pipeline.success_rate_text Scenario.page_ok = Some (lit "50%") /\
  truthy (Pipeline.success_rate_text Scenario.page_ok) = true /\
  Claimed.not_numeric (lit "50%") /\
  exists qr s',
    Scenario.run Scenario.page_ok = Some (Ok qr, s') /\
    Pipeline.success_rate (Pipeline.stats qr) = PyNum.Float 0.5.
Proof.
  split; [reflexivity|]. split; [reflexivity|]. split; [vm_compute; reflexivity|].
  eexists _, _. split; [vm_compute; reflexivity|reflexivity].
Qed.

(* ===================================================================== *)
(** * Further properties of the code                                      *)
(* ===================================================================== *)

(** ** The resource manager *)

Lemma playwright_component_cases (s : Resource.state) :
  (Resource.playwright_component s = Resource.ok /\
   exists b, Resource.browser_instance s = Some b /\ Resource.is_connected s b = true) \/
  Resource.playwright_component s = Resource.error.
Proof.
  unfold Resource.playwright_component.
  destruct (Resource.browser_instance s) as [b|]; [|auto].
  destruct (Resource.is_connected s b) eqn:Hc; eauto.
Qed.

(** X1. The health endpoint answers only when the browser exists and is
    connected, and then reports "healthy", the component "ok" and status
    200 without touching the globals.  When the component is in error the
    call never returns, whatever the outside world would do: the recovery
    takes [browser_lock] and calls [close_playwright], which takes it
    again.  The endpoint therefore never reports "recovered", "degraded"
    or status 500. *)
Theorem health_check_only_answers_ok (e : Resource.env) (s : Resource.state) :
  (Resource.health_check e s = None <->
   Resource.playwright_component s = Resource.error) /\
  (forall r s',
     Resource.health_check e s = Some (r, s') ->
     s' = s /\
     r = Ok ({| Resource.status_healthy := true; Resource.playwright := Resource.ok |}, 200) /\
     exists b, Resource.browser_instance s = Some b /\ Resource.is_connected s b = true).
Proof.
  destruct (playwright_component_cases s) as [[Hok Hb]|Herr].
  - assert (Hh : Resource.health_check e s
                 = Some (Ok ({| Resource.status_healthy := true;
                                Resource.playwright := Resource.ok |}, 200), s)).
    { unfold Resource.health_check. rewrite Hok. reflexivity. }
    split.
    + rewrite Hh, Hok. split; discriminate.
    + intros r s' H. rewrite Hh in H. injection H as <- <-. auto.
  - assert (Hh : Resource.health_check e s = None).
    { unfold Resource.health_check. rewrite Herr.
      unfold Resource.with_browser_lock. destruct (Resource.browser_lock s); reflexivity. }
    split; [tauto|]. intros r s' H. congruence.
Qed.

Lemma close_playwright_clears (s : Resource.state) :
  Resource.browser_lock s = false ->
  exists s1,
    Resource.close_playwright s = Some (Ok tt, s1) /\
    Resource.playwright_instance s1 = None /\
    Resource.browser_instance s1 = None /\
    Resource.browser_lock s1 = false /\
    Resource.next_handle s1 = Resource.next_handle s.
Proof.
  intros Hl. unfold Resource.close_playwright, Resource.with_browser_lock.
  rewrite Hl. destruct s as [p b l c n]. simpl in *. subst l.
  destruct b as [b|], p as [p|]; eexists; simpl; repeat split; reflexivity.
Qed.

(** X2. With the lock free [close_playwright] always returns normally,
    leaves both globals [None] and the lock free, and calling it again
    changes nothing: shutting down twice, or with nothing running, is
    harmless. *)
Theorem close_playwright_idempotent (s : Resource.state) :
  Resource.browser_lock s = false ->
  exists s1,
    Resource.close_playwright s = Some (Ok tt, s1) /\
    Resource.playwright_instance s1 = None /\
    Resource.browser_instance s1 = None /\
    Resource.browser_lock s1 = false /\
    Resource.close_playwright s1 = Some (Ok tt, s1).
Proof.
  intros Hl. destruct (close_playwright_clears s Hl) as (s1 & Hc & Hp & Hb & Hl1 & _).
  exists s1. repeat split; try assumption.
  unfold Resource.close_playwright, Resource.with_browser_lock.
  rewrite Hl1. destruct s1 as [p b l c n]. simpl in *. subst. reflexivity.
Qed.

(** X3. While the held browser is connected, [get_browser_context] neither
    starts a runtime nor launches a browser, whatever the outside world
    would answer: it returns a context of the held browser and leaves the
    globals as they are.  Successive callers share the one instance. *)
Theorem connected_browser_is_reused (e : Resource.env) (s : Resource.state)
    (b : Resource.handle) :
  Resource.browser_lock s = false ->
  Resource.browser_instance s = Some b ->
  Resource.is_connected s b = true ->
  Resource.get_browser_context e s = Some (Ok {| Resource.ctx_browser := b |}, s).
Proof.
  intros Hl Hb Hc. unfold Resource.get_browser_context, Resource.with_browser_lock.
  rewrite Hl. unfold Resource.needs_init, Resource.new_context.
  destruct s as [p bi l c n]. simpl in *. subst. unfold Resource.is_connected in *.
  simpl in *. rewrite Hc. reflexivity.
Qed.

Lemma first_context_launches (e : Resource.env) (s : Resource.state) :
  Resource.browser_lock s = false ->
  Resource.playwright_instance s = None ->
  Resource.browser_instance s = None ->
  Resource.start_raises e = None ->
  Resource.launch_raises e = None ->
  exists s1,
    let b := S (Resource.next_handle s) in
    Resource.get_browser_context e s = Some (Ok {| Resource.ctx_browser := b |}, s1) /\
    Resource.browser_instance s1 = Some b /\
    Resource.playwright_instance s1 = Some (Resource.next_handle s) /\
    Resource.is_connected s1 b = true /\
    Resource.browser_lock s1 = false.
Proof.
  intros Hl Hp Hb Hs Hla.
  destruct s as [p bi l c n]. simpl in *. subst.
  unfold Resource.get_browser_context, Resource.with_browser_lock, Resource.needs_init,
    Resource.init_playwright, Resource.new_context, Resource.is_connected.
  simpl. rewrite Hs, Hla. simpl.
  rewrite bool_decide_eq_true_2 by set_solver.
  eexists. repeat split; try reflexivity. simpl.
  apply bool_decide_eq_true_2. set_solver.
Qed.

(** X4. The repair that works: from any state with the lock free, also one
    whose browser is disconnected, [close_playwright] followed by
    [get_browser_context] (start and launch succeeding) launches a new
    browser and returns a context of it; the browser is connected and the
    health endpoint then answers 200. *)
Theorem close_then_context_relaunches (e : Resource.env) (s : Resource.state) :
  Resource.browser_lock s = false ->
  Resource.start_raises e = None ->
  Resource.launch_raises e = None ->
  exists s1 s2 b,
    Resource.close_playwright s = Some (Ok tt, s1) /\
    Resource.get_browser_context e s1 = Some (Ok {| Resource.ctx_browser := b |}, s2) /\
    Resource.browser_instance s2 = Some b /\
    Resource.is_connected s2 b = true /\
    Resource.health_check e s2
    = Some (Ok ({| Resource.status_healthy := true; Resource.playwright := Resource.ok |}, 200),
            s2).
Proof.
  intros Hl Hs Hla.
  destruct (close_playwright_clears s Hl) as (s1 & Hclose & Hp & Hb & Hl1 & _).
  destruct (first_context_launches e s1 Hl1 Hp Hb Hs Hla) as (s2 & Hctx & Hb2 & _ & Hc & _).
  exists s1, s2, (S (Resource.next_handle s1)). repeat split; try assumption.
  unfold Resource.health_check, Resource.playwright_component. rewrite Hb2, Hc. reflexivity.
Qed.

(** X5. A failure to start the runtime or to launch the browser is fatal
    for the call only.  From a state without runtime and browser, when
    [start()] raises, or [launch()] raises and the runtime stops cleanly,
    [get_browser_context] raises that exception, releases the lock and
    leaves both globals [None]; the next call, in an outside world where
    start and launch succeed, returns a context of a connected browser. *)
Theorem failed_launch_is_retried (e : Resource.env) (ex : exn) (s : Resource.state) :
  Resource.browser_lock s = false ->
  Resource.playwright_instance s = None ->
  Resource.browser_instance s = None ->
  Resource.start_raises e = Some ex \/
  (Resource.start_raises e = None /\ Resource.launch_raises e = Some ex /\
   Resource.stop_raises e = None) ->
  exists s1,
    Resource.get_browser_context e s = Some (Raise ex, s1) /\
    Resource.playwright_instance s1 = None /\
    Resource.browser_instance s1 = None /\
    Resource.browser_lock s1 = false /\
    forall e',
      Resource.start_raises e' = None -> Resource.launch_raises e' = None ->
      exists b s2,
        Resource.get_browser_context e' s1 = Some (Ok {| Resource.ctx_browser := b |}, s2) /\
        Resource.is_connected s2 b = true.
Proof.
  intros Hl Hp Hb Hfail.
  assert (Hret : exists s1,
             Resource.get_browser_context e s = Some (Raise ex, s1) /\
             Resource.playwright_instance s1 = None /\
             Resource.browser_instance s1 = None /\
             Resource.browser_lock s1 = false).
  { destruct s as [p bi l c n]. simpl in *. subst.
    unfold Resource.get_browser_context, Resource.with_browser_lock, Resource.needs_init,
      Resource.init_playwright. simpl.
    destruct Hfail as [->|(-> & -> & ->)]; simpl; eexists; repeat split; reflexivity. }
  destruct Hret as (s1 & Hctx & Hp1 & Hb1 & Hl1). exists s1. repeat split; try assumption.
  intros e' Hs Hla.
  destruct (first_context_launches e' s1 Hl1 Hp1 Hb1 Hs Hla) as (s2 & H2 & _ & _ & Hc & _).
  eauto.
Qed.

(** X6. When [launch()] raises and, inside the handler,
    [playwright_instance.stop()] raises too, it is the second exception
    that escapes, and [playwright_instance] stays set with no browser.
    From then on every [get_browser_context] raises [AttributeError]
    without starting or launching anything, and the health endpoint never
    answers: only [close_playwright] gets the manager out of this state. *)
Theorem failed_stop_wedges_manager (e : Resource.env) (ex ex' : exn) (s : Resource.state) :
  Resource.browser_lock s = false ->
  Resource.playwright_instance s = None ->
  Resource.browser_instance s = None ->
  Resource.start_raises e = None ->
  Resource.launch_raises e = Some ex ->
  Resource.stop_raises e = Some ex' ->
  exists s1,
    Resource.get_browser_context e s = Some (Raise ex', s1) /\
    is_Some (Resource.playwright_instance s1) /\
    Resource.browser_instance s1 = None /\
    (forall e', Resource.get_browser_context e' s1 = Some (Raise AttributeError, s1)) /\
    (forall e', Resource.health_check e' s1 = None) /\
    (forall e',
       Resource.start_raises e' = None -> Resource.launch_raises e' = None ->
       exists s2 s3 b,
         Resource.close_playwright s1 = Some (Ok tt, s2) /\
         Resource.get_browser_context e' s2 = Some (Ok {| Resource.ctx_browser := b |}, s3) /\
         Resource.is_connected s3 b = true).
Proof.
  intros Hl Hp Hb Hs Hla Hst.
  destruct s as [p bi l c n]. simpl in *. subst.
  unfold Resource.get_browser_context at 1.
  unfold Resource.with_browser_lock, Resource.needs_init, Resource.init_playwright.
  simpl. rewrite Hs, Hla, Hst. simpl. eexists. split; [reflexivity|].
  split; [eexists; reflexivity|]. split; [reflexivity|]. split; [|split].
  - intros e'. reflexivity.
  - intros e'. reflexivity.
  - intros e' Hs' Hla'.
    match goal with
    | |- exists s2 s3 b, Resource.close_playwright ?st = _ /\ _ =>
        destruct (close_playwright_clears st eq_refl) as (s2 & Hc & Hp2 & Hb2 & Hl2 & _)
    end.
    exists s2.
    destruct (first_context_launches e' s2 Hl2 Hp2 Hb2 Hs' Hla') as (s3 & H3 & _ & _ & Hc3 & _).
    eauto 6.
Qed.

(** ** The result cache over several calls *)

Section CallsFacts.

Context {V S : Type}.
Variables (timeout : Z) (func : S -> option (result V * S)) (cache_key : str).

#[local] Abbreviation wrapper := (Cache.wrapper (V:=V) (S:=S) timeout func cache_key).
#[local] Abbreviation repeat_calls := (Calls.repeat_calls (V:=V) (S:=S) timeout func cache_key).

Lemma wrapper_hit (clk : Cache.clock) (m : gmap str (V * Z)) (s : S) (v : V) (T : Z) :
  m !! cache_key = Some (v, T) -> Cache.t_check clk - T < timeout ->
  wrapper clk m s = Some (Ok v, m, s).
Proof.
  intros Hm Hage. unfold Cache.wrapper.
  assert (Hf : Cache.fresh_entry timeout cache_key (Cache.t_check clk) m = Some v)
    by (apply fresh_entry_Some; eauto).
  rewrite Hf. reflexivity.
Qed.

Lemma wrapper_miss (clk : Cache.clock) (m : gmap str (V * Z)) (s : S) (v : V) (s1 : S) :
  Cache.fresh_entry timeout cache_key (Cache.t_check clk) m = None ->
  func s = Some (Ok v, s1) ->
  wrapper clk m s
  = Some (Ok v, Cache.store timeout cache_key v (Cache.t_store clk) (Cache.t_purge clk) m, s1).
Proof. intros Hf Hs. unfold Cache.wrapper. rewrite Hf, Hs. reflexivity. Qed.

Lemma wrapper_raise (clk : Cache.clock) (m : gmap str (V * Z)) (s : S) (ex : exn) (s1 : S) :
  Cache.fresh_entry timeout cache_key (Cache.t_check clk) m = None ->
  func s = Some (Raise ex, s1) ->
  wrapper clk m s = Some (Raise ex, m, s1).
Proof. intros Hf Hs. unfold Cache.wrapper. rewrite Hf, Hs. reflexivity. Qed.

Lemma store_lookup_key (v : V) (t_store t_purge : Z) (m : gmap str (V * Z)) :
  t_purge - t_store <= timeout ->
  Cache.store timeout cache_key v t_store t_purge m !! cache_key = Some (v, t_store).
Proof.
  intros Hage. unfold Cache.store. apply purge_lookup.
  rewrite lookup_insert_eq. auto.
Qed.

Lemma purge_nothing_expired (current_time : Z) (m : gmap str (V * Z)) :
  (forall k v T, m !! k = Some (v, T) -> current_time - T <= timeout) ->
  Cache.purge timeout current_time m = m.
Proof.
  intros Hyoung. unfold Cache.purge. apply map_filter_id.
  intros k [v T] Hk. unfold Cache.expired. simpl. specialize (Hyoung k v T Hk). lia.
Qed.

(** X7. Reading an entry does not prolong its life.  However many calls
    are served from an entry stored at [T], each returns the cached value
    and leaves the cache and the function's state as they were; the first
    call at [T + timeout] or later calls the function, although the entry
    was read all along. *)
Theorem hits_do_not_refresh (clks : list Cache.clock) (late : Cache.clock)
    (m : gmap str (V * Z)) (s : S) (v : V) (T : Z) :
  m !! cache_key = Some (v, T) ->
  Forall (fun clk => Cache.t_check clk - T < timeout) clks ->
  repeat_calls clks m s = Some (replicate (length clks) (Ok v), m, s) /\
  (timeout <= Cache.t_check late - T ->
   forall v' s', func s = Some (Ok v', s') ->
     exists m',
       repeat_calls (clks ++ [late]) m s
       = Some (replicate (length clks) (Ok v) ++ [Ok v'], m', s')).
Proof.
  intros Hm Hall. induction Hall as [|clk clks Hage Hall [IH1 IH2]].
  - split; [reflexivity|]. intros Hlate v' s' Hf. simpl.
    rewrite (wrapper_miss late m s v' s'); [eauto|apply fresh_entry_None|exact Hf].
    right. exists v, T. split; [exact Hm|lia].
  - simpl. rewrite (wrapper_hit clk m s v T Hm Hage). rewrite IH1. split; [reflexivity|].
    intros Hlate v' s' Hf. destruct (IH2 Hlate v' s' Hf) as [m' ->]. eauto.
Qed.

(** X8. Within the timeout the decorated function is idempotent: a call
    that misses and stores, followed by a call with the same key less than
    [timeout] after the store, returns the same value twice, and the
    function has run once (its state is the one the first call left). *)
Theorem repeated_call_fetches_once (clk1 clk2 : Cache.clock) (m : gmap str (V * Z))
    (s s1 : S) (v : V) :
  Cache.fresh_entry timeout cache_key (Cache.t_check clk1) m = None ->
  func s = Some (Ok v, s1) ->
  Cache.t_purge clk1 - Cache.t_store clk1 <= timeout ->
  Cache.t_check clk2 - Cache.t_store clk1 < timeout ->
  exists m1,
    repeat_calls [clk1; clk2] m s = Some ([Ok v; Ok v], m1, s1) /\
    m1 !! cache_key = Some (v, Cache.t_store clk1).
Proof.
  intros Hmiss Hf Hpurge Hage. eexists. simpl.
  rewrite (wrapper_miss clk1 m s v s1 Hmiss Hf).
  pose proof (store_lookup_key v _ _ m Hpurge) as Hk.
  rewrite (wrapper_hit clk2 _ s1 v _ Hk Hage). split; [reflexivity|exact Hk].
Qed.

(** X9. A failure is not remembered.  When the function raises, the
    exception reaches the caller and nothing is stored: the next call with
    the same key runs the function again, on the state the failed call
    left, and its result is the one stored. *)
Theorem errors_are_not_cached (clk1 clk2 : Cache.clock) (m : gmap str (V * Z))
    (s s1 s2 : S) (ex : exn) (v : V) :
  m !! cache_key = None ->
  func s = Some (Raise ex, s1) ->
  func s1 = Some (Ok v, s2) ->
  Cache.t_purge clk2 - Cache.t_store clk2 <= timeout ->
  exists m2,
    wrapper clk1 m s = Some (Raise ex, m, s1) /\
    repeat_calls [clk1; clk2] m s = Some ([Raise ex; Ok v], m2, s2) /\
    m2 !! cache_key = Some (v, Cache.t_store clk2).
Proof.
  intros Hm Hf1 Hf2 Hpurge.
  assert (Hmiss : forall clk, Cache.fresh_entry timeout cache_key (Cache.t_check clk) m = None)
    by (intros clk; apply fresh_entry_None; auto).
  eexists. simpl.
  rewrite (wrapper_raise clk1 m s ex s1 (Hmiss clk1) Hf1).
  rewrite (wrapper_miss clk2 m s1 v s2 (Hmiss clk2) Hf2).
  split; [reflexivity|]. split; [reflexivity|]. apply store_lookup_key, Hpurge.
Qed.

(** X10. The cache has no bound on its size.  A miss under a key that is
    not in the cache, at a time when no entry is older than the timeout,
    adds one entry and removes none, whatever the number of entries
    already held (the [threshold] of [CACHE_CONFIG] is never consulted). *)
Theorem cache_grows_without_bound (clk : Cache.clock) (m : gmap str (V * Z))
    (s s1 : S) (v : V) :
  m !! cache_key = None ->
  (forall k v' T, m !! k = Some (v', T) -> Cache.t_purge clk - T <= timeout) ->
  Cache.t_purge clk - Cache.t_store clk <= timeout ->
  func s = Some (Ok v, s1) ->
  exists m1,
    wrapper clk m s = Some (Ok v, m1, s1) /\
    m1 = <[cache_key := (v, Cache.t_store clk)]> m /\
    size m1 = Datatypes.S (size m).
Proof.
  intros Hm Hyoung Hpurge Hf. eexists. split.
  - apply wrapper_miss; [apply fresh_entry_None; auto|exact Hf].
  - unfold Cache.store. rewrite purge_nothing_expired.
    + split; [reflexivity|]. apply map_size_insert_None, Hm.
    + intros k v' T'. rewrite lookup_insert_Some.
      intros [[_ [= <- <-]]|[_ Hk]]; [exact Hpurge|eauto].
Qed.

End CallsFacts.

(** ** The lock of the cache under two callers *)

Section LockingFacts.

Context {V : Type}.
Variables (timeout : Z) (cache_key : str) (func : nat -> result V).

#[local] Abbreviation cstep := (Concurrent.step (V:=V) timeout cache_key func).
#[local] Abbreviation cexec := (Concurrent.exec (V:=V) timeout cache_key func).

#[local] Ltac step_cases H :=
  repeat match type of H with
         | context [match ?x with _ => _ end] => destruct x; simpl in H
         end; try discriminate; injection H as <-; simpl in *.

Lemma step_lock_matches t c c' :
  cstep t c = Some c' -> Locking.lock_matches c -> Locking.lock_matches c'.
Proof.
  unfold Concurrent.step, Locking.lock_matches.
  destruct t, c as [m l n f pa pb]; simpl; intros H Hinv.
  all: destruct pa, pb, l as [[|]|]; simpl in *; destruct Hinv; try discriminate.
  all: step_cases H; auto.
Qed.

Lemma exec_lock_matches es c fin :
  cexec es c = Some fin -> Locking.lock_matches c -> Locking.lock_matches fin.
Proof.
  revert c. induction es as [|[t|d] es IH]; simpl; intros c H Hinv.
  - injection H as <-. assumption.
  - destruct (cstep t c) as [c'|] eqn:Hs; [|discriminate].
    eauto using step_lock_matches.
  - apply (IH _ H); destruct c; assumption.
Qed.

Lemma lock_matches_exclusive (c : Concurrent.config (V:=V)) :
  Locking.lock_matches c ->
  Locking.critical (Concurrent.pc_a c) && Locking.critical (Concurrent.pc_b c) = false.
Proof.
  unfold Locking.lock_matches.
  destruct (Concurrent.cache_lock c) as [[|]|]; intros [-> ->]; reflexivity.
Qed.

(** A step of one caller brings it nearer to its end and leaves the other
    where it is. *)
Lemma step_steps_left t c c' :
  cstep t c = Some c' ->
  (Locking.steps_left (Concurrent.pc_a c') + Locking.steps_left (Concurrent.pc_b c') <
   Locking.steps_left (Concurrent.pc_a c) + Locking.steps_left (Concurrent.pc_b c))%nat.
Proof.
  unfold Concurrent.step.
  destruct t, c as [m l n f pa pb]; simpl; intros H.
  all: step_cases H; lia.
Qed.

Lemma exec_steps_left es c fin :
  cexec es c = Some fin ->
  (Locking.runs es
   + (Locking.steps_left (Concurrent.pc_a fin) + Locking.steps_left (Concurrent.pc_b fin))
   <= Locking.steps_left (Concurrent.pc_a c) + Locking.steps_left (Concurrent.pc_b c))%nat.
Proof.
  revert c. induction es as [|[t|d] es IH]; simpl; intros c H.
  - injection H as <-. lia.
  - destruct (cstep t c) as [c'|] eqn:Hs; [|discriminate].
    pose proof (step_steps_left _ _ _ Hs). specialize (IH _ H). lia.
  - specialize (IH _ H). destruct c; simpl in *. lia.
Qed.

(** While the lock and the callers agree, a caller that has not finished
    can move or the other one can. *)
Lemma lock_matches_progress (c : Concurrent.config (V:=V)) :
  Locking.lock_matches c ->
  Concurrent.finished (Concurrent.pc_a c) && Concurrent.finished (Concurrent.pc_b c) = false ->
  exists t c', cstep t c = Some c'.
Proof.
  unfold Locking.lock_matches, Concurrent.step.
  destruct c as [m l n f pa pb]; simpl. intros Hinv Hfin.
  destruct l as [[|]|]; destruct Hinv as [Ha Hb].
  - exists Concurrent.A. simpl. destruct pa; try discriminate; simpl; eauto.
    destruct (Cache.fresh_entry _ _ _ _); eauto.
  - exists Concurrent.B. simpl. destruct pb; try discriminate; simpl; eauto.
    destruct (Cache.fresh_entry _ _ _ _); eauto.
  - destruct (Concurrent.finished pa) eqn:Hfa.
    + exists Concurrent.B. simpl. destruct pb; try discriminate; simpl; eauto;
        destruct pa; try discriminate; simpl in *; try discriminate;
        destruct (func f); eauto.
    + exists Concurrent.A. simpl. destruct pa; try discriminate; simpl; eauto.
      destruct (func f); eauto.
Qed.

Lemma lock_matches_completes (n : nat) (c : Concurrent.config (V:=V)) :
  (Locking.steps_left (Concurrent.pc_a c) + Locking.steps_left (Concurrent.pc_b c) <= n)%nat ->
  Locking.lock_matches c ->
  exists rest fin,
    cexec rest c = Some fin /\
    Concurrent.finished (Concurrent.pc_a fin) = true /\
    Concurrent.finished (Concurrent.pc_b fin) = true.
Proof.
  revert c. induction n as [|n IH]; intros c Hn Hinv.
  - exists [], c. split; [reflexivity|].
    destruct (Concurrent.pc_a c), (Concurrent.pc_b c); simpl in *; try lia; auto.
  - destruct (Concurrent.finished (Concurrent.pc_a c) && Concurrent.finished (Concurrent.pc_b c))
      eqn:Hfin.
    + exists [], c. apply andb_true_iff in Hfin. tauto.
    + destruct (lock_matches_progress c Hinv Hfin) as (t & c' & Hs).
      pose proof (step_steps_left _ _ _ Hs) as Hlt.
      destruct (IH c') as (rest & fin & Hrun & Hdone); [lia|eauto using step_lock_matches|].
      exists (Concurrent.Run t :: rest), fin. simpl. rewrite Hs. auto.
Qed.

(** X11. Mutual exclusion.  In every interleaving of the two callers,
    [cache_lock] is held by a caller exactly while that caller is inside
    one of its two [with cache_lock] blocks; so the two are never inside a
    block at the same time, and the guard, the store and the purge of one
    caller are never interleaved with those of the other. *)
Theorem cache_lock_mutual_exclusion (m : gmap str (V * Z)) (t0 : Z)
    (es : list Concurrent.event) (fin : Concurrent.config (V:=V)) :
  cexec es (Concurrent.start m t0) = Some fin ->
  Locking.lock_matches fin /\
  Locking.critical (Concurrent.pc_a fin) && Locking.critical (Concurrent.pc_b fin) = false.
Proof.
  intros Hrun.
  assert (Hinv : Locking.lock_matches fin).
  { apply (exec_lock_matches _ _ _ Hrun). split; reflexivity. }
  split; [exact Hinv|apply lock_matches_exclusive, Hinv].
Qed.

(** X12. The two callers cannot deadlock or starve each other for ever.
    Whatever has been scheduled so far, the callers have taken at most
    twelve steps between them, and the run can be continued until both
    calls are over; unless both are over already, at least one caller can
    take a step. *)
Theorem callers_always_finish (m : gmap str (V * Z)) (t0 : Z)
    (es : list Concurrent.event) (c : Concurrent.config (V:=V)) :
  cexec es (Concurrent.start m t0) = Some c ->
  (Locking.runs es <= 12)%nat /\
  (Concurrent.finished (Concurrent.pc_a c) && Concurrent.finished (Concurrent.pc_b c) = false ->
   exists t c', cstep t c = Some c') /\
  exists rest fin,
    cexec (es ++ rest) (Concurrent.start m t0) = Some fin /\
    Concurrent.finished (Concurrent.pc_a fin) = true /\
    Concurrent.finished (Concurrent.pc_b fin) = true.
Proof.
  intros Hrun.
  assert (Hinv : Locking.lock_matches c).
  { apply (exec_lock_matches _ _ _ Hrun). split; reflexivity. }
  split; [|split].
  - pose proof (exec_steps_left _ _ _ Hrun) as H. simpl in H. lia.
  - apply lock_matches_progress, Hinv.
  - destruct (lock_matches_completes _ c (Nat.le_refl _) Hinv) as (rest & fin & Hrest & Hdone).
    exists rest, fin. rewrite exec_app, Hrun. auto.
Qed.

End LockingFacts.

(** ** The query endpoint *)

Section GateFacts.

Variable cfg : config.t.
Implicit Types (query : Api.pyval -> Api.pyval -> Api.pyval -> Api.pyval
                        -> result Pipeline.QueryResult).

Lemma api_query_admitted query (d : gmap str Api.pyval) :
  Gate.admitted cfg (Api.VDict d) = true ->
  Api.api_query cfg query (Api.VDict d)
  = match query (Api.get d (lit "project_id") Api.VNone) (Api.get d (lit "uk_code") Api.VNone)
            (Api.get d (lit "start_date") Api.VNone) (Api.get d (lit "end_date") Api.VNone) with
    | Ok r => Ok (Api.success r)
    | Raise e => Ok (Api.query_failed e)
    end.
Proof.
  unfold Gate.admitted, Api.api_query. intros H.
  apply andb_true_iff in H as [H Hkey]. apply andb_true_iff in H as [Htruth Hall].
  rewrite Htruth, Hall, Hkey. reflexivity.
Qed.

Lemma api_query_refused query (data : Api.pyval) :
  Gate.admitted cfg data = false ->
  exists r,
    (forall query', Api.api_query cfg query' data = r) /\
    Gate.from_query (Api.error_handler r) = false /\
    Api.status_code (Api.error_handler r) ∈ [400; 401; 500].
Proof.
  unfold Gate.admitted. intros H.
  assert (Hout : forall r,
            Gate.from_query (Api.error_handler r) = false ->
            Api.status_code (Api.error_handler r) ∈ [400; 401; 500] ->
            (forall query', Api.api_query cfg query' data = r) ->
            exists r,
              (forall query', Api.api_query cfg query' data = r) /\
              Gate.from_query (Api.error_handler r) = false /\
              Api.status_code (Api.error_handler r) ∈ [400; 401; 500]) by eauto.
  destruct (Api.truth data) eqn:Htruth.
  - destruct data as [ |b|z|f|s|l|d];
      try (apply (Hout (Raise AttributeError)); [reflexivity|set_solver|];
           intros query'; unfold Api.api_query; rewrite Htruth; reflexivity).
    rewrite andb_true_l in H.
    destruct (forallb Api.truth _) eqn:Hall.
    + rewrite andb_true_l in H.
      apply (Hout (Ok Api.unauthorized)); [reflexivity|set_solver|].
      intros query'. unfold Api.api_query. rewrite Htruth, Hall, H. reflexivity.
    + apply (Hout (Ok Api.missing_parameters)); [reflexivity|set_solver|].
      intros query'. unfold Api.api_query. rewrite Htruth, Hall. reflexivity.
  - apply (Hout (Ok Api.invalid_request)); [reflexivity|set_solver|].
    intros query'. unfold Api.api_query. rewrite Htruth. reflexivity.
Qed.

(** X13. The function behind the endpoint is consulted for admitted
    requests only: a JSON object that is not empty, whose four parameters
    are truthy and whose credentials (given, or defaulted from the
    configuration) are the configured ones.  For every other body the
    response does not depend on the query function at all, and it is one
    of the 400, 401 and 500 answers; for an admitted one it is the outcome
    of the query. *)
Theorem query_runs_only_when_admitted query (data : Api.pyval) :
  Gate.from_query (Api.error_handler (Api.api_query cfg query data)) = Gate.admitted cfg data /\
  (Gate.admitted cfg data = false ->
   Api.status_code (Api.error_handler (Api.api_query cfg query data)) ∈ [400; 401; 500] /\
   forall query', Api.api_query cfg query' data = Api.api_query cfg query data).
Proof.
  destruct (Gate.admitted cfg data) eqn:Hadm.
  - split; [|discriminate].
    destruct data as [ |b|z|f|s|l|d]; try discriminate.
    rewrite (api_query_admitted query d Hadm). destruct (query _ _ _ _); reflexivity.
  - destruct (api_query_refused query data Hadm) as (r & Hr & Hfrom & Hcode).
    rewrite (Hr query). split; [exact Hfrom|]. intros _. split; [exact Hcode|].
    intros query'. apply Hr.
Qed.

(** X14. The endpoint never answers 408.  The status is always one of
    200, 400, 401 and 500, and the "timeout" response of [error_handler]
    is never produced: an exception of the query, a browser timeout
    included, is caught inside [api_query] and answered with
    "query_failed" and status 500. *)
Theorem api_query_never_times_out query (data : Api.pyval) :
  let resp := Api.error_handler (Api.api_query cfg query data) in
  Api.status_code resp ∈ [200; 400; 401; 500] /\
  (forall e, resp <> Api.timeout e) /\
  (Gate.admitted cfg data = true ->
   (forall a b c d, query a b c d = Raise PlaywrightTimeoutError) ->
   resp = Api.query_failed PlaywrightTimeoutError /\ Api.status_code resp = 500).
Proof.
  cbv zeta. destruct (Gate.admitted cfg data) eqn:Hadm.
  - destruct data as [ |b|z|f|s|l|d]; try discriminate.
    rewrite (api_query_admitted query d Hadm).
    split; [|split].
    + destruct (query _ _ _ _); simpl; set_solver.
    + intros e. destruct (query _ _ _ _); discriminate.
    + intros _ Hq. rewrite Hq. split; reflexivity.
  - destruct (api_query_refused query data Hadm) as (r & Hr & Hfrom & Hcode).
    rewrite (Hr query). split; [apply elem_of_cons; right; exact Hcode|]. split; [|discriminate].
    intros e Heq. rewrite Heq in Hcode. simpl in Hcode.
    repeat (apply elem_of_cons in Hcode as [Hcode|Hcode]; [discriminate|]).
    apply elem_of_nil in Hcode. exact Hcode.
Qed.

(** X15. What a body that is not a JSON object gets.  A falsy body
    ([null], [false], [0], the empty string, list or object) is answered
    with "invalid_request" and 400; every other body that is not an object
    (a number, a non-empty string or list, [true]) makes [data.get] raise
    [AttributeError], which [error_handler] answers with "server_error"
    and 500, not 400. *)
Theorem non_object_body query (data : Api.pyval) :
  (Api.truth data = false ->
   Api.error_handler (Api.api_query cfg query data) = Api.invalid_request) /\
  (Api.truth data = true -> (forall d, data <> Api.VDict d) ->
   Api.error_handler (Api.api_query cfg query data) = Api.server_error AttributeError /\
   Api.status_code (Api.error_handler (Api.api_query cfg query data)) = 500).
Proof.
  unfold Api.api_query. split.
  - intros ->. reflexivity.
  - intros -> Hshape. destruct data as [ |b|z|f|s|l|d]; try (split; reflexivity).
    destruct (Hshape d eq_refl).
Qed.

End GateFacts.

(** ** The pipeline *)

Lemma lstrip_blank (t : str) : Forall (fun c => isspace c = true) t -> lstrip t = [].
Proof. induction 1 as [|c t Hc _ IH]; simpl; [reflexivity|]. rewrite Hc. exact IH. Qed.

Lemma strip_blank (t : str) : Forall (fun c => isspace c = true) t -> strip t = [].
Proof. intros Ht. unfold strip. rewrite (lstrip_blank t Ht). reflexivity. Qed.

Lemma float_Raise (x : str) (ex : exn) : PyNum.float x = Raise ex -> ex = ValueError.
Proof.
  unfold PyNum.float. destruct (PyNum.read_sign _) as [neg body].
  destruct (_ || _); [congruence|]. destruct (bool_decide _); [congruence|].
  destruct (PyNum.read_digits body) as [ip r1].
  destruct (match r1 with [] => _ | _ :: _ => _ end) as [fp r2].
  destruct (ip ++ fp); [congruence|].
  destruct r2 as [|c r3]; [congruence|].
  destruct (PyNum.is_exponent_mark c); [|congruence].
  destruct (PyNum.read_sign r3) as [eneg r4].
  destruct (PyNum.read_digits r4) as [[|d ds] [|c' r]]; congruence.
Qed.

Lemma parse_stats_raises_ValueError (pg : Pipeline.page) (ex : exn) :
  Pipeline.parse_stats pg = Raise ex -> ex = ValueError.
Proof.
  intros H. destruct (parse_stats_Raise pg ex H) as (s & _ & Hcase).
  unfold Pipeline.coerce_count, Pipeline.coerce_amount, Pipeline.coerce_rate in Hcase.
  destruct Hcase as [[_ Hc]|[[_ Hc]|[[_ Hc]|[_ Hc]]]].
  - exact (int_Raise _ _ Hc).
  - destruct (PyNum.float _) eqn:Hf; [discriminate|]. injection Hc as <-.
    exact (float_Raise _ _ Hf).
  - destruct (PyNum.float _) eqn:Hf; [discriminate|]. injection Hc as <-.
    exact (float_Raise _ _ Hf).
  - destruct (PyNum.float _) eqn:Hf; [discriminate|]. injection Hc as <-.
    exact (float_Raise _ _ Hf).
Qed.

Lemma blank_coercions (t : str) :
  t <> [] -> Forall (fun c => isspace c = true) t ->
  Pipeline.parse_total_count (Some t) = Raise ValueError /\
  Pipeline.parse_amount (Some t) = Raise ValueError /\
  Pipeline.parse_success_rate (Some t) = Raise ValueError.
Proof.
  intros Hne Ht.
  unfold Pipeline.parse_total_count, Pipeline.parse_amount, Pipeline.parse_success_rate.
  rewrite !if_text_nonempty by exact Hne. rewrite (strip_blank t Ht).
  repeat split; vm_compute; reflexivity.
Qed.

(** X16. Text that is only white space is not an empty field.  When one of
    the four aggregate elements of the page shows white space and nothing
    else, no default is substituted: the coercion of the stripped, empty
    text raises, [parse_stats] raises [ValueError], and the whole call
    raises it after the context has been obtained. *)
Theorem blank_text_is_not_empty e remote now p u sd ed s ctx s' pg (t : str) :
  Resource.get_browser_context e s = Some (Ok ctx, s') ->
  remote p u sd ed = Ok pg ->
  t <> [] ->
  Forall (fun c => isspace c = true) t ->
  Some t ∈ [Pipeline.total_count_text pg; Pipeline.total_amount_text pg;
            Pipeline.average_amount_text pg; Pipeline.success_rate_text pg] ->
  Pipeline.parse_stats pg = Raise ValueError /\
  Pipeline.query_data e remote now p u sd ed s = Some (Raise ValueError, s').
Proof.
  intros Hctx Hpg Hne Ht Hin.
  destruct (blank_coercions t Hne Ht) as (Hcount & Hamount & Hrate).
  assert (Hraise : exists ex, Pipeline.parse_stats pg = Raise ex).
  { unfold Pipeline.parse_stats.
    repeat (apply elem_of_cons in Hin as [Hin|Hin]); [| | | |apply elem_of_nil in Hin; tauto].
    - rewrite <- Hin, Hcount. simpl. eauto.
    - destruct (Pipeline.parse_total_count (Pipeline.total_count_text pg)); simpl; [|eauto].
      rewrite <- Hin, Hamount. simpl. eauto.
    - destruct (Pipeline.parse_total_count (Pipeline.total_count_text pg)); simpl; [|eauto].
      destruct (Pipeline.parse_amount (Pipeline.total_amount_text pg)); simpl; [|eauto].
      rewrite <- Hin, Hamount. simpl. eauto.
    - destruct (Pipeline.parse_total_count (Pipeline.total_count_text pg)); simpl; [|eauto].
      destruct (Pipeline.parse_amount (Pipeline.total_amount_text pg)); simpl; [|eauto].
      destruct (Pipeline.parse_amount (Pipeline.average_amount_text pg)); simpl; [|eauto].
      rewrite <- Hin, Hrate. simpl. eauto. }
  destruct Hraise as [ex Hex].
  pose proof (parse_stats_raises_ValueError pg ex Hex) as ->.
  split; [exact Hex|].
  unfold Pipeline.query_data. rewrite Hctx, Hpg. simpl.
  unfold Pipeline.extract. rewrite Hex. reflexivity.
Qed.

(** X17. A call that cannot obtain a browsing context fails with the
    exception of the manager before the remote site is consulted (the
    outcome is the same for every site), and nothing is cached.  A later
    call with the same key that obtains a context is computed afresh: its
    records are those extracted from the page, with their profits, and its
    result is the entry stored under the key. *)
Theorem query_after_failed_context (e e' : Resource.env) (remote : Pipeline.site)
    (now p u sd ed key : str) (clk1 clk2 : Cache.clock)
    (m : gmap str (Pipeline.QueryResult * Z)) (s s1 s2 : Resource.state) (ex : exn)
    (ctx : Resource.context) (pg : Pipeline.page) (st : Pipeline.total_stats)
    (rs : list Pipeline.record) :
  Resource.get_browser_context e s = Some (Raise ex, s1) ->
  Resource.get_browser_context e' s1 = Some (Ok ctx, s2) ->
  m !! key = None ->
  remote p u sd ed = Ok pg ->
  Pipeline.extract pg = Ok (st, rs) ->
  Cache.t_purge clk2 - Cache.t_store clk2 <= config.CACHE_timeout ->
  (forall remote0,
     Cache.query_data e remote0 now p u sd ed key clk1 m s = Some (Raise ex, m, s1)) /\
  exists qr m2,
    Cache.query_data e' remote now p u sd ed key clk2 m s1 = Some (Ok qr, m2, s2) /\
    Pipeline.data qr = map Pipeline.apply_profit rs /\
    Pipeline.stats qr = st /\
    m2 !! key = Some (qr, Cache.t_store clk2).
Proof.
  intros Hfail Hctx Hm Hpg Hex Hpurge.
  assert (Hmiss : forall clk,
            Cache.fresh_entry config.CACHE_timeout key (Cache.t_check clk) m = None)
    by (intros clk; apply fresh_entry_None; auto).
  split.
  - intros remote0. unfold Cache.query_data. apply wrapper_raise; [apply Hmiss|].
    unfold Pipeline.query_data. rewrite Hfail. reflexivity.
  - eexists _, _. unfold Cache.query_data. split; [|split; [|split]].
    + apply wrapper_miss; [apply Hmiss|].
      unfold Pipeline.query_data. rewrite Hctx, Hpg. simpl. rewrite Hex. reflexivity.
    + reflexivity.
    + reflexivity.
    + apply store_lookup_key, Hpurge.
Qed.

(** ** The main block *)

Lemma close_playwright_Some (s : Resource.state) r s' :
  Resource.close_playwright s = Some (r, s') ->
  r = Ok tt /\
  Resource.playwright_instance s' = None /\
  Resource.browser_instance s' = None /\
  Resource.browser_lock s' = false.
Proof.
  intros H. destruct (Resource.browser_lock s) eqn:Hl.
  - unfold Resource.close_playwright, Resource.with_browser_lock in H.
    rewrite Hl in H. discriminate.
  - destruct (close_playwright_clears s Hl) as (s1 & Hc & Hp & Hb & Hl1 & _).
    rewrite Hc in H. injection H as <- <-. auto.
Qed.

Lemma init_playwright_returns (e : Resource.env) (s : Resource.state) :
  exists r s1,
    Resource.init_playwright e s = Some (r, s1) /\
    Resource.browser_lock s1 = Resource.browser_lock s.
Proof.
  unfold Resource.init_playwright. destruct s as [p b l c n]. simpl.
  destruct p; [eauto|].
  destruct (Resource.start_raises e); [eauto|]. simpl.
  destruct (Resource.launch_raises e); [destruct (Resource.stop_raises e)|]; eauto.
Qed.

(** X18. The main block always ends with the teardown.  Whether
    [init_playwright] raises, the port is refused, or the server loop
    returns or raises: when the block is over, [close_playwright] has run
    last, both globals are [None] and [browser_lock] is free. *)
Theorem main_always_cleans_up (e : Resource.env) (environ : gmap str str)
    (serve : Z -> Resource.M unit) (s s' : Resource.state) (r : result unit) :
  Main.main e environ serve s = Some (r, s') ->
  r = Ok tt /\
  Resource.playwright_instance s' = None /\
  Resource.browser_instance s' = None /\
  Resource.browser_lock s' = false.
Proof.
  unfold Main.main. intros H.
  destruct (Resource.init_playwright e s) as [[[u|ex] s1]|]; [| |discriminate].
  - destruct (Main.port environ) as [p|ex]; [|exact (close_playwright_Some _ _ _ H)].
    destruct (serve p s1) as [[r2 s2]|]; [|discriminate].
    exact (close_playwright_Some _ _ _ H).
  - exact (close_playwright_Some _ _ _ H).
Qed.

(** X19. A [PORT] that [int()] refuses starts no server.  The exception is
    caught and logged by the main block: the server loop is not entered
    (the outcome is the same for every loop), the browser that
    [init_playwright] may just have launched is closed again, and the
    block ends normally with both globals [None]. *)
Theorem bad_port_starts_no_server (e : Resource.env) (environ : gmap str str)
    (s : Resource.state) (ex : exn) :
  Main.port environ = Raise ex ->
  Resource.browser_lock s = false ->
  exists s',
    (forall serve, Main.main e environ serve s = Some (Ok tt, s')) /\
    Resource.playwright_instance s' = None /\
    Resource.browser_instance s' = None.
Proof.
  intros Hport Hl. unfold Main.main. rewrite Hport.
  destruct (init_playwright_returns e s) as (r & s1 & -> & Hl1). rewrite Hl in Hl1.
  destruct (close_playwright_clears s1 Hl1) as (s' & Hc & Hp & Hb & _).
  exists s'. split; [|auto]. intros serve. destruct r; exact Hc.
Qed.

(** ** The configuration module *)

Section ConfigLoadFacts.

Variable m : ConfigLoad.machine.

(** The four cases of [FLASK_ENV]: one of the three names of
    [ENV_CONFIGS], or any other text, which selects the production entry
    and still counts as "not production" for the overrides. *)
Lemma current_env_cases :
  (ConfigLoad.ENV m = lit "development" /\
   ConfigLoad.CURRENT_ENV_CONFIG m = ConfigLoad.development /\
   ConfigLoad.overridden m = true) \/
  (ConfigLoad.ENV m = lit "testing" /\
   ConfigLoad.CURRENT_ENV_CONFIG m = ConfigLoad.testing /\
   ConfigLoad.overridden m = true) \/
  (ConfigLoad.ENV m = lit "production" /\
   ConfigLoad.CURRENT_ENV_CONFIG m = ConfigLoad.production m /\
   ConfigLoad.overridden m = false) \/
  (ConfigLoad.ENV m <> lit "development" /\ ConfigLoad.ENV m <> lit "testing" /\
   ConfigLoad.ENV m <> lit "production" /\
   ConfigLoad.CURRENT_ENV_CONFIG m = ConfigLoad.production m /\
   ConfigLoad.overridden m = true).
Proof.
  unfold ConfigLoad.CURRENT_ENV_CONFIG, ConfigLoad.overridden, ConfigLoad.ENV_CONFIGS.
  destruct (decide (ConfigLoad.ENV m = lit "production")) as [Hp|Hp].
  { right. right. left. rewrite Hp, lookup_insert_eq. auto. }
  rewrite (bool_decide_eq_false_2 _ Hp), lookup_insert_ne by congruence.
  destruct (decide (ConfigLoad.ENV m = lit "testing")) as [Ht|Ht].
  { right. left. rewrite Ht, lookup_insert_eq. auto. }
  rewrite lookup_insert_ne by congruence.
  destruct (decide (ConfigLoad.ENV m = lit "development")) as [Hd|Hd].
  { left. rewrite Hd, lookup_insert_eq. auto. }
  rewrite lookup_insert_ne, lookup_empty by congruence.
  right. right. right. auto.
Qed.

#[local] Ltac by_environment :=
  unfold ConfigLoad.PERFORMANCE, ConfigLoad.BROWSER_CONFIG, ConfigLoad.PLAYWRIGHT_CONFIG;
  destruct current_env_cases
    as [(Henv & -> & ->)|[(Henv & -> & ->)|[(Henv & -> & ->)|(Hd & Ht & Hp & -> & ->)]]];
  [rewrite ?Henv|rewrite ?Henv|rewrite ?Henv
  |rewrite ?(bool_decide_eq_false_2 _ Hd), ?(bool_decide_eq_false_2 _ Ht),
     ?(bool_decide_eq_false_2 _ Hp)].

#[local] Ltac evaluate :=
  unfold ConfigLoad.production, ConfigLoad.CACHE_CONFIG, ConfigLoad.PLAYWRIGHT_CONFIG_0,
    ConfigLoad.BROWSER_CONFIG_0, ConfigLoad.PERFORMANCE_0;
  cbn [ConfigLoad.BROWSER_overrides ConfigLoad.PERFORMANCE_overrides ConfigLoad.DEBUG
       ConfigLoad.development ConfigLoad.testing];
  generalize (ConfigLoad.IS_LOW_SPEC m) (ConfigLoad.cpu_count m) (ConfigLoad.downloads_path m);
  intros low cpus path.

(** X20. The timeout of the result cache does not follow the environment.
    [CACHE_CONFIG['timeout']], the default of the [cache_result] decorator,
    is copied from [PERFORMANCE] before the overrides of the environment
    are applied: it is 300 in every environment, also where
    [PERFORMANCE['cache_timeout']] ends up 60 (development) or 0
    (testing). *)
Theorem cache_timeout_fixed_at_import :
  ConfigLoad.CACHE_CONFIG m !! lit "timeout" = Some (ConfigLoad.CInt config.CACHE_timeout) /\
  ConfigLoad.PERFORMANCE m !! lit "cache_timeout"
  = Some (ConfigLoad.CInt
            (if bool_decide (ConfigLoad.ENV m = lit "development") then 60
             else if bool_decide (ConfigLoad.ENV m = lit "testing") then 0
             else 300)).
Proof.
  split; [evaluate; vm_compute; reflexivity|].
  by_environment; evaluate; vm_compute; reflexivity.
Qed.


(** X21. Whatever the machine and the environment, [max_workers] is an
    integer between 1 and 4; it is 1 on a low-spec machine and in the
    development and testing environments. *)
Theorem max_workers_range :
  exists w,
    ConfigLoad.PERFORMANCE m !! lit "max_workers" = Some (ConfigLoad.CInt w) /\
    1 <= w <= 4 /\
    (ConfigLoad.IS_LOW_SPEC m = true -> w = 1) /\
    (ConfigLoad.FLASK_ENV m = Some (lit "development") \/
     ConfigLoad.FLASK_ENV m = Some (lit "testing") -> w = 1).
Proof.
  assert (Hbase : exists w,
            ConfigLoad.PERFORMANCE_0 m !! lit "max_workers" = Some (ConfigLoad.CInt w) /\
            ConfigLoad.PERFORMANCE_0 m !!! lit "max_workers" = ConfigLoad.CInt w /\
            1 <= w <= 4 /\ (ConfigLoad.IS_LOW_SPEC m = true -> w = 1)).
  { exists (if ConfigLoad.IS_LOW_SPEC m then 1 else Z.min 4 (ConfigLoad.cpu_count m)).
    split; [evaluate; vm_compute; reflexivity|].
    split; [evaluate; vm_compute; reflexivity|].
    unfold ConfigLoad.IS_LOW_SPEC.
    destruct (ConfigLoad.cpu_count m <=? 1) eqn:Hcpu; simpl; [lia|].
    apply Z.leb_gt in Hcpu.
    destruct (ConfigLoad.memory_gb m <? 4)%float; [lia|]. split; [lia|discriminate]. }
  destruct Hbase as (w0 & Hget & Hitem & Hrange & Hlow).
  unfold ConfigLoad.PERFORMANCE.
  destruct current_env_cases
    as [(Henv & -> & ->)|[(Henv & -> & ->)|[(Henv & -> & ->)|(Hd & Ht & Hp & -> & ->)]]].
  - exists 1. split; [evaluate; vm_compute; reflexivity|]. split; [lia|]. auto.
  - exists 1. split; [evaluate; vm_compute; reflexivity|]. split; [lia|]. auto.
  - exists w0. split; [exact Hget|]. split; [exact Hrange|]. split; [exact Hlow|].
    unfold ConfigLoad.ENV in Henv. intros [Hf|Hf]; rewrite Hf in Henv; vm_compute in Henv;
      discriminate.
  - exists w0. split.
    + unfold ConfigLoad.production. cbn [ConfigLoad.PERFORMANCE_overrides].
      rewrite Hitem. unfold ConfigLoad.assign_all. simpl.
      rewrite lookup_insert_ne by (vm_compute; discriminate).
      apply lookup_insert_eq.
    + split; [exact Hrange|]. split; [exact Hlow|].
      unfold ConfigLoad.ENV in Hd, Ht. intros [Hf|Hf]; rewrite Hf in Hd, Ht; congruence.
Qed.

Lemma playwright_extends_browser :
  ConfigLoad.BROWSER_CONFIG_0 m ⊆ ConfigLoad.PLAYWRIGHT_CONFIG_0 m.
Proof.
  apply map_subseteq_spec. intros k v H.
  unfold ConfigLoad.BROWSER_CONFIG_0, ConfigLoad.display, ConfigLoad.assign_all in H.
  cbn [foldl fst snd] in H.
  repeat (apply lookup_insert_Some in H as [[<- <-]|[_ H]];
          [evaluate; vm_compute; reflexivity|]).
  rewrite lookup_empty in H. discriminate.
Qed.

Lemma assign_all_mono (items : list (str * ConfigLoad.cval)) (d1 d2 : gmap str ConfigLoad.cval) :
  d1 ⊆ d2 -> ConfigLoad.assign_all items d1 ⊆ ConfigLoad.assign_all items d2.
Proof.
  unfold ConfigLoad.assign_all. revert d1 d2.
  induction items as [|[k v] items IH]; simpl; intros d1 d2 Hsub; [exact Hsub|].
  apply IH, insert_mono, Hsub.
Qed.

(** X22. The two browser dictionaries agree.  Every entry of
    [BROWSER_CONFIG], as it stands after the overrides of the environment,
    is an entry of [PLAYWRIGHT_CONFIG] with the same value. *)
Theorem playwright_config_follows_browser_config (k : str) (v : ConfigLoad.cval) :
  ConfigLoad.BROWSER_CONFIG m !! k = Some v ->
  ConfigLoad.PLAYWRIGHT_CONFIG m !! k = Some v.
Proof.
  intros H. eapply lookup_weaken; [exact H|].
  unfold ConfigLoad.BROWSER_CONFIG, ConfigLoad.PLAYWRIGHT_CONFIG.
  destruct (ConfigLoad.overridden m); [apply assign_all_mono|]; apply playwright_extends_browser.
Qed.

(** X23. Debug mode and a visible browser belong to the development
    environment only: for every other value of [FLASK_ENV], known or not,
    [DEBUG] is false and the browser is headless.  The slow-motion delay
    is 100 in development; 50 is kept only on a low-spec machine under
    [FLASK_ENV=production] (or unset), while any other name, although it
    selects the production entry, resets it to 0. *)
Theorem browser_settings_by_environment :
  let dev := bool_decide (ConfigLoad.ENV m = lit "development") in
  ConfigLoad.DEBUG (ConfigLoad.CURRENT_ENV_CONFIG m) = dev /\
  ConfigLoad.BROWSER_CONFIG m !! lit "headless" = Some (ConfigLoad.CBool (negb dev)) /\
  ConfigLoad.PLAYWRIGHT_CONFIG m !! lit "headless" = Some (ConfigLoad.CBool (negb dev)) /\
  ConfigLoad.BROWSER_CONFIG m !! lit "slow_mo"
  = Some (ConfigLoad.CInt
            (if dev then 100
             else if bool_decide (ConfigLoad.ENV m = lit "production") && ConfigLoad.IS_LOW_SPEC m
                  then 50 else 0)).
Proof.
  cbv zeta. by_environment; repeat split; evaluate; destruct low; vm_compute; reflexivity.
Qed.

End ConfigLoadFacts.

(** ** The launcher *)

Lemma below_one_and_a_half (a : float) :
  (a <? 1.5)%float = true -> (a <? 2.0)%float = true.
Proof.
  rewrite !ltb_spec.
  replace (Prim2SF 1.5) with (S754_finite false 6755399441055744 (-52)) by reflexivity.
  replace (Prim2SF 2.0) with (S754_finite false 4503599627370496 (-51)) by reflexivity.
  unfold SFltb, SFcompare.
  destruct (Prim2SF a) as [sg | sg | | sg m ex];
    try destruct sg; try discriminate; try reflexivity.
  destruct (Z.compare_spec ex (-52)); destruct (Z.compare_spec ex (-51));
    try lia; try discriminate; reflexivity.
Qed.

Section LauncherFacts.

Variables (HAS_PSUTIL : bool) (environ : gmap str str) (info : Launcher.system_info).

#[local] Abbreviation env_vars := (Launcher.set_environment_variables HAS_PSUTIL environ info).

Lemma workers_range :
  1 <= Launcher.workers HAS_PSUTIL info <= Z.max 1 (2 * Launcher.cpu_count info) /\
  (Launcher.low_memory HAS_PSUTIL info = true -> Launcher.workers HAS_PSUTIL info <= 2).
Proof.
  unfold Launcher.workers, Launcher.low_memory. split.
  - destruct (HAS_PSUTIL && _); destruct (Launcher.cpu_count info <=? 1) eqn:H1;
      destruct (Launcher.cpu_count info <=? 4) eqn:H4; lia.
  - intros Hlow. apply andb_true_iff in Hlow as [-> Hlow].
    rewrite (below_one_and_a_half _ Hlow). simpl. lia.
Qed.

#[local] Ltac evaluate :=
  unfold Launcher.set_environment_variables;
  generalize (Launcher.str_of_int (Launcher.workers HAS_PSUTIL info)); intros w;
  destruct (Launcher.low_memory HAS_PSUTIL info),
    (HAS_PSUTIL && (4.0 <? Launcher.available_memory_gb info)%float),
    (environ !! lit "ENVIRONMENT"), (Launcher.is_docker info);
  vm_compute; reflexivity.

Lemma env_vars_fixed :
  env_vars !! lit "GUNICORN_WORKERS"
  = Some (Launcher.str_of_int (Launcher.workers HAS_PSUTIL info)) /\
  env_vars !! lit "GUNICORN_THREADS" = Some (lit "2") /\
  env_vars !! lit "GUNICORN_TIMEOUT" = Some (lit "120") /\
  env_vars !! lit "HOST" = Some (lit "0.0.0.0") /\
  env_vars !! lit "PORT" = Some (lit "5000") /\
  env_vars !! lit "FLASK_ENV" = None.
Proof. repeat split; evaluate. Qed.

Lemma env_vars_low_memory :
  env_vars !! lit "LOW_MEMORY_MODE"
  = if Launcher.low_memory HAS_PSUTIL info then Some (lit "true") else None.
Proof. evaluate. Qed.

Lemma env_vars_environment :
  env_vars !! lit "ENVIRONMENT"
  = match environ !! lit "ENVIRONMENT" with
    | Some _ => None
    | None => Some (if Launcher.is_docker info then lit "production" else lit "development")
    end.
Proof. evaluate. Qed.


#[local] Abbreviation launched_environ :=
  (Launcher.update (Launcher.set_environment_variables HAS_PSUTIL environ info) environ).

Lemma launched_environment :
  launched_environ !! lit "ENVIRONMENT"
  = Some (match environ !! lit "ENVIRONMENT" with
          | Some v => v
          | None => if Launcher.is_docker info then lit "production" else lit "development"
          end).
Proof.
  unfold Launcher.update. pose proof env_vars_environment as He.
  destruct (environ !! lit "ENVIRONMENT") as [v|] eqn:Hcaller.
  - rewrite lookup_union_r by exact He. exact Hcaller.
  - apply lookup_union_Some_l, He.
Qed.

(** X24. The launcher always asks for at least one worker and for no more
    than twice the number of processors, and whenever it switches the
    low-memory mode on it asks for at most two. *)
Theorem workers_setting :
  exists w,
    env_vars !! lit "GUNICORN_WORKERS" = Some (Launcher.str_of_int w) /\
    1 <= w <= Z.max 1 (2 * Launcher.cpu_count info) /\
    (is_Some (env_vars !! lit "LOW_MEMORY_MODE") -> w <= 2).
Proof.
  exists (Launcher.workers HAS_PSUTIL info).
  destruct env_vars_fixed as (Hw & _). destruct workers_range as [Hrange Hlow].
  split; [exact Hw|]. split; [exact Hrange|].
  rewrite env_vars_low_memory. destruct (Launcher.low_memory HAS_PSUTIL info); [auto|].
  intros [? [=]].
Qed.

(** X25. What the caller of the launcher can and cannot choose.  [PORT]
    and [HOST] of the caller are overwritten: the started process always
    sees 5000 and 0.0.0.0, so the main block of the application takes port
    5000.  [ENVIRONMENT] is kept when the caller has set it and is
    otherwise production inside a container and development outside.
    [FLASK_ENV] is passed through untouched. *)
Theorem launcher_fixes_port_and_host (app_exists has_gunicorn : bool)
    (executable app_path : str) :
  let environ' :=
    (Launcher.launch HAS_PSUTIL app_exists has_gunicorn executable app_path environ info).1 in
  environ' !! lit "PORT" = Some (lit "5000") /\
  environ' !! lit "HOST" = Some (lit "0.0.0.0") /\
  Main.port environ' = Ok 5000 /\
  environ' !! lit "ENVIRONMENT"
  = Some (match environ !! lit "ENVIRONMENT" with
          | Some v => v
          | None => if Launcher.is_docker info then lit "production" else lit "development"
          end) /\
  environ' !! lit "FLASK_ENV" = environ !! lit "FLASK_ENV".
Proof.
  cbv zeta. unfold Launcher.launch, Launcher.start_app. cbn [fst].
  destruct env_vars_fixed as (_ & _ & _ & Hhost & Hport & Hflask).
  assert (Hp : launched_environ !! lit "PORT" = Some (lit "5000"))
    by apply lookup_union_Some_l, Hport.
  split; [exact Hp|]. split; [apply lookup_union_Some_l, Hhost|].
  split; [unfold Main.port; rewrite Hp; vm_compute; reflexivity|].
  split; [apply launched_environment|].
  unfold Launcher.update. apply lookup_union_r, Hflask.
Qed.

(** X26. How [start_app] goes on.  When the application script does not
    exist it leaves with [sys.exit(1)] and starts nothing.  Otherwise
    gunicorn is used exactly when the environment (the caller's
    [ENVIRONMENT], or the one derived from the container check) is
    production and gunicorn can be imported; it is then given the computed
    number of workers, two threads, a timeout of 120 and the address
    0.0.0.0:5000, whatever the caller's variables say.  In every other
    case the application script is run directly. *)
Theorem gunicorn_only_in_production (app_exists has_gunicorn : bool)
    (executable app_path : str) :
  let environment :=
    match environ !! lit "ENVIRONMENT" with
    | Some v => v
    | None => if Launcher.is_docker info then lit "production" else lit "development"
    end in
  (Launcher.launch HAS_PSUTIL app_exists has_gunicorn executable app_path environ info).2
  = if app_exists then
      Launcher.Popen
        (if bool_decide (environment = lit "production") && has_gunicorn
         then [executable; lit "-m"; lit "gunicorn";
               lit "--workers=" ++ Launcher.str_of_int (Launcher.workers HAS_PSUTIL info);
               lit "--threads=2"; lit "--timeout=120"; lit "--bind=0.0.0.0:5000";
               lit "app_v3:app"]
         else [executable; app_path])
    else Launcher.Exit 1.
Proof.
  cbv zeta. unfold Launcher.launch, Launcher.start_app. cbn [snd].
  destruct app_exists; [|reflexivity]. cbn [negb]. f_equal.
  unfold Launcher.command.
  rewrite launched_environment.
  destruct env_vars_fixed as (Hw & Hth & Hto & Hhost & Hport & _).
  unfold Launcher.get, Launcher.update.
  rewrite (lookup_union_Some_l _ environ _ _ Hw), (lookup_union_Some_l _ environ _ _ Hth),
    (lookup_union_Some_l _ environ _ _ Hto), (lookup_union_Some_l _ environ _ _ Hhost),
    (lookup_union_Some_l _ environ _ _ Hport).
  assert (Hdec : forall v : str,
            bool_decide (Some v = Some (lit "production")) = bool_decide (v = lit "production")).
  { intros v. apply bool_decide_ext. split; congruence. }
  rewrite Hdec. destruct (bool_decide _ && has_gunicorn); reflexivity.
Qed.

End LauncherFacts.

(** X27. The launcher's [ENVIRONMENT] does not select the configuration.
    [config_v3] reads [FLASK_ENV], which the launcher never sets: started
    from an environment without [FLASK_ENV], the application runs with the
    production configuration (no debug mode, a headless browser) also when
    the launcher has chosen [ENVIRONMENT=development]. *)
Theorem launcher_does_not_select_configuration (HAS_PSUTIL app_exists has_gunicorn : bool)
    (executable app_path : str) (environ : gmap str str) (info : Launcher.system_info)
    (m : ConfigLoad.machine) :
  environ !! lit "FLASK_ENV" = None ->
  ConfigLoad.FLASK_ENV m
  = (Launcher.launch HAS_PSUTIL app_exists has_gunicorn executable app_path environ info).1
      !! lit "FLASK_ENV" ->
  ConfigLoad.ENV m = lit "production" /\
  ConfigLoad.DEBUG (ConfigLoad.CURRENT_ENV_CONFIG m) = false /\
  ConfigLoad.BROWSER_CONFIG m !! lit "headless" = Some (ConfigLoad.CBool true).
Proof.
  intros Hcaller Hm.
  unfold Launcher.launch, Launcher.start_app in Hm. cbn [fst] in Hm.
  unfold Launcher.update in Hm.
  destruct (env_vars_fixed HAS_PSUTIL environ info) as (_ & _ & _ & _ & _ & Hflask).
  rewrite lookup_union_r, Hcaller in Hm by exact Hflask.
  assert (Henv : ConfigLoad.ENV m = lit "production")
    by (unfold ConfigLoad.ENV; rewrite Hm; reflexivity).
  split; [exact Henv|].
  unfold ConfigLoad.BROWSER_CONFIG, ConfigLoad.overridden, ConfigLoad.CURRENT_ENV_CONFIG.
  rewrite Henv. split.
  - vm_compute. reflexivity.
  - unfold ConfigLoad.BROWSER_CONFIG_0.
    generalize (ConfigLoad.IS_LOW_SPEC m). intros low. vm_compute. reflexivity.
Qed.

(* ===================================================================== *)
(** * The further properties at concrete inputs                           *)
(* ===================================================================== *)

Lemma close_playwright_idempotent_witness :
  exists s1,
    Resource.close_playwright Scenario.crashed = Some (Ok tt, s1) /\
    Resource.playwright_instance s1 = None /\
    Resource.browser_instance s1 = None /\
    Resource.browser_lock s1 = false /\
    Resource.close_playwright s1 = Some (Ok tt, s1).
Proof. apply (close_playwright_idempotent Scenario.crashed). reflexivity. Defined.

Lemma connected_browser_is_reused_witness :
  Resource.get_browser_context Resource.strict_env Scenario.launched
  = Some (Ok {| Resource.ctx_browser := 1%nat |}, Scenario.launched).
Proof.
  apply (connected_browser_is_reused Resource.strict_env Scenario.launched 1%nat);
    vm_compute; reflexivity.
Defined.

Lemma close_then_context_relaunches_witness :
  exists s1 s2 b,
    Resource.close_playwright Scenario.crashed = Some (Ok tt, s1) /\
    Resource.get_browser_context Resource.healthy_env s1
    = Some (Ok {| Resource.ctx_browser := b |}, s2) /\
    Resource.browser_instance s2 = Some b /\
    Resource.is_connected s2 b = true /\
    Resource.health_check Resource.healthy_env s2
    = Some (Ok ({| Resource.status_healthy := true; Resource.playwright := Resource.ok |}, 200),
            s2).
Proof.
  apply (close_then_context_relaunches Resource.healthy_env Scenario.crashed); reflexivity.
Defined.

Lemma failed_launch_is_retried_witness :
  let e := {| Resource.start_raises := None; Resource.launch_raises := Some PlaywrightError;
              Resource.stop_raises := None; Resource.closed_raises := None |} in
  exists s1,
    Resource.get_browser_context e Resource.initial = Some (Raise PlaywrightError, s1) /\
    Resource.playwright_instance s1 = None /\
    Resource.browser_instance s1 = None /\
    Resource.browser_lock s1 = false /\
    exists b s2,
      Resource.get_browser_context Resource.healthy_env s1
      = Some (Ok {| Resource.ctx_browser := b |}, s2) /\
      Resource.is_connected s2 b = true.
Proof.
  intros e.
  destruct (failed_launch_is_retried e PlaywrightError Resource.initial eq_refl eq_refl eq_refl)
    as (s1 & Hctx & Hp & Hb & Hl & Hnext).
  { right. repeat split; reflexivity. }
  exists s1. repeat split; try assumption.
  apply (Hnext Resource.healthy_env); reflexivity.
Defined.

Lemma failed_stop_wedges_manager_witness :
  let e := {| Resource.start_raises := None;
              Resource.launch_raises := Some PlaywrightTimeoutError;
              Resource.stop_raises := Some PlaywrightError;
              Resource.closed_raises := None |} in
  exists s1,
    Resource.get_browser_context e Resource.initial = Some (Raise PlaywrightError, s1) /\
    is_Some (Resource.playwright_instance s1) /\
    Resource.browser_instance s1 = None /\
    Resource.get_browser_context Resource.healthy_env s1 = Some (Raise AttributeError, s1) /\
    Resource.health_check Resource.healthy_env s1 = None.
Proof.
  intros e.
  destruct (failed_stop_wedges_manager e PlaywrightTimeoutError PlaywrightError Resource.initial
              eq_refl eq_refl eq_refl eq_refl eq_refl eq_refl)
    as (s1 & Hctx & Hp & Hb & Hnext & Hhealth & _).
  exists s1. repeat split; auto.
Defined.

Lemma hits_do_not_refresh_witness :
  Calls.repeat_calls 300 (Cache.counting 7%nat) Scenario.k2
    [Scenario.clock_at 100; Scenario.clock_at 299] Scenario.one_entry 0%nat
  = Some ([Ok 22%nat; Ok 22%nat], Scenario.one_entry, 0%nat) /\
  exists m',
    Calls.repeat_calls 300 (Cache.counting 7%nat) Scenario.k2
      [Scenario.clock_at 100; Scenario.clock_at 299; Scenario.clock_at 300]
      Scenario.one_entry 0%nat
    = Some ([Ok 22%nat; Ok 22%nat; Ok 7%nat], m', 1%nat).
Proof.
  destruct (hits_do_not_refresh 300 (Cache.counting 7%nat) Scenario.k2
              [Scenario.clock_at 100; Scenario.clock_at 299] (Scenario.clock_at 300)
              Scenario.one_entry 0%nat 22%nat 0) as [Hhits Hlate].
  - vm_compute. reflexivity.
  - repeat constructor.
  - split; [exact Hhits|]. apply (Hlate ltac:(simpl; lia) 7%nat 1%nat eq_refl).
Defined.

Lemma repeated_call_fetches_once_witness :
  exists m1,
    Calls.repeat_calls 300 (Cache.counting 7%nat) Scenario.k1
      [Scenario.clock_at 10; Scenario.clock_at 200] Scenario.one_entry 0%nat
    = Some ([Ok 7%nat; Ok 7%nat], m1, 1%nat) /\
    m1 !! Scenario.k1 = Some (7%nat, 10).
Proof.
  apply (repeated_call_fetches_once 300 (Cache.counting 7%nat) Scenario.k1
           (Scenario.clock_at 10) (Scenario.clock_at 200) Scenario.one_entry 0%nat 1%nat 7%nat).
  - vm_compute. reflexivity.
  - reflexivity.
  - simpl. lia.
  - simpl. lia.
Defined.

Lemma errors_are_not_cached_witness :
  let func : nat -> option (result nat * nat) := fun calls =>
    match calls with
    | O => Some (Raise PlaywrightTimeoutError, 1%nat)
    | S _ => Some (Ok 7%nat, S calls)
    end in
  exists m2,
    Cache.wrapper 300 func Scenario.k1 (Scenario.clock_at 10) Scenario.one_entry 0%nat
    = Some (Raise PlaywrightTimeoutError, Scenario.one_entry, 1%nat) /\
    Calls.repeat_calls 300 func Scenario.k1 [Scenario.clock_at 10; Scenario.clock_at 20]
      Scenario.one_entry 0%nat
    = Some ([Raise PlaywrightTimeoutError; Ok 7%nat], m2, 2%nat) /\
    m2 !! Scenario.k1 = Some (7%nat, 20).
Proof.
  intros func.
  apply (errors_are_not_cached 300 func Scenario.k1 (Scenario.clock_at 10)
           (Scenario.clock_at 20) Scenario.one_entry 0%nat 1%nat 2%nat
           PlaywrightTimeoutError 7%nat).
  - vm_compute. reflexivity.
  - reflexivity.
  - reflexivity.
  - simpl. lia.
Defined.

Lemma cache_grows_without_bound_witness :
  exists m1,
    Cache.wrapper 300 (Cache.counting 7%nat) Scenario.k1 (Scenario.clock_at 10)
      Scenario.one_entry 0%nat
    = Some (Ok 7%nat, m1, 1%nat) /\
    m1 = <[Scenario.k1 := (7%nat, 10)]> Scenario.one_entry /\
    size m1 = S (size Scenario.one_entry).
Proof.
  apply (cache_grows_without_bound 300 (Cache.counting 7%nat) Scenario.k1
           (Scenario.clock_at 10) Scenario.one_entry 0%nat 1%nat 7%nat).
  - vm_compute. reflexivity.
  - intros k v' T H. unfold Scenario.one_entry in H.
    apply lookup_insert_Some in H as [[_ [= _ <-]]|[_ H]]; [simpl; lia|].
    rewrite lookup_empty in H. discriminate.
  - simpl. lia.
  - reflexivity.
Defined.

Lemma cache_lock_mutual_exclusion_witness :
  let func : nat -> result nat := fun n => Ok n in
  exists fin,
    Concurrent.exec 300 Scenario.k1 func
      (Concurrent.overlap
       ++ [Concurrent.Run Concurrent.A; Concurrent.Run Concurrent.A;
           Concurrent.Run Concurrent.B])
      (Concurrent.start Scenario.one_entry 10)
    = Some fin /\
    Concurrent.cache_lock fin = Some Concurrent.A /\
    Locking.lock_matches fin /\
    Locking.critical (Concurrent.pc_a fin) && Locking.critical (Concurrent.pc_b fin) = false.
Proof.
  intros func.
  destruct (Concurrent.exec 300 Scenario.k1 func
              (Concurrent.overlap
               ++ [Concurrent.Run Concurrent.A; Concurrent.Run Concurrent.A;
                   Concurrent.Run Concurrent.B])
              (Concurrent.start Scenario.one_entry 10)) as [fin|] eqn:Hrun;
    [|vm_compute in Hrun; discriminate].
  exists fin. split; [reflexivity|].
  split; [vm_compute in Hrun; injection Hrun as <-; reflexivity|].
  exact (cache_lock_mutual_exclusion 300 Scenario.k1 func Scenario.one_entry 10 _ fin Hrun).
Defined.

Lemma callers_always_finish_witness :
  let func : nat -> result nat := fun n => Ok n in
  exists c,
    Concurrent.exec 300 Scenario.k1 func Concurrent.overlap
      (Concurrent.start Scenario.one_entry 10) = Some c /\
    (exists t c', Concurrent.step 300 Scenario.k1 func t c = Some c') /\
    exists rest fin,
      Concurrent.exec 300 Scenario.k1 func (Concurrent.overlap ++ rest)
        (Concurrent.start Scenario.one_entry 10) = Some fin /\
      Concurrent.finished (Concurrent.pc_a fin) = true /\
      Concurrent.finished (Concurrent.pc_b fin) = true.
Proof.
  intros func.
  destruct (Concurrent.exec 300 Scenario.k1 func Concurrent.overlap
              (Concurrent.start Scenario.one_entry 10)) as [c|] eqn:Hrun;
    [|vm_compute in Hrun; discriminate].
  destruct (callers_always_finish 300 Scenario.k1 func Scenario.one_entry 10 _ c Hrun)
    as (_ & Hstep & Hrest).
  exists c. split; [reflexivity|]. split; [|exact Hrest].
  apply Hstep. vm_compute in Hrun. injection Hrun as <-. reflexivity.
Defined.

Lemma blank_text_is_not_empty_witness :
  let pg := Scenario.with_total_count (Some (lit "  ")) Scenario.page_ok in
  Pipeline.parse_stats pg = Raise ValueError /\
  Scenario.run pg = Some (Raise ValueError, Scenario.launched).
Proof.
  intros pg.
  apply (blank_text_is_not_empty Resource.healthy_env (Scenario.site_of pg)
           (lit "2024-02-01T09:00:00") (lit "P1") (lit "UK9") (lit "2024-01-01")
           (lit "2024-01-31") Resource.initial {| Resource.ctx_browser := 1%nat |}
           Scenario.launched pg (lit "  ")).
  - vm_compute. reflexivity.
  - reflexivity.
  - discriminate.
  - repeat constructor.
  - apply elem_of_cons. left. reflexivity.
Defined.

Lemma query_after_failed_context_witness :
  let e := {| Resource.start_raises := Some PlaywrightError; Resource.launch_raises := None;
              Resource.stop_raises := None; Resource.closed_raises := None |} in
  let call env :=
    Cache.query_data env (Scenario.site_of Scenario.page_ok) (lit "2024-02-01T09:00:00")
      (lit "P1") (lit "UK9") (lit "2024-01-01") (lit "2024-01-31") Scenario.k1 in
  call e (Scenario.clock_at 10) ∅ Resource.initial
  = Some (Raise PlaywrightError, ∅, Resource.initial) /\
  exists qr m2,
    call Resource.healthy_env (Scenario.clock_at 20) ∅ Resource.initial
    = Some (Ok qr, m2, Scenario.launched) /\
    length (Pipeline.data qr) = 2%nat /\
    m2 !! Scenario.k1 = Some (qr, 20).
Proof.
  intros e call.
  destruct (Pipeline.extract Scenario.page_ok) as [[st rs]|ex] eqn:Hex;
    [|vm_compute in Hex; discriminate].
  assert (Hlen : length rs = 2%nat) by (vm_compute in Hex; injection Hex as _ <-; reflexivity).
  destruct (query_after_failed_context e Resource.healthy_env
              (Scenario.site_of Scenario.page_ok) (lit "2024-02-01T09:00:00")
              (lit "P1") (lit "UK9") (lit "2024-01-01") (lit "2024-01-31") Scenario.k1
              (Scenario.clock_at 10) (Scenario.clock_at 20) ∅
              Resource.initial Resource.initial Scenario.launched PlaywrightError
              {| Resource.ctx_browser := 1%nat |} Scenario.page_ok st rs)
    as (Hfirst & qr & m2 & Hsecond & Hdata & _ & Hstored).
  - vm_compute. reflexivity.
  - vm_compute. reflexivity.
  - reflexivity.
  - reflexivity.
  - exact Hex.
  - unfold config.CACHE_timeout. simpl. lia.
  - split; [apply Hfirst|]. exists qr, m2. split; [exact Hsecond|].
    split; [|exact Hstored]. rewrite Hdata, length_map. exact Hlen.
Defined.

Lemma main_always_cleans_up_witness :
  let serve : Z -> Resource.M unit := fun _ s => Some (Raise PlaywrightError, s) in
  exists s',
    Main.main Resource.healthy_env (<[lit "PORT" := lit "8080"]> ∅) serve Resource.initial
    = Some (Ok tt, s') /\
    Resource.playwright_instance s' = None /\
    Resource.browser_instance s' = None /\
    Resource.browser_lock s' = false.
Proof.
  intros serve.
  destruct (Main.main Resource.healthy_env (<[lit "PORT" := lit "8080"]> ∅) serve
              Resource.initial) as [[r s']|] eqn:Hmain;
    [|vm_compute in Hmain; discriminate].
  destruct (main_always_cleans_up _ _ _ _ _ _ Hmain) as (-> & Hp & Hb & Hl).
  exists s'. auto.
Defined.

Lemma bad_port_starts_no_server_witness :
  exists s',
    (forall serve,
       Main.main Resource.healthy_env (<[lit "PORT" := lit "http"]> ∅) serve Resource.initial
       = Some (Ok tt, s')) /\
    Resource.playwright_instance s' = None /\
    Resource.browser_instance s' = None.
Proof.
  apply (bad_port_starts_no_server Resource.healthy_env (<[lit "PORT" := lit "http"]> ∅)
           Resource.initial ValueError).
  - vm_compute. reflexivity.
  - reflexivity.
Defined.

Lemma playwright_config_follows_browser_config_witness :
  let m := {| ConfigLoad.cpu_count := 2; ConfigLoad.memory_gb := 8;
              ConfigLoad.FLASK_ENV := Some (lit "development");
              ConfigLoad.downloads_path := lit "/tmp/downloads" |} in
  ConfigLoad.BROWSER_CONFIG m !! lit "headless" = Some (ConfigLoad.CBool false) /\
  ConfigLoad.PLAYWRIGHT_CONFIG m !! lit "headless" = Some (ConfigLoad.CBool false).
Proof.
  intros m.
  assert (H : ConfigLoad.BROWSER_CONFIG m !! lit "headless" = Some (ConfigLoad.CBool false))
    by (vm_compute; reflexivity).
  split; [exact H|].
  exact (playwright_config_follows_browser_config m (lit "headless") (ConfigLoad.CBool false) H).
Defined.

Lemma launcher_does_not_select_configuration_witness :
  let info := {| Launcher.cpu_count := 2; Launcher.available_memory_gb := 8;
                 Launcher.is_docker := false |} in
  let m := {| ConfigLoad.cpu_count := 2; ConfigLoad.memory_gb := 16;
              ConfigLoad.FLASK_ENV := None;
              ConfigLoad.downloads_path := lit "/tmp/downloads" |} in
  (Launcher.launch true true false (lit "python3") (lit "app_v3.py") ∅ info).1
    !! lit "ENVIRONMENT"
  = Some (lit "development") /\
  ConfigLoad.ENV m = lit "production" /\
  ConfigLoad.DEBUG (ConfigLoad.CURRENT_ENV_CONFIG m) = false /\
  ConfigLoad.BROWSER_CONFIG m !! lit "headless" = Some (ConfigLoad.CBool true).
Proof.
  intros info m. split; [vm_compute; reflexivity|].
  apply (launcher_does_not_select_configuration true true false (lit "python3")
           (lit "app_v3.py") ∅ info m).
  - reflexivity.
  - vm_compute. reflexivity.
Defined.
